(** * Shallow embedding of parts of TD_generator (Python) and their spec claims.

    Covered source:
    - [core/gates.py] and [core/gates/gate1.py .. gate4.py]: [execute_gate];
    - [core/production/performance.py]: [CacheManager] with [get_stats],
      [LoadBalancer] and [PerformanceSystem.optimize_task];
    - [core/documentation/quality.py]: [QualityChecker.check_quality];
    - [core/processing/patterns.py]: [PatternLibrary], [PatternMatcher]
      (confidence, [find_patterns], [_find_pattern_location]) and
      [PatternAnalyzer.analyze_content];
    - [core/production/testing.py]: [TestRunner.run_test], [run_suite],
      [_sort_by_dependencies] and [get_test_summary];
    - [core/global/infrastructure_manager.py]: [_get_region_for_location],
      [route_request] and [get_server_stats];
    - [core/integration/collaboration.py]: [Session] file locks and
      changes, [CollaborationSystem] sessions and [monitor_sessions]. *)

From stdpp Require Import base gmap strings list.
From Stdlib Require Import QArith Floats Lia Ascii Sorting.Sorted Lqa.
From Stdlib Require Uint63.
Import ListNotations.
Open Scope nat_scope.
Set Warnings "-inexact-float".

(** ** Shared Python helpers *)
Module Py.

(** A Python [dict] with string keys, as an association list in
    insertion order (Python dicts preserve insertion order). *)
Definition dict (V : Type) := list (string * V).

(** [d[k] = v]: an existing key keeps its position, a new key goes last. *)
Fixpoint setitem {V} (d : dict V) (k : string) (v : V) : dict V :=
  match d with
  | [] => [(k, v)]
  | (k', v') :: d' =>
      if String.eqb k k' then (k, v) :: d' else (k', v') :: setitem d' k v
  end.

(** [k in d] *)
Definition contains {V} (d : dict V) (k : string) : bool :=
  existsb (fun p => String.eqb (fst p) k) d.

(** [d.get(k)] *)
Fixpoint get {V} (d : dict V) (k : string) : option V :=
  match d with
  | [] => None
  | (k', v') :: d' => if String.eqb k' k then Some v' else get d' k
  end.

End Py.

(** ** Gate managers: [core/gates.py] and [core/gates/gate1.py .. gate4.py] *)
Module Gates.

(** [governance.ValidationResult] (the [metrics] field is not used here). *)
Record ValidationResult := mkValidationResult {
  valid : bool;
  vreason : option string
}.

(** A result dictionary returned by a step's [execute]. *)
Definition Dict := Py.dict string.

(** [governance.GateResult] *)
Record GateResult := mkGateResult {
  status : string;
  step : option string;
  reason : option string;
  results : option (Py.dict Dict)
}.

(** What a call to a sub-component's [execute(...)] does: return a dict,
    or raise an exception carrying a message ([str(e)]). *)
Inductive ExecOutcome :=
| ExecOk (d : Dict)
| ExecRaise (msg : string).

(** A sub-component: the result of its [validate()] and the behaviour of
    its [execute(...)] on the arguments the gate passes to it. *)
Record Component := mkComponent {
  comp_validate : ValidationResult;
  comp_execute : ExecOutcome
}.

(** Calls made on the sub-components, in order. *)
Inductive Event :=
| EvValidate (step_name : string)
| EvExecute (step_name : string).

(** Outcome of the [async] call [execute_gate(...)] seen by its caller:
    a returned [GateResult], or an exception propagating out. *)
Inductive Outcome :=
| Returned (r : GateResult)
| Raised (msg : string).

Definition failed (step_name : string) (why : option string) : GateResult :=
  mkGateResult "failed" (Some step_name) why None.

Definition passed (res : Py.dict Dict) : GateResult :=
  mkGateResult "passed" None None (Some res).

(** The loop of [Gate0Manager.execute_gate] ([gates.py], lines 54-68):
    validate, then [results[step_name] = await step_func()] with no
    [try]; an exception of [execute] propagates to the caller. *)
Fixpoint gate0_loop (steps : list (string * Component))
    (results : Py.dict Dict) (log : list Event) : list Event * Outcome :=
  match steps with
  | [] => (log, Returned (passed results))
  | (step_name, c) :: rest =>
      let log := log ++ [EvValidate step_name] in
      let validation := comp_validate c in
      if negb (valid validation) then
        (log, Returned (failed step_name (vreason validation)))
      else
        let log := log ++ [EvExecute step_name] in
        match comp_execute c with
        | ExecOk d => gate0_loop rest (Py.setitem results step_name d) log
        | ExecRaise msg => (log, Raised msg)
        end
  end.

(** The loop of [Gate1Manager.execute_gate] ([gate1.py], lines 86-114),
    identical in [Gate2Manager], [Gate3Manager] and [Gate4Manager]:
    validate, then execute inside [try ... except Exception as e], an
    exception becoming [GateResult(status='failed', step, reason=str(e))]. *)
Fixpoint gate_loop (steps : list (string * Component))
    (results : Py.dict Dict) (log : list Event) : list Event * Outcome :=
  match steps with
  | [] => (log, Returned (passed results))
  | (step_name, c) :: rest =>
      let log := log ++ [EvValidate step_name] in
      let validation := comp_validate c in
      if negb (valid validation) then
        (log, Returned (failed step_name (vreason validation)))
      else
        let log := log ++ [EvExecute step_name] in
        match comp_execute c with
        | ExecOk d => gate_loop rest (Py.setitem results step_name d) log
        | ExecRaise msg => (log, Returned (failed step_name (Some msg)))
        end
  end.

(** [Gate0Manager]: its three sub-components. *)
Record Gate0Manager := mkGate0Manager {
  requirements : Component;
  architecture : Component;
  risk_analyzer : Component
}.

(** [Gate0Manager.execute_gate]: the step map of lines 48-52; the
    validator of each step ([validate_step]) is the same component. *)
Definition gate0_execute_gate (m : Gate0Manager) : list Event * Outcome :=
  gate0_loop [("requirements", requirements m);
              ("architecture", architecture m);
              ("risk", risk_analyzer m)] [] [].

(** The gates with a guarded loop and their step names in declaration
    order. *)
Inductive GuardedGate := Gate1 | Gate2 | Gate3 | Gate4.

Definition step_names (g : GuardedGate) : list string :=
  match g with
  | Gate1 => ["documentation"; "style"; "quality"]
  | Gate2 => ["format_processing"; "template"; "pattern"]
  | Gate3 => ["version_control"; "collaboration"; "realtime"; "integration"]
  | Gate4 => ["performance"; "scalability"; "security"; "testing"; "deployment"]
  end.

(** [GateNManager.execute_gate] for N = 1..4, given the component bound
    to each step name (in declaration order). *)
Definition execute_gate (g : GuardedGate) (comps : list Component)
    : list Event * Outcome :=
  gate_loop (combine (step_names g) comps) [] [].

(** The default sub-components of [gates.py]: always valid, [execute]
    returns [{'status': 'completed'}]. *)
Definition default_component : Component :=
  mkComponent (mkValidationResult true None) (ExecOk [("status", "completed")]).

(** A step that validates and executes without error. *)
Definition step_ok (s : string * Component) : Prop :=
  valid (comp_validate s.2) = true /\ exists d, comp_execute s.2 = ExecOk d.

(** The calls made by steps that validate and execute. *)
Definition ok_log (pre : list (string * Component)) : list Event :=
  concat (map (fun s => [EvValidate s.1; EvExecute s.1]) pre).

End Gates.

(** ** [CacheManager]: [core/production/performance.py], lines 20-51 *)
Module Cache.
Section WithValue.
(** The cached values ([Any]). *)
Context {V : Type}.

Record CacheManager := mkCacheManager {
  cache : Py.dict V;
  max_size : Z;
  hits : nat;
  misses : nat
}.

(** [CacheManager(max_size)] *)
Definition init (max_size : Z) : CacheManager :=
  mkCacheManager [] max_size 0 0.

(** [del d[k]]: removes the entry of key [k] (the caller only deletes a
    key it has just read from the dict). *)
Fixpoint delitem (d : Py.dict V) (k : string) : Py.dict V :=
  match d with
  | [] => []
  | (k', v') :: d' => if String.eqb k' k then d' else (k', v') :: delitem d' k
  end.

(** [get(key)]: the new state and the returned value ([None] on a miss). *)
Definition get (st : CacheManager) (key : string) : CacheManager * option V :=
  match Py.get (cache st) key with
  | Some v => (mkCacheManager (cache st) (max_size st) (S (hits st)) (misses st), Some v)
  | None => (mkCacheManager (cache st) (max_size st) (hits st) (S (misses st)), None)
  end.

(** [set(key, value)]; [None] when [next(iter(self.cache))] raises
    [StopIteration] (an empty cache with [max_size <= 0]). *)
Definition set (st : CacheManager) (key : string) (value : V) : option CacheManager :=
  let evicted :=
    if (Z.of_nat (length (cache st)) >=? max_size st)%Z then
      match cache st with
      | [] => None
      | (oldest_key, _) :: _ => Some (delitem (cache st) oldest_key)
      end
    else Some (cache st) in
  match evicted with
  | None => None
  | Some c => Some (mkCacheManager (Py.setitem c key value) (max_size st) (hits st) (misses st))
  end.

(** [clear()] *)
Definition clear (st : CacheManager) : CacheManager :=
  mkCacheManager [] (max_size st) 0 0.

(** A call on the cache. *)
Inductive Op :=
| OpGet (key : string)
| OpSet (key : string) (value : V)
| OpClear.

Definition step (st : CacheManager) (op : Op) : option CacheManager :=
  match op with
  | OpGet k => Some (get st k).1
  | OpSet k v => set st k v
  | OpClear => Some (clear st)
  end.

(** A sequence of calls; [None] if one of them raises. *)
Fixpoint run (st : CacheManager) (ops : list Op) : option CacheManager :=
  match ops with
  | [] => Some st
  | op :: ops' =>
      match step st op with
      | Some st' => run st' ops'
      | None => None
      end
  end.

(** The keys passed to [set], in call order. *)
Fixpoint set_keys (ops : list Op) : list string :=
  match ops with
  | [] => []
  | OpSet k _ :: ops' => k :: set_keys ops'
  | _ :: ops' => set_keys ops'
  end.

Definition no_clear (ops : list Op) : Prop :=
  Forall (fun op => match op with OpClear => False | _ => True end) ops.

(** The last [n] elements of a list. *)
Definition lastn {A} (n : nat) (l : list A) : list A :=
  skipn (length l - n) l.
End WithValue.
Arguments CacheManager : clear implicits.
Arguments Op : clear implicits.
End Cache.

(** ** [QualityChecker]: [core/documentation/quality.py] *)
Module Quality.
Open Scope float_scope.

(** What [metric.calculate(content)] does: return a score or raise. *)
Inductive MetricOutcome :=
| Score (s : float)
| MetricRaise (msg : string).

(** [QualityMetric(name, weight)] with its [calculate]. *)
Record QualityMetric := mkQualityMetric {
  metric_name : string;
  weight : float;
  calculate : string -> MetricOutcome
}.

(** [ReadabilityMetric], [CompletenessMetric], [ConsistencyMetric]:
    [calculate] returns a constant. *)
Definition ReadabilityMetric (name : string) (w : float) : QualityMetric :=
  mkQualityMetric name w (fun _ => Score 0.85).
Definition CompletenessMetric (name : string) (w : float) : QualityMetric :=
  mkQualityMetric name w (fun _ => Score 0.90).
Definition ConsistencyMetric (name : string) (w : float) : QualityMetric :=
  mkQualityMetric name w (fun _ => Score 0.95).

(** [self.metrics] of [QualityChecker.__init__], in insertion order. *)
Definition metrics : Py.dict QualityMetric :=
  [("readability", ReadabilityMetric "readability" 0.4);
   ("completeness", CompletenessMetric "completeness" 0.3);
   ("consistency", ConsistencyMetric "consistency" 0.3)].

(** An entry of [issues]: [{'metric', 'score' | 'error', 'severity'}]. *)
Record Issue := mkIssue {
  issue_metric : string;
  issue_score : option float;
  issue_error : option string;
  severity : string
}.

Record QualityReport := mkQualityReport {
  overall_score : float;
  metric_scores : Py.dict float;
  issues : list Issue;
  passed : bool
}.

(** [x < y] on Python floats. *)
Definition flt (x y : float) : bool := PrimFloat.ltb x y.

(** The [for metric_name, metric in self.metrics.items()] loop
    (lines 52-79), accumulating [scores] and [issues]. *)
Fixpoint score_loop (ms : Py.dict QualityMetric) (content : string)
    (scores : Py.dict float) (issues : list Issue) : Py.dict float * list Issue :=
  match ms with
  | [] => (scores, issues)
  | (metric_name, metric) :: ms' =>
      match calculate metric content with
      | Score score =>
          let scores := Py.setitem scores metric_name score in
          let issues :=
            if flt score 0.7 then issues ++ [mkIssue metric_name (Some score) None "high"]
            else if flt score 0.8 then issues ++ [mkIssue metric_name (Some score) None "medium"]
            else issues in
          score_loop ms' content scores issues
      | MetricRaise msg =>
          score_loop ms' content (Py.setitem scores metric_name 0.0)
            (issues ++ [mkIssue metric_name None (Some msg) "critical"])
      end
  end.

(** Python's [sum] of floats: starts at [0] and adds left to right. *)
Definition py_sum (xs : list float) : float := fold_left PrimFloat.add xs 0.

(** [_calculate_overall_score] (lines 92-99); a score missing from
    [scores] would raise [KeyError]. *)
Definition calculate_overall_score (ms : Py.dict QualityMetric)
    (scores : Py.dict float) : option float :=
  let total_weight := py_sum (map (fun p => weight p.2) ms) in
  let terms := map (fun p => option_map (fun s => s * weight p.2) (Py.get scores p.1)) ms in
  match mapM id terms with
  | Some ts => Some (py_sum ts / total_weight)
  | None => None
  end.

(** [check_quality(content)] (lines 45-90) over the checker's metrics. *)
Definition check_quality_with (ms : Py.dict QualityMetric) (content : string)
    : option QualityReport :=
  let '(scores, issues) := score_loop ms content [] [] in
  match calculate_overall_score ms scores with
  | Some overall_score =>
      Some (mkQualityReport overall_score scores issues
              (PrimFloat.leb 0.8 overall_score
               && negb (existsb (fun i => String.eqb (severity i) "critical") issues)))
  | None => None
  end.

Definition check_quality (content : string) : option QualityReport :=
  check_quality_with metrics content.

Close Scope float_scope.
End Quality.

(** ** [InfrastructureManager._get_region_for_location]:
    [core/global/infrastructure_manager.py], lines 410-422.  Longitudes
    are modelled as rationals (the finite values of a Python float). *)
Module Infra.
Inductive RegionType := AMERICAS | EMEA | APAC | GLOBAL.

(** [x < y] *)
Definition Qltb (x y : Q) : bool := negb (Qle_bool y x).

Definition _get_region_for_location (latitude longitude : Q) : RegionType :=
  if Qle_bool (-165) longitude && Qle_bool longitude (-30) then AMERICAS
  else if Qltb (-30) longitude && Qle_bool longitude 60 then EMEA
  else APAC.
End Infra.

(** ** [Session] file locks: [core/integration/collaboration.py], lines 36-117.
    The dicts [users] and [locks] are finite maps; the iteration order of
    [self.locks.items()] is that of [map_to_list]. *)
Module Collab.
(** [User]. The naive [datetime] [last_active] is a count of
    microseconds: the difference of two such datetimes is a whole number
    of microseconds. *)
Record User := mkUser {
  id : string;
  name : string;
  role : string;
  active : bool;
  last_active : Z
}.

Record Session := mkSession {
  session_id : string;
  users : gmap string User;
  locks : gmap string string  (* file_path -> user_id *)
}.

Definition with_users (s : Session) (us : gmap string User) : Session :=
  mkSession (session_id s) us (locks s).
Definition with_locks (s : Session) (ls : gmap string string) : Session :=
  mkSession (session_id s) (users s) ls.

(** [add_user(user)] *)
Definition add_user (s : Session) (user : User) : Session :=
  with_users s (<[id user := user]> (users s)).

(** [acquire_lock(user_id, file_path)]: the new session and the result. *)
Definition acquire_lock (s : Session) (user_id file_path : string) : Session * bool :=
  match locks s !! file_path with
  | None => (with_locks s (<[file_path := user_id]> (locks s)), true)
  | Some _ => (s, false)
  end.

(** [release_lock(user_id, file_path)] *)
Definition release_lock (s : Session) (user_id file_path : string) : Session * bool :=
  match locks s !! file_path with
  | Some holder =>
      if String.eqb holder user_id
      then (with_locks s (delete file_path (locks s)), true)
      else (s, false)
  | None => (s, false)
  end.

(** [_release_user_locks(user_id)]: collect the files held by the user,
    then [release_lock] each of them. *)
Definition _release_user_locks (s : Session) (user_id : string) : Session :=
  let locked_files :=
    List.map fst (List.filter (fun p => String.eqb p.2 user_id) (map_to_list (locks s))) in
  fold_left (fun s file_path => (release_lock s user_id file_path).1) locked_files s.

(** [remove_user(user_id)]: [users.pop], then release the user's locks;
    nothing happens for a user not in the session. *)
Definition remove_user (s : Session) (user_id : string) : Session :=
  match users s !! user_id with
  | Some _ => _release_user_locks (with_users s (delete user_id (users s))) user_id
  | None => s
  end.
End Collab.

(** ** [TestRunner.run_test]: [core/production/testing.py], lines 13-133.
    A test function is modelled by what awaiting it does within the
    test's timeout when [asyncio.wait_for] lets it start (a timeout that
    is not [<= 0]); the coverage collector by what
    [_get_coverage_stats(self.coverage.get_data())] does.  Durations and
    timestamps are left out. *)
Module Testing.
Open Scope string_scope.

Inductive FnOutcome :=
| FnReturns
| FnRaises (msg : string)
| FnTimesOut.

Inductive StatsOutcome :=
| StatsOk (stats : Py.dict string)
| StatsRaise (msg : string).

Record TestCase := mkTestCase {
  tc_id : string;
  tc_name : string;
  category : string;
  function : FnOutcome;
  dependencies : list string;
  tc_timeout : float
}.

Record TestResult := mkTestResult {
  test_id : string;
  status : string;
  error : option string;
  coverage : option (Py.dict string)
}.

(** The runner state; [called] records the test functions invoked.
    [self.tests] is a dict in registration order; [self.results] is only
    looked up, updated and counted, so a finite map. *)
Record TestRunner := mkTestRunner {
  tests : Py.dict TestCase;
  results : gmap string TestResult;
  coverage_stats : StatsOutcome;
  called : list string
}.

(** A call returning a value or raising an exception with a message. *)
Inductive PyResult (A : Type) :=
| Ret (a : A)
| Exc (msg : string).
Arguments Ret {A} a.
Arguments Exc {A} msg.

(** How [_execute_test] ends inside [asyncio.wait_for]. *)
Inductive ExecEnd :=
| ExOk
| ExRaise (msg : string)
| ExTimeout.

(** [register_test(test)] *)
Definition register_test (r : TestRunner) (test : TestCase) : TestRunner :=
  mkTestRunner (Py.setitem (tests r) (tc_id test) test) (results r) (coverage_stats r) (called r).

(** The dependency loop of [_execute_test] (lines 126-130): the message
    of the [ValueError] raised, if any. *)
Fixpoint check_dependencies (results : gmap string TestResult) (deps : list string)
    : option string :=
  match deps with
  | [] => None
  | dep_id :: deps' =>
      match results !! dep_id with
      | None => Some ("Dependency " ++ dep_id ++ " not executed")
      | Some res =>
          if String.eqb (status res) "passed" then check_dependencies results deps'
          else Some ("Dependency " ++ dep_id ++ " failed")
      end
  end.

(** [_execute_test(test)] (lines 123-133). *)
Definition _execute_test (r : TestRunner) (test : TestCase) : TestRunner * ExecEnd :=
  match check_dependencies (results r) (dependencies test) with
  | Some msg => (r, ExRaise msg)
  | None =>
      let r := mkTestRunner (tests r) (results r) (coverage_stats r)
                 (called r ++ [tc_id test])%list in
      match function test with
      | FnReturns => (r, ExOk)
      | FnRaises msg => (r, ExRaise msg)
      | FnTimesOut => (r, ExTimeout)
      end
  end.

(** [await asyncio.wait_for(self._execute_test(test), timeout=test.timeout)]:
    for [timeout <= 0] the task wrapping [_execute_test] is cancelled
    before it starts (no dependency is checked, no function invoked) and
    [TimeoutError] is raised. *)
Definition wait_for_execute (r : TestRunner) (test : TestCase) : TestRunner * ExecEnd :=
  if PrimFloat.leb (tc_timeout test) 0%float then (r, ExTimeout) else _execute_test r test.

(** [run_test(test_id)] (lines 44-102). *)
Definition run_test (r : TestRunner) (test_id : string) : PyResult (TestRunner * TestResult) :=
  match Py.get (tests r) test_id with
  | None => Exc ("Test " ++ test_id ++ " not found")
  | Some test =>
      let '(r, ended) := wait_for_execute r test in
      let result :=
        match ended with
        | ExOk =>
            match coverage_stats r with
            | StatsOk stats => mkTestResult test_id "passed" None (Some stats)
            | StatsRaise msg => mkTestResult test_id "failed" (Some msg) None
            end
        | ExTimeout => mkTestResult test_id "timeout" (Some "Test execution timed out") None
        | ExRaise msg => mkTestResult test_id "failed" (Some msg) None
        end in
      Ret (mkTestRunner (tests r) (<[test_id := result]> (results r))
                        (coverage_stats r) (called r), result)
  end.

Close Scope string_scope.
End Testing.

(** ** Pattern recognition: [core/processing/patterns.py].
    Strings are ASCII; [\b] and [\w] are ASCII word boundaries and word
    characters, [re.IGNORECASE] folds ASCII letters, [str.split()] splits
    at ASCII whitespace.  Ratios are exact rationals ([Q]); Python computes
    them as doubles. *)
Module Patterns.

(** [\w]: [[a-zA-Z0-9_]] *)
Definition is_word_char (c : ascii) : bool :=
  let n := nat_of_ascii c in
  ((48 <=? n) && (n <=? 57)) || ((65 <=? n) && (n <=? 90))
  || ((97 <=? n) && (n <=? 122)) || (n =? 95).

(** Whitespace for [str.split()]: [\t \n \v \f \r], [\x1c-\x1f], space. *)
Definition is_space (c : ascii) : bool :=
  let n := nat_of_ascii c in ((9 <=? n) && (n <=? 13)) || ((28 <=? n) && (n <=? 32)).

(** Case folding of [re.IGNORECASE] on ASCII. *)
Definition lower (c : ascii) : ascii :=
  let n := nat_of_ascii c in
  if (65 <=? n) && (n <=? 90) then ascii_of_nat (n + 32) else c.

(** An indicator made of word characters only (all library indicators). *)
Fixpoint all_word (s : string) : bool :=
  match s with
  | EmptyString => true
  | String c s' => is_word_char c && all_word s'
  end.

(** [ind\b] matches at the start of [s] (case-insensitively). *)
Fixpoint word_match (ind s : string) : bool :=
  match ind, s with
  | EmptyString, EmptyString => true
  | EmptyString, String c _ => negb (is_word_char c)
  | String a ind', String b s' => Ascii.eqb (lower a) (lower b) && word_match ind' s'
  | String _ _, EmptyString => false
  end.

(** [\bind\b] matches at the start of [s], [prev] telling whether the
    preceding character is a word character (a word indicator starts with
    a word character, so [\b] needs a non-word character before). *)
Definition match_at (ind s : string) (prev : bool) : bool :=
  negb prev && word_match ind s.

Fixpoint str_drop (n : nat) (s : string) : string :=
  match n, s with
  | O, _ => s
  | S n', String _ s' => str_drop n' s'
  | S _, EmptyString => EmptyString
  end.

(** The scan of [re.findall(rf'\b{ind}\b', content, re.IGNORECASE)]:
    after a match the search resumes at its end (whose last character is
    a word character); otherwise one character further. *)
Fixpoint findall_scan (ind : string) (fuel : nat) (prev : bool) (s : string) : nat :=
  match fuel with
  | O => O
  | S fuel' =>
      match s with
      | EmptyString => O
      | String c s' =>
          if match_at ind s prev
          then S (findall_scan ind fuel' true (str_drop (String.length ind) s))
          else findall_scan ind fuel' (is_word_char c) s'
      end
  end.

(** [len(re.findall(rf'\b{indicator}\b', content, re.IGNORECASE))] *)
Definition count (indicator content : string) : nat :=
  findall_scan indicator (S (String.length content)) false content.

(** Auxiliary: the number of positions of [s] at which [\bind\b] matches. *)
Fixpoint count_positions (ind : string) (prev : bool) (s : string) : nat :=
  match s with
  | EmptyString => O
  | String c s' =>
      (if match_at ind s prev then 1 else 0) + count_positions ind (is_word_char c) s'
  end.

(** Auxiliary: the key order of a dict after [d[k] = v]. *)
Definition key_insert (ks : list string) (k : string) : list string :=
  if existsb (String.eqb k) ks then ks else ks ++ [k].

(** [len(content.split())] *)
Fixpoint words_from (in_word : bool) (s : string) : nat :=
  match s with
  | EmptyString => O
  | String c s' =>
      if is_space c then words_from false s'
      else (if in_word then O else 1) + words_from true s'
  end.

Definition split_len (content : string) : nat := words_from false content.

Record Pattern := mkPattern {
  name : string;
  description : string;
  indicators : list string;
  weight : Q
}.

(** [PatternLibrary._initialize_patterns] *)
Definition default_patterns : Py.dict Pattern :=
  [("api_endpoint", mkPattern "API Endpoint" "REST API endpoint documentation pattern"
      ["GET"; "POST"; "PUT"; "DELETE"; "endpoint"; "route"] 1);
   ("class_definition", mkPattern "Class Definition" "Object-oriented class documentation pattern"
      ["class"; "method"; "attribute"; "property"] (8 # 10));
   ("function_definition", mkPattern "Function Definition" "Function or method documentation pattern"
      ["function"; "parameter"; "return"; "raises"] (8 # 10));
   ("configuration", mkPattern "Configuration" "Configuration or settings documentation pattern"
      ["config"; "setting"; "parameter"; "option"] (6 # 10));
   ("tutorial", mkPattern "Tutorial" "Step-by-step guide or tutorial pattern"
      ["step"; "guide"; "tutorial"; "example"] (7 # 10))].

Definition api_endpoint : Pattern :=
  mkPattern "API Endpoint" "REST API endpoint documentation pattern"
    ["GET"; "POST"; "PUT"; "DELETE"; "endpoint"; "route"] 1.

(** Python's [sum] of ints. *)
Definition sum_nat (xs : list nat) : nat := fold_left Nat.add xs O.

(** [min(x, y)]: [y] only when [y < x]. *)
Definition py_min (x y : Q) : Q := if negb (Qle_bool x y) then y else x.

Record PatternConfidence := mkPatternConfidence {
  confidence : Q;
  indicator_counts : Py.dict nat;
  frequency_factor : Q
}.

(** The loop of lines 110-113 filling [indicator_counts]. *)
Definition count_indicators (content : string) (pattern : Pattern) : Py.dict nat :=
  fold_left (fun d indicator => Py.setitem d indicator (count indicator content))
    (indicators pattern) [].

(** [PatternMatcher._calculate_pattern_confidence] (lines 105-130);
    [None] when [matched / total] raises [ZeroDivisionError]. *)
Definition _calculate_pattern_confidence (content : string) (pattern : Pattern)
    : option PatternConfidence :=
  let indicator_counts := count_indicators content pattern in
  let total_indicators := length (indicators pattern) in
  let matched_indicators :=
    length (List.filter (fun c => 0 <? c) (map snd indicator_counts)) in
  match total_indicators with
  | O => None
  | S _ =>
      let base_confidence :=
        (Z.of_nat matched_indicators # Pos.of_nat total_indicators)%Q in
      let frequency_factor :=
        (Z.of_nat (sum_nat (map snd indicator_counts)) # Pos.of_succ_nat (split_len content))%Q in
      let adjusted_confidence := (base_confidence * (1 + frequency_factor))%Q in
      Some (mkPatternConfidence (py_min adjusted_confidence 1) indicator_counts
              frequency_factor)
  end.

(** [PatternAnalyzer._get_pattern_suggestion] (lines 209-218). *)
Definition suggestions : Py.dict string :=
  [("api_endpoint", "Consider adding request/response examples");
   ("class_definition", "Add attribute type hints and descriptions");
   ("function_definition", "Include parameter and return type documentation");
   ("configuration", "Provide default values and valid ranges");
   ("tutorial", "Add step numbers and expected outcomes")].

Definition _get_pattern_suggestion (pattern : Pattern) : string :=
  match Py.get suggestions (name pattern) with
  | Some s => s
  | None => "Consider adding more details"
  end.

Record PatternMatch := mkPatternMatch {
  pattern : Pattern;
  match_confidence : Q
}.

Record Recommendation := mkRecommendation {
  rec_pattern : string;
  rec_confidence : Q;
  suggestion : string
}.

(** [PatternAnalyzer._generate_recommendations] (lines 186-199). *)
Definition _generate_recommendations (matches : list PatternMatch) : list Recommendation :=
  map (fun m => mkRecommendation (name (pattern m)) (match_confidence m)
                                 (_get_pattern_suggestion (pattern m)))
    (List.filter (fun m => negb (Qle_bool (match_confidence m) (8 # 10))) matches).

End Patterns.

(** ** The rest of [core/production/performance.py]: [CacheManager.get_stats],
    [LoadBalancer] and [PerformanceSystem.optimize_task].  A worker's
    capacity and load are Python floats; [hit_rate] is an exact ratio
    (Python divides two ints into a double). *)
Module Perf.
Import Cache.

(** [CacheManager.get_stats] (lines 53-64). *)
Record CacheStats := mkCacheStats {
  stats_size : nat;
  stats_max_size : Z;
  stats_hits : nat;
  stats_misses : nat;
  hit_rate : Q
}.

Definition get_stats {V} (st : CacheManager V) : CacheStats :=
  let total := hits st + misses st in
  let hit_rate := if 0 <? total then (Z.of_nat (hits st) # Pos.of_nat total)%Q else 0%Q in
  mkCacheStats (length (cache st)) (max_size st) (hits st) (misses st) hit_rate.

(** The number of [get] calls in a sequence of calls. *)
Fixpoint get_calls {V} (ops : list (Op V)) : nat :=
  match ops with
  | [] => 0
  | OpGet _ :: ops' => S (get_calls ops')
  | _ :: ops' => get_calls ops'
  end.

(** A worker entry of [LoadBalancer.workers]:
    [{'capacity', 'current_load', 'tasks'}]. *)
Record Worker := mkWorker {
  capacity : float;
  current_load : float;
  tasks : list string
}.

Definition LoadBalancer := Py.dict Worker.

(** [register_worker(worker_id, capacity)] (lines 146-152). *)
Definition register_worker (lb : LoadBalancer) (worker_id : string) (capacity : float)
    : LoadBalancer :=
  Py.setitem lb worker_id (mkWorker capacity 0%float []).

(** [remove_worker(worker_id)] (lines 154-157). *)
Definition remove_worker (lb : LoadBalancer) (worker_id : string) : LoadBalancer :=
  if Py.contains lb worker_id then delitem lb worker_id else lb.

(** [update_worker_load(worker_id, load)] (lines 169-172): the entry is
    updated in place, keeping its position. *)
Definition update_worker_load (lb : LoadBalancer) (worker_id : string) (load : float)
    : LoadBalancer :=
  match Py.get lb worker_id with
  | Some w => Py.setitem lb worker_id (mkWorker (capacity w) load (tasks w))
  | None => lb
  end.

(** The key [x[1]['current_load'] / x[1]['capacity']]: a float division
    by zero raises [ZeroDivisionError]. *)
Definition load_ratio (w : Worker) : option float :=
  if PrimFloat.eqb (capacity w) 0%float then None
  else Some (current_load w / capacity w)%float.

(** What [get_best_worker()] does. *)
Inductive BestWorker :=
| NoWorker
| BestIs (worker_id : string)
| ZeroDivision.

(** [min(items, key=...)]: the key of every item is computed in order;
    an item replaces the current minimum when its key is [<] the
    current one. *)
Fixpoint min_loop (items : list (string * Worker)) (best : string) (best_key : float)
    : BestWorker :=
  match items with
  | [] => BestIs best
  | (k, w) :: items' =>
      match load_ratio w with
      | None => ZeroDivision
      | Some r =>
          if PrimFloat.ltb r best_key then min_loop items' k r
          else min_loop items' best best_key
      end
  end.

(** [get_best_worker()] (lines 159-167). *)
Definition get_best_worker (lb : LoadBalancer) : BestWorker :=
  match lb with
  | [] => NoWorker
  | (k, w) :: items =>
      match load_ratio w with
      | None => ZeroDivision
      | Some r => min_loop items k r
      end
  end.

(** [ResourceManager.get_metrics()]: its [cpu_usage], or an exception. *)
Inductive MetricsOutcome :=
| MetricsOk (cpu_usage : float)
| MetricsRaise (msg : string).

(** What [await func(...)] does: return a value ([None] is
    [None]) or raise. *)
Inductive TaskOutcome (V : Type) :=
| TaskReturns (v : option V)
| TaskRaises (msg : string).
Arguments TaskReturns {V} v.
Arguments TaskRaises {V} msg.

(** The state of a [PerformanceSystem] used by [optimize_task]: the
    cache (whose values may be [None]) and the load balancer's workers. *)
Record PerformanceSystem (V : Type) := mkPerformanceSystem {
  pcache : CacheManager (option V);
  pworkers : LoadBalancer
}.
Arguments mkPerformanceSystem {V} pcache pworkers.
Arguments pcache {V} p.
Arguments pworkers {V} p.

(** The end of [optimize_task]: a returned value or a raised message. *)
Inductive TaskEnd (V : Type) :=
| Done (v : option V)
| Failed (msg : string).
Arguments Done {V} v.
Arguments Failed {V} msg.

(** The [finally] clause (lines 224-230): [get_metrics()] again and the
    load update; an exception raised there replaces the pending outcome. *)
Definition finally_update {V} (lb : LoadBalancer) (worker_id : string)
    (m : MetricsOutcome) (pending : TaskEnd V) : LoadBalancer * TaskEnd V :=
  match m with
  | MetricsOk cpu => (update_worker_load lb worker_id cpu, pending)
  | MetricsRaise msg => (lb, Failed msg)
  end.

(** [optimize_task(task_id, func, ...)] (lines 197-234) for
    the cache key [f"{task_id}:{args}:{kwargs}"], the behaviour of [func]
    and of the two [get_metrics()] calls of the worker branch.  The last
    component tells whether [func] was awaited. *)
Definition optimize_task {V} (ps : PerformanceSystem V) (cache_key : string)
    (func : TaskOutcome V) (m1 m2 : MetricsOutcome)
    : PerformanceSystem V * TaskEnd V * bool :=
  let '(c, cached) := get (pcache ps) cache_key in
  let ps := mkPerformanceSystem c (pworkers ps) in
  match cached with
  | Some (Some v) => (ps, Done (Some v), false)
  | _ =>
      let run_and_cache (lb : LoadBalancer) (res : TaskEnd V) (invoked : bool) :=
        match res with
        | Failed msg => (mkPerformanceSystem (pcache ps) lb, Failed msg, invoked)
        | Done r =>
            match set (pcache ps) cache_key r with
            | Some c' => (mkPerformanceSystem c' lb, Done r, invoked)
            | None => (mkPerformanceSystem (pcache ps) lb, Failed "coroutine raised StopIteration", invoked)
            end
        end in
      let call := match func with TaskReturns r => Done r | TaskRaises e => Failed e end in
      match get_best_worker (pworkers ps) with
      | ZeroDivision => (ps, Failed "float division by zero", false)
      | NoWorker => run_and_cache (pworkers ps) call true
      | BestIs worker_id =>
          if String.eqb worker_id "" then run_and_cache (pworkers ps) call true
          else
            match m1 with
            | MetricsRaise e =>
                let '(lb, res) := finally_update (pworkers ps) worker_id m2 (Failed e) in
                run_and_cache lb res false
            | MetricsOk cpu =>
                let lb := update_worker_load (pworkers ps) worker_id cpu in
                let '(lb, res) := finally_update lb worker_id m2 call in
                run_and_cache lb res true
            end
      end
  end.

End Perf.

(** ** [core/integration/collaboration.py]: change review, the session
    registry [CollaborationSystem] and one pass of [monitor_sessions] *)
Module CollabSystem.






(** [CollaborationSystem.sessions], in insertion order. *)
Definition Sessions := Py.dict Collab.Session.

(** [Session(session_id)]: no users, no locks. *)
Definition new_session (session_id : string) : Collab.Session :=
  Collab.mkSession session_id ∅ ∅.

(** [create_session(session_id)]: the new registry and the session, or
    the [ValueError] message. *)
Definition create_session (sessions : Sessions) (session_id : string)
    : (Sessions * Collab.Session) + string :=
  if Py.contains sessions session_id then
    inr ("Session " ++ session_id ++ " already exists")%string
  else
    let session := new_session session_id in
    inl (Py.setitem sessions session_id session, session).

(** [get_session(session_id)]; the last branch is [self.sessions[...]]
    raising [KeyError]. *)
Definition get_session (sessions : Sessions) (session_id : string) : Collab.Session + string :=
  if negb (Py.contains sessions session_id) then
    inr ("Session " ++ session_id ++ " not found")%string
  else
    match Py.get sessions session_id with
    | Some s => inl s
    | None => inr session_id
    end.

(** [close_session(session_id)]: [self.sessions.pop(session_id)] when present. *)
Definition close_session (sessions : Sessions) (session_id : string) : Sessions :=
  if Py.contains sessions session_id then Cache.delitem sessions session_id else sessions.

(** [list_sessions()] *)
Definition list_sessions (sessions : Sessions) : list string :=
  List.map fst sessions.

(** One pass of the [try] block of [monitor_sessions], with
    [current_time = datetime.now()] read once at the start of the pass
    (in microseconds, as [last_active]). *)
Section Monitor.
Variable current_time : Z.

(** [(current_time - user.last_active).total_seconds() > 3600]:
    [total_seconds()] divides the whole number of microseconds by
    [10**6], rounded to the nearest float, which exceeds [3600] exactly
    when the microseconds exceed [3600 * 10**6]. *)
Definition is_inactive (user : Collab.User) : bool :=
  (3600 * 1000000 <? current_time - Collab.last_active user)%Z.

(** The inactive users of a session are removed one by one. *)
Definition remove_inactive_users (session : Collab.Session) : Collab.Session :=
  let inactive_users :=
    List.map fst (List.filter (fun p => is_inactive p.2) (map_to_list (Collab.users session))) in
  fold_left Collab.remove_user inactive_users session.

(** [for session_id, session in list(self.sessions.items())]: the
    session object is updated in place (its entry keeps its position),
    and closed when no user is left. *)
Definition monitor_pass (sessions : Sessions) : Sessions :=
  fold_left
    (fun sessions (p : string * Collab.Session) =>
       let session := remove_inactive_users p.2 in
       let sessions := Py.setitem sessions p.1 session in
       if decide (Collab.users session = ∅) then close_session sessions p.1 else sessions)
    sessions sessions.
End Monitor.

End CollabSystem.

(** ** [core/production/testing.py]: [_sort_by_dependencies], [run_suite]
    and [TestingSystem.get_test_summary] *)
Module TestingSuite.
Import Testing.
Open Scope string_scope.

(** The [tests] argument of [_sort_by_dependencies]: a dict in iteration order. *)
Definition Suite := Py.dict TestCase.

(** The closure state of [_sort_by_dependencies]: [visited] and [sorted_tests]. *)
Definition SortState := (gset string * list string)%type.

(** [for dep_id in deps: visit(dep_id)], for a given [visit]. *)
Fixpoint visit_each (visit : string -> SortState -> PyResult SortState)
    (ids : list string) (st : SortState) : PyResult SortState :=
  match ids with
  | [] => Ret st
  | dep_id :: ids' =>
      match visit dep_id st with
      | Ret st' => visit_each visit ids' st'
      | Exc msg => Exc msg
      end
  end.

(** [visit(test_id)]. [fuel] is the recursion depth left before Python
    raises [RecursionError]: [visited] only records a test after its
    dependencies, so a dependency cycle recurses until that limit. *)
Fixpoint visit (fuel : nat) (tests : Suite) (test_id : string) (st : SortState)
    : PyResult SortState :=
  match fuel with
  | 0 => Exc "maximum recursion depth exceeded"
  | S fuel' =>
      if decide (test_id ∈ st.1) then Ret st
      else
        match Py.get tests test_id with
        | None => Exc ("Test " ++ test_id ++ " not found")
        | Some test =>
            match visit_each (visit fuel' tests) (dependencies test) st with
            | Ret (visited, sorted_tests) =>
                Ret ({[test_id]} ∪ visited, (sorted_tests ++ [test_id])%list)
            | Exc msg => Exc msg
            end
        end
  end.

(** [_sort_by_dependencies(tests)]: [visit] each test id in turn. *)
Definition _sort_by_dependencies (fuel : nat) (tests : Suite) : PyResult (list string) :=
  match visit_each (visit fuel tests) (List.map fst tests) (∅, []) with
  | Ret (_, sorted_tests) => Ret sorted_tests
  | Exc msg => Exc msg
  end.

(** [not category or test.category == category] *)
Definition in_suite (category_arg : option string) (test : TestCase) : bool :=
  match category_arg with
  | None => true
  | Some c => if String.eqb c "" then true else String.eqb (category test) c
  end.

(** [for test_id in sorted_tests: results[test_id] = await self.run_test(test_id)] *)
Fixpoint run_tests (r : TestRunner) (ids : list string) (results : Py.dict TestResult)
    : PyResult (TestRunner * Py.dict TestResult) :=
  match ids with
  | [] => Ret (r, results)
  | test_id :: ids' =>
      match run_test r test_id with
      | Ret (r', result) => run_tests r' ids' (Py.setitem results test_id result)
      | Exc msg => Exc msg
      end
  end.

(** [run_suite(category)]. The suite is [self.tests] filtered, in
    registration order. *)
Definition run_suite (fuel : nat) (r : TestRunner) (category_arg : option string)
    : PyResult (TestRunner * Py.dict TestResult) :=
  let suite := List.filter (fun p => in_suite category_arg p.2) (tests r) in
  match _sort_by_dependencies fuel suite with
  | Exc msg => Exc msg
  | Ret sorted_tests => run_tests r sorted_tests []
  end.

(** The dict returned by [get_test_summary()]. *)
Record TestSummary := mkTestSummary {
  total : nat;
  passed : nat;
  failed : nat;
  timeout : nat;
  success_rate : float
}.

Definition float_of_nat (n : nat) : float :=
  PrimFloat.of_uint63 (Uint63.of_Z (Z.of_nat n)).

(** [sum(1 for r in all_results if r.status == s)] *)
Definition count_status (s : string) (all_results : list TestResult) : nat :=
  length (List.filter (fun res => String.eqb (status res) s) all_results).

(** [get_test_summary()] over the runners of the integration,
    performance and security testers. *)
Definition get_test_summary (integration performance security : TestRunner) : TestSummary :=
  let all_results :=
    List.concat (List.map (fun r => List.map snd (map_to_list (results r)))
                          [integration; performance; security]) in
  let total := length all_results in
  let passed := count_status "passed" all_results in
  let failed := count_status "failed" all_results in
  let timeout := count_status "timeout" all_results in
  mkTestSummary total passed failed timeout
    (if (0 <? total)%nat then (float_of_nat passed / float_of_nat total)%float else 0%float).

(** Predicates used to state properties of [_sort_by_dependencies]. *)
(** [b] is a dependency of the suite's test [a]. *)
Definition dep_edge (tests : Suite) (a b : string) : Prop :=
  exists t, Py.get tests a = Some t /\ In b (dependencies t).

(** A stack of [visit] calls, innermost first: each call was made from
    the one below it, for one of its dependencies. *)
Fixpoint call_chain (tests : Suite) (l : list string) : Prop :=
  match l with
  | a :: ((b :: _) as l') => dep_edge tests b a /\ call_chain tests l'
  | _ => True
  end.

(** The invariant of [_sort_by_dependencies]: [visited] holds the ids
    of [sorted_tests], which are distinct tests of the suite, each after
    all of its dependencies. *)
Definition sort_inv (tests : Suite) (st : SortState) : Prop :=
  (forall y, y ∈ st.1 <-> In y st.2)
  /\ NoDup st.2
  /\ (forall y, In y st.2 -> exists t, Py.get tests y = Some t)
  /\ (forall y t d, Py.get tests y = Some t -> In d (dependencies t) -> In y st.2 ->
        exists i j, st.2 !! i = Some d /\ st.2 !! j = Some y /\ i < j).

Close Scope string_scope.
End TestingSuite.

(** ** [core/processing/patterns.py]: [PatternLibrary], [find_patterns],
    [_find_pattern_location], [_calculate_pattern_coverage] and
    [analyze_content]. As in [Patterns], indicators are read as words
    (the [re] pattern [rf'\b{indicator}\b'] interpolates them
    unescaped). *)
Module PatternSearch.
Import Patterns.

(** [PatternLibrary.add_pattern(pattern)]: keyed by [pattern.name]. *)
Definition add_pattern (patterns : Py.dict Pattern) (pattern : Pattern) : Py.dict Pattern :=
  Py.setitem patterns (name pattern) pattern.

(** [PatternLibrary.get_pattern(name)]; [None] when [self.patterns[name]]
    raises [KeyError]. *)
Definition get_pattern (patterns : Py.dict Pattern) (name : string) : option Pattern :=
  Py.get patterns name.

(** [PatternLibrary.list_patterns()] *)
Definition list_patterns (patterns : Py.dict Pattern) : list string :=
  List.map fst patterns.

(** The scan of [re.finditer(rf'\b{ind}\b', content, re.IGNORECASE)],
    the same as [findall_scan], with the [(m.start(), m.end())] of each
    match; [pos] is the index of [s] in [content]. *)
Fixpoint finditer_scan (ind : string) (fuel : nat) (prev : bool) (pos : nat) (s : string)
    : list (nat * nat) :=
  match fuel with
  | O => []
  | S fuel' =>
      match s with
      | EmptyString => []
      | String c s' =>
          if match_at ind s prev
          then (pos, pos + String.length ind)
                 :: finditer_scan ind fuel' true (pos + String.length ind)
                      (str_drop (String.length ind) s)
          else finditer_scan ind fuel' (is_word_char c) (S pos) s'
      end
  end.

(** [list(re.finditer(rf'\b{indicator}\b', content, re.IGNORECASE))] *)
Definition finditer (indicator content : string) : list (nat * nat) :=
  finditer_scan indicator (S (String.length content)) false 0 content.

(** [PatternMatcher._find_pattern_location(content, pattern)]: the
    [{'start': ..., 'end': ...}] dicts as pairs; [None] when no
    indicator occurs. *)
Definition _find_pattern_location (content : string) (pattern : Pattern)
    : option (Py.dict (list (nat * nat))) :=
  let locations :=
    fold_left (fun locations indicator =>
                 match finditer indicator content with
                 | [] => locations
                 | matches => Py.setitem locations indicator matches
                 end)
      (indicators pattern) [] in
  match locations with
  | [] => None
  | _ => Some locations
  end.

(** A [PatternMatch] built by [find_patterns]: the pattern and its
    confidence, the context dict and the location. *)
Record FoundMatch := mkFoundMatch {
  found : PatternMatch;
  context : Py.dict nat * Q;  (* indicator_counts, frequency_factor *)
  location : option (Py.dict (list (nat * nat)))
}.

(** [sorted(matches, key=lambda m: m.confidence, reverse=True)]: a
    stable sort, by decreasing confidence. *)
Fixpoint insert_desc (m : FoundMatch) (l : list FoundMatch) : list FoundMatch :=
  match l with
  | [] => [m]
  | x :: l' =>
      if Qle_bool (match_confidence (found m)) (match_confidence (found x))
      then x :: insert_desc m l'
      else m :: x :: l'
  end.

Definition sort_desc (matches : list FoundMatch) : list FoundMatch :=
  fold_left (fun acc m => insert_desc m acc) matches [].

(** The loop of [find_patterns] over [self.library.patterns.values()];
    [None] when [_calculate_pattern_confidence] raises. *)
Fixpoint collect_matches (content : string) (patterns : list Pattern)
    : option (list FoundMatch) :=
  match patterns with
  | [] => Some []
  | pattern :: patterns' =>
      match _calculate_pattern_confidence content pattern with
      | None => None
      | Some pc =>
          let rest := collect_matches content patterns' in
          if negb (Qle_bool (confidence pc) (1 # 2)) then
            match rest with
            | Some ms =>
                Some (mkFoundMatch (mkPatternMatch pattern (confidence pc))
                        (indicator_counts pc, frequency_factor pc)
                        (_find_pattern_location content pattern) :: ms)
            | None => None
            end
          else rest
      end
  end.

(** [PatternMatcher.find_patterns(content)] for the library [patterns]. *)
Definition find_patterns (patterns : Py.dict Pattern) (content : string)
    : option (list FoundMatch) :=
  match collect_matches content (List.map snd patterns) with
  | Some matches => Some (sort_desc matches)
  | None => None
  end.

(** [PatternAnalyzer._calculate_pattern_coverage(matches)] *)
Definition _calculate_pattern_coverage (matches : list PatternMatch) : Q :=
  match matches with
  | [] => 0%Q
  | _ =>
      let total_confidence := fold_left Qplus (List.map match_confidence matches) 0%Q in
      (total_confidence / inject_Z (Z.of_nat (length matches)))%Q
  end.

Record Analysis := mkAnalysis {
  analysis_patterns : list (string * Q * (Py.dict nat * Q));  (* name, confidence, context *)
  recommendations : list Recommendation;
  coverage : Q
}.

(** [PatternAnalyzer.analyze_content(content)]; [None] when it raises. *)
Definition analyze_content (patterns : Py.dict Pattern) (content : string) : option Analysis :=
  match find_patterns patterns content with
  | None => None
  | Some matches =>
      let ms := List.map found matches in
      Some (mkAnalysis
              (List.map (fun m => (name (pattern (found m)), match_confidence (found m), context m))
                 matches)
              (_generate_recommendations ms)
              (_calculate_pattern_coverage ms))
  end.

(** Auxiliary: the confidence [_calculate_pattern_confidence] gives a
    pattern ([0] when it raises), and whether [find_patterns] keeps it
    ([confidence > 0.5]). *)
Definition pattern_confidence (content : string) (pattern : Pattern) : Q :=
  match _calculate_pattern_confidence content pattern with
  | Some pc => confidence pc
  | None => 0%Q
  end.

Definition above_threshold (content : string) (pattern : Pattern) : bool :=
  match _calculate_pattern_confidence content pattern with
  | Some pc => negb (Qle_bool (confidence pc) (1 # 2))
  | None => false
  end.

End PatternSearch.

(** ** [core/global/infrastructure_manager.py]: [route_request] and
    [get_server_stats]. *)
Module InfraRoute.
Import Infra.

Definition region_eqb (a b : RegionType) : bool :=
  match a, b with
  | AMERICAS, AMERICAS | EMEA, EMEA | APAC, APAC | GLOBAL, GLOBAL => true
  | _, _ => false
  end.

(** The value of a [RegionType] member ([str] enum). *)
Definition region_value (r : RegionType) : string :=
  match r with
  | AMERICAS => "americas"
  | EMEA => "emea"
  | APAC => "apac"
  | GLOBAL => "global"
  end.

Inductive ServerType := PRIMARY | SECONDARY | EDGE | CACHE.

Definition server_type_eqb (a b : ServerType) : bool :=
  match a, b with
  | PRIMARY, PRIMARY | SECONDARY, SECONDARY | EDGE, EDGE | CACHE, CACHE => true
  | _, _ => false
  end.

Definition server_type_value (t : ServerType) : string :=
  match t with
  | PRIMARY => "primary"
  | SECONDARY => "secondary"
  | EDGE => "edge"
  | CACHE => "cache"
  end.

(** [ServerProfile] (name, location, capacity and timestamps are left
    out); [services] holds [ServiceType] values. *)
Record ServerProfile := mkServerProfile {
  server_id : string;
  type : ServerType;
  region : RegionType;
  services : list string;
  metrics : Py.dict float;
  status : string
}.

(** [service_type in server.services and server.status == "active"] *)
Definition serves (service_type : string) (server : ServerProfile) : bool :=
  existsb (String.eqb service_type) (services server) && String.eqb (status server) "active".

(** [s.metrics.get("load", 0)] *)
Definition load (server : ServerProfile) : float :=
  match Py.get (metrics server) "load" with
  | Some x => x
  | None => 0%float
  end.

(** [min(servers, key=lambda s: s.metrics.get("load", 0))] on the
    nonempty list [best :: servers]: an item replaces the current one
    when its key is smaller ([<]). *)
Fixpoint min_load (best : ServerProfile) (servers : list ServerProfile) : ServerProfile :=
  match servers with
  | [] => best
  | s :: servers' => min_load (if PrimFloat.ltb (load s) (load best) then s else best) servers'
  end.

(** [NoServer]: the fallback [next(...)] exhausts its generator and
    raises. *)
Inductive RouteResult := Routed (server : ServerProfile) | NoServer.

(** [InfrastructureManager.route_request(client_ip, service_type)] for
    the servers [servers]; [geo] is the outcome of
    [self.geoip_reader.city(client_ip)]: its coordinates, or [None] when
    the lookup raises (or gives no coordinates, so that comparing the
    longitude raises). Every exception in the [try] block, including its
    own [ValueError("No available servers")], leads to the fallback. *)
Definition route_request (servers : Py.dict ServerProfile) (geo : option (Q * Q))
    (service_type : string) : RouteResult :=
  let fallback :=
    match List.find (serves service_type) (map snd servers) with
    | Some server => Routed server
    | None => NoServer
    end in
  match geo with
  | None => fallback
  | Some (latitude, longitude) =>
      let client_region := _get_region_for_location latitude longitude in
      let regional_servers :=
        List.filter (fun s => region_eqb (region s) client_region && serves service_type s)
          (map snd servers) in
      let regional_servers :=
        match regional_servers with
        | [] => List.filter (fun s => region_eqb (region s) GLOBAL && serves service_type s)
                  (map snd servers)
        | _ => regional_servers
        end in
      match regional_servers with
      | [] => fallback
      | s :: rest => Routed (min_load s rest)
      end
  end.

(** [get_server_stats(type, region)]; the [by_*] dicts are built over
    sets, in no fixed order: finite maps from the enum values. *)
Record ServerStats := mkServerStats {
  total : nat;
  by_type : gmap string nat;
  by_region : gmap string nat;
  by_status : gmap string nat
}.

(** [{k: len([s for s in servers if key(s) == k]) for k in {key(s) for s in servers}}] *)
Definition count_by (key : ServerProfile -> string) (servers : list ServerProfile)
    : gmap string nat :=
  list_to_map
    (map (fun k => (k, length (List.filter (fun s => String.eqb (key s) k) servers)))
       (map key servers)).

Definition get_server_stats (servers : Py.dict ServerProfile) (type_arg : option ServerType)
    (region_arg : option RegionType) : ServerStats :=
  let servers := map snd servers in
  let servers :=
    match type_arg with
    | Some t => List.filter (fun s => server_type_eqb (type s) t) servers
    | None => servers
    end in
  let servers :=
    match region_arg with
    | Some r => List.filter (fun s => region_eqb (region s) r) servers
    | None => servers
    end in
  match servers with
  | [] => mkServerStats 0 ∅ ∅ ∅
  | _ => mkServerStats (length servers)
           (count_by (fun s => server_type_value (type s)) servers)
           (count_by (fun s => region_value (region s)) servers)
           (count_by status servers)
  end.

(** Auxiliary: [m] counts [servers] by [key]: a key is present exactly
    when some server has it, with the number of such servers, and the
    counts add up to the number of servers. *)
Definition counts_of (key : ServerProfile -> string) (servers : list ServerProfile)
    (m : gmap string nat) : Prop :=
  (forall k n, m !! k = Some n
               <-> 0 < n /\ n = length (List.filter (fun s => String.eqb (key s) k) servers))
  /\ sum_list (map_to_list m).*2 = length servers.

End InfraRoute.

(* ================================================================== *)
(** * Facts *)
(* ================================================================== *)

(** ** Gate managers *)
Module GateFacts.
Import Gates.

Lemma gate_loop_prefix_ok (pre rest : list (string * Component))
    (res : Py.dict Dict) (log : list Event) :
  Forall step_ok pre ->
  exists res', gate_loop (pre ++ rest) res log
               = gate_loop rest res' (log ++ ok_log pre).
Proof.
  intros Hpre. revert res log.
  induction Hpre as [|[n c] pre [Hv [d Hd]] _ IH]; intros res log; simpl in *.
  - exists res. by rewrite app_nil_r.
  - rewrite Hv, Hd. simpl.
    destruct (IH (Py.setitem res n d) ((log ++ [EvValidate n]) ++ [EvExecute n]))
      as [res' ->].
    exists res'. f_equal. by rewrite <- !app_assoc.
Qed.

Lemma gate0_loop_prefix_ok (pre rest : list (string * Component))
    (res : Py.dict Dict) (log : list Event) :
  Forall step_ok pre ->
  exists res', gate0_loop (pre ++ rest) res log
               = gate0_loop rest res' (log ++ ok_log pre).
Proof.
  intros Hpre. revert res log.
  induction Hpre as [|[n c] pre [Hv [d Hd]] _ IH]; intros res log; simpl in *.
  - exists res. by rewrite app_nil_r.
  - rewrite Hv, Hd. simpl.
    destruct (IH (Py.setitem res n d) ((log ++ [EvValidate n]) ++ [EvExecute n]))
      as [res' ->].
    exists res'. f_equal. by rewrite <- !app_assoc.
Qed.


(** C6: in every gate manager (the unguarded loop of Gate 0 and the
    guarded loop of Gates 1-4), when the steps before a step validate and
    execute and that step's [validate()] reports invalid, [execute_gate]
    returns [GateResult(status='failed', step=<that step>, reason)] and the
    calls made are exactly those of the earlier steps followed by this
    step's [validate()]: no later step's [execute()] is invoked. *)
Theorem gate_validation_failure_stops
    (pre post : list (string * Component)) (n : string) (c : Component) :
  Forall step_ok pre ->
  valid (comp_validate c) = false ->
  gate0_loop (pre ++ (n, c) :: post) [] []
    = (ok_log pre ++ [EvValidate n],
       Returned (failed n (vreason (comp_validate c))))
  /\ gate_loop (pre ++ (n, c) :: post) [] []
    = (ok_log pre ++ [EvValidate n],
       Returned (failed n (vreason (comp_validate c)))).
Proof.
  intros Hpre Hinv. split.
  - destruct (gate0_loop_prefix_ok pre ((n, c) :: post) [] [] Hpre) as [r ->].
    simpl. by rewrite Hinv.
  - destruct (gate_loop_prefix_ok pre ((n, c) :: post) [] [] Hpre) as [r ->].
    simpl. by rewrite Hinv.
Qed.

Lemma gate_validation_failure_stops_witness :
  Forall step_ok [("documentation", default_component)]
  /\ valid (comp_validate (mkComponent (mkValidationResult false (Some "no style guide"))
                                      (ExecOk [])))
     = false
  /\ gate0_loop ([("documentation", default_component)] ++
                 ("style", mkComponent (mkValidationResult false (Some "no style guide"))
                                       (ExecOk [])) ::
                 [("quality", default_component)]) [] []
     = (ok_log [("documentation", default_component)] ++ [EvValidate "style"],
        Returned (failed "style" (Some "no style guide")))
  /\ gate_loop ([("documentation", default_component)] ++
                ("style", mkComponent (mkValidationResult false (Some "no style guide"))
                                      (ExecOk [])) ::
                [("quality", default_component)]) [] []
     = (ok_log [("documentation", default_component)] ++ [EvValidate "style"],
        Returned (failed "style" (Some "no style guide"))).
Proof.
  assert (Hpre : Forall step_ok [("documentation", default_component)]).
  { repeat constructor. eexists. reflexivity. }
  split; [exact Hpre|]. split; [reflexivity|].
  exact (gate_validation_failure_stops _ [("quality", default_component)] "style"
           (mkComponent (mkValidationResult false (Some "no style guide")) (ExecOk []))
           Hpre eq_refl).
Defined.

(** Gates 1-4: an exception raised by a reached step's [execute] is
    caught and turned into a failed [GateResult] naming that step. *)
Lemma gate_loop_catches_execute_error
    (pre post : list (string * Component)) (n msg : string) (c : Component) :
  Forall step_ok pre ->
  valid (comp_validate c) = true ->
  comp_execute c = ExecRaise msg ->
  gate_loop (pre ++ (n, c) :: post) [] []
    = (ok_log pre ++ [EvValidate n; EvExecute n],
       Returned (failed n (Some msg))).
Proof.
  intros Hpre Hv He.
  destruct (gate_loop_prefix_ok pre ((n, c) :: post) [] [] Hpre) as [r ->].
  simpl. rewrite Hv, He. simpl. by rewrite <- app_assoc.
Qed.

(** C1 (code bug): [Gate0Manager.execute_gate] has no [try] around the
    step execution, so an exception of a valid step's [execute] reaches
    the caller instead of becoming a failed [GateResult]; here the
    architecture step raises [RuntimeError("design failed")]. *)
Theorem gate0_execute_error_propagates :
  gate0_execute_gate
    (mkGate0Manager default_component
       (mkComponent (mkValidationResult true None) (ExecRaise "design failed"))
       default_component)
  = ([EvValidate "requirements"; EvExecute "requirements";
      EvValidate "architecture"; EvExecute "architecture"],
     Raised "design failed").
Proof. reflexivity. Qed.

End GateFacts.

(** ** Association-list facts *)
Module PyFacts.

Lemma get_none_iff {V} (d : Py.dict V) (k : string) :
  Py.get d k = None <-> ~ In k (map fst d).
Proof.
  induction d as [|[k' v'] d IH]; simpl.
  - tauto.
  - destruct (String.eqb_spec k' k) as [->|Hne].
    + split; [discriminate|]. intros H. exfalso. apply H. by left.
    + rewrite IH. split.
      * intros H [E|Hin]; [congruence|tauto].
      * intros H Hin. apply H. by right.
Qed.

Lemma setitem_fresh {V} (d : Py.dict V) (k : string) (v : V) :
  ~ In k (map fst d) -> Py.setitem d k v = d ++ [(k, v)].
Proof.
  induction d as [|[k' v'] d IH]; simpl; intros Hn; [done|].
  destruct (String.eqb_spec k k') as [->|Hne].
  - exfalso. apply Hn. by left.
  - f_equal. apply IH. intros H. apply Hn. by right.
Qed.

Lemma length_setitem_le {V} (d : Py.dict V) (k : string) (v : V) :
  length (Py.setitem d k v) <= S (length d).
Proof.
  induction d as [|[k' v'] d IH]; simpl; [lia|].
  destruct (String.eqb k k'); simpl; lia.
Qed.

End PyFacts.

(** ** [CacheManager] *)
Module CacheFacts.
Import Cache.

Example cache_fifo_small :
  option_map (fun st => map fst (cache st))
    (run (init 2%Z) [OpSet "a" 1; OpGet "a"; OpSet "b" 2; OpGet "a"; OpSet "c" 3])
  = Some ["b"; "c"].
Proof. reflexivity. Qed.

Lemma delitem_head {V} (k : string) (v : V) (d : Py.dict V) :
  delitem ((k, v) :: d) k = d.
Proof. simpl. by rewrite String.eqb_refl. Qed.

Lemma lastn_length {A} (n : nat) (l : list A) :
  length (lastn n l) = Nat.min n (length l).
Proof. unfold lastn. rewrite length_skipn. lia. Qed.

Lemma lastn_all {A} (n : nat) (l : list A) :
  length l <= n -> lastn n l = l.
Proof. intros H. unfold lastn. by replace (length l - n) with 0 by lia. Qed.

Lemma tl_skipn {A} (m : nat) (l : list A) : tl (skipn m l) = skipn (S m) l.
Proof.
  revert m. induction l as [|a l IH]; intros [|m]; simpl; auto.
Qed.

Lemma lastn_snoc_full {A} (n : nat) (l : list A) (x : A) :
  1 <= n -> n <= length l -> lastn n (l ++ [x]) = tl (lastn n l) ++ [x].
Proof.
  intros H1 H2. unfold lastn. rewrite length_app. simpl.
  replace (length l + 1 - n) with (S (length l - n)) by lia.
  rewrite skipn_app. replace (S (length l - n) - length l) with 0 by lia.
  simpl. f_equal. symmetry. apply tl_skipn.
Qed.

Lemma in_lastn {A} (n : nat) (l : list A) (x : A) :
  In x (lastn n l) -> In x l.
Proof.
  unfold lastn. generalize (length l - n) as m. intros m.
  revert m. induction l as [|a l IH]; intros [|m]; simpl; auto.
  intros H. right. eauto.
Qed.

(** The cache keys are the last [max_size] distinct keys set so far. *)
Lemma run_keys_lastn {V} (ops : list (Op V)) (st : CacheManager V)
    (K : list string) (N : nat) :
  1 <= N ->
  max_size st = Z.of_nat N ->
  map fst (cache st) = lastn N K ->
  no_clear ops ->
  NoDup (K ++ set_keys ops) ->
  exists st', run st ops = Some st'
    /\ max_size st' = Z.of_nat N
    /\ map fst (cache st') = lastn N (K ++ set_keys ops).
Proof.
  revert st K. induction ops as [|op ops IH]; intros st K HN Hmax Hkeys Hnc Hnd.
  - exists st. simpl. by rewrite app_nil_r.
  - inversion Hnc as [|? ? Hop Hnc']; subst.
    destruct op as [k|k v|]; simpl in *; [| |contradiction].
    + unfold get. destruct (Py.get (cache st) k); simpl;
        apply IH; auto.
    + assert (Hk : ~ In k K).
      { intros Hin. apply NoDup_app in Hnd as (_ & Hd & _).
        apply (Hd k); [by apply list_elem_of_In|]. left. }
      assert (HkC : ~ In k (map fst (cache st))).
      { rewrite Hkeys. intros Hin. exact (Hk (in_lastn _ _ _ Hin)). }
      assert (Hlen : length (cache st) = Nat.min N (length K)).
      { rewrite <- (length_map fst), Hkeys. apply lastn_length. }
      unfold set. rewrite Hmax.
      destruct (Nat.le_gt_cases N (length K)) as [Hfull|Hroom].
      * rewrite (proj2 (Z.geb_le _ _)) by lia.
        destruct (cache st) as [|[k0 v0] c'] eqn:Ec; [simpl in Hlen; lia|].
        rewrite delitem_head.
        destruct (IH (mkCacheManager (Py.setitem c' k v) (Z.of_nat N) (hits st) (misses st))
                     (K ++ [k])) as (st' & Hrun & Hm & Hk').
        -- exact HN.
        -- reflexivity.
        -- simpl in Hkeys |- *. rewrite PyFacts.setitem_fresh.
           ++ rewrite map_app, lastn_snoc_full by lia. simpl.
              by rewrite <- Hkeys.
           ++ intros Hin. apply HkC. by right.
        -- exact Hnc'.
        -- by rewrite <- app_assoc.
        -- exists st'. rewrite Hrun. split; [done|]. split; [done|].
           by rewrite Hk', <- app_assoc.
      * rewrite Z.geb_leb, (proj2 (Z.leb_gt _ _)) by lia.
        destruct (IH (mkCacheManager (Py.setitem (cache st) k v) (Z.of_nat N)
                        (hits st) (misses st)) (K ++ [k]))
          as (st' & Hrun & Hm & Hk').
        -- exact HN.
        -- reflexivity.
        -- simpl. rewrite PyFacts.setitem_fresh by exact HkC.
           rewrite map_app, Hkeys, !lastn_all; [done| |];
             rewrite ?length_app; simpl; lia.
        -- exact Hnc'.
        -- by rewrite <- app_assoc.
        -- exists st'. rewrite Hrun. split; [done|]. split; [done|].
           by rewrite Hk', <- app_assoc.
Qed.


Lemma present_get {V} (d : Py.dict V) (k : string) :
  In k (map fst d) -> exists v, Py.get d k = Some v.
Proof.
  intros Hin. destruct (Py.get d k) as [v|] eqn:E; [by exists v|].
  apply PyFacts.get_none_iff in E. contradiction.
Qed.

(** C2: with [max_size = N >= 1], setting [N + 1] distinct keys, with
    any reads in between, leaves exactly those keys but the first one
    (FIFO eviction); a read of a present key increments [hits] and returns
    its value, a read of an absent key increments [misses] and returns
    [None]. *)
Theorem cache_fifo_eviction_and_counters {V} (N : nat) (ops : list (Op V)) :
  1 <= N ->
  no_clear ops ->
  NoDup (set_keys ops) ->
  length (set_keys ops) = S N ->
  (exists st, run (init (Z.of_nat N)) ops = Some st
              /\ map fst (cache st) = tl (set_keys ops))
  /\ (forall (st : CacheManager V) (key : string),
        In key (map fst (cache st)) ->
        exists v, Py.get (cache st) key = Some v
          /\ get st key
             = (mkCacheManager (cache st) (max_size st) (S (hits st)) (misses st), Some v))
  /\ (forall (st : CacheManager V) (key : string),
        ~ In key (map fst (cache st)) ->
        get st key
        = (mkCacheManager (cache st) (max_size st) (hits st) (S (misses st)), None)).
Proof.
  intros HN Hnc Hnd Hlen. split; [|split].
  - destruct (run_keys_lastn ops (init (Z.of_nat N)) [] N HN eq_refl eq_refl Hnc Hnd)
      as (st & Hrun & _ & Hk).
    exists st. split; [done|]. rewrite Hk. simpl. unfold lastn. rewrite Hlen.
    replace (S N - N) with 1 by lia.
    destruct (set_keys ops); reflexivity.
  - intros st key Hin. destruct (present_get _ _ Hin) as [v Hv].
    exists v. split; [done|]. unfold get. by rewrite Hv.
  - intros st key Hn. unfold get.
    by rewrite (proj2 (PyFacts.get_none_iff _ _) Hn).
Qed.

Lemma cache_fifo_eviction_and_counters_witness :
  1 <= 2 /\ no_clear [OpSet "a" 1; OpGet "a"; OpSet "b" 2; OpGet "a"; OpSet "c" 3]
  /\ NoDup (set_keys [OpSet "a" 1; OpGet "a"; OpSet "b" 2; OpGet "a"; OpSet "c" 3])
  /\ length (set_keys [OpSet "a" 1; OpGet "a"; OpSet "b" 2; OpGet "a"; OpSet "c" 3]) = 3
  /\ exists st, run (init (Z.of_nat 2))
                    [OpSet "a" 1; OpGet "a"; OpSet "b" 2; OpGet "a"; OpSet "c" 3] = Some st
                /\ map fst (cache st) = ["b"; "c"].
Proof.
  assert (H1 : 1 <= 2) by lia.
  assert (Hnc : no_clear [OpSet "a" 1; OpGet "a"; OpSet "b" 2; OpGet "a"; OpSet "c" 3]).
  { repeat constructor. }
  assert (Hnd : NoDup (set_keys [OpSet "a" 1; OpGet "a"; OpSet "b" 2; OpGet "a"; OpSet "c" 3])).
  { simpl. apply (bool_decide_unpack _). vm_compute. reflexivity. }
  assert (Hl : length (set_keys [OpSet "a" 1; OpGet "a"; OpSet "b" 2; OpGet "a"; OpSet "c" 3]) = 3).
  { reflexivity. }
  split; [exact H1|]. split; [exact Hnc|]. split; [exact Hnd|]. split; [exact Hl|].
  exact (proj1 (cache_fifo_eviction_and_counters 2 _ H1 Hnc Hnd Hl)).
Defined.

Lemma get_preserves {V} (st : CacheManager V) (k : string) :
  cache (get st k).1 = cache st /\ max_size (get st k).1 = max_size st.
Proof. unfold get. by destruct (Py.get (cache st) k). Qed.

Lemma run_size_bound {V} (ops : list (Op V)) (st : CacheManager V) :
  (1 <= max_size st)%Z ->
  (Z.of_nat (length (cache st)) <= max_size st)%Z ->
  exists st', run st ops = Some st' /\ max_size st' = max_size st
              /\ (Z.of_nat (length (cache st')) <= max_size st')%Z.
Proof.
  revert st. induction ops as [|op ops IH]; intros st H1 Hb.
  - by exists st.
  - destruct op as [k|k v|]; simpl.
    + destruct (get_preserves st k) as [Hc Hm0].
      destruct (IH (get st k).1) as (st' & Hr & Hm & Hb');
        [rewrite Hm0; exact H1|rewrite Hc, Hm0; exact Hb|].
      exists st'. split; [done|]. split; [by rewrite Hm, Hm0|done].
    + unfold set.
      destruct (Z.of_nat (length (cache st)) >=? max_size st)%Z eqn:E.
      * apply Z.geb_le in E.
        destruct (cache st) as [|[k0 v0] c'] eqn:Ec; [simpl in *; lia|].
        rewrite delitem_head.
        destruct (IH (mkCacheManager (Py.setitem c' k v) (max_size st) (hits st) (misses st)))
          as (st' & Hr & Hm & Hb'); simpl; auto.
        -- pose proof (PyFacts.length_setitem_le c' k v). simpl in Hb. lia.
        -- exists st'. auto.
      * rewrite Z.geb_leb, Z.leb_gt in E.
        destruct (IH (mkCacheManager (Py.setitem (cache st) k v) (max_size st)
                        (hits st) (misses st)))
          as (st' & Hr & Hm & Hb'); simpl; auto.
        -- pose proof (PyFacts.length_setitem_le (cache st) k v). lia.
        -- exists st'. auto.
    + destruct (IH (clear st)) as (st' & Hr & Hm & Hb'); simpl; auto; try lia.
      exists st'. auto.
Qed.

(** C10: from a fresh cache with [max_size >= 1], any sequence of [get],
    [set] and [clear] keeps at most [max_size] entries; [set] on a full
    cache first deletes the insertion-order-first entry, also when the key
    being set is present; when that entry is the key being set, it is
    re-inserted last. *)
Theorem cache_size_bound_and_full_set {V : Type} :
  (forall (ops : list (Op V)) (N : Z), (1 <= N)%Z ->
     exists st, run (init N) ops = Some st
                /\ (Z.of_nat (length (cache st)) <= N)%Z)
  /\ (forall (st : CacheManager V) (k : string) (v : V),
        (1 <= max_size st)%Z ->
        Z.of_nat (length (cache st)) = max_size st ->
        set st k v
        = Some (mkCacheManager (Py.setitem (tl (cache st)) k v)
                               (max_size st) (hits st) (misses st)))
  /\ (forall (st : CacheManager V) (k : string) (v0 v : V) (rest : Py.dict V),
        cache st = (k, v0) :: rest ->
        ~ In k (map fst rest) ->
        Z.of_nat (length (cache st)) = max_size st ->
        exists st', set st k v = Some st' /\ cache st' = rest ++ [(k, v)]).
Proof.
  split; [|split].
  - intros ops N HN.
    destruct (run_size_bound ops (init N)) as (st & Hr & Hm & Hb); simpl; try lia.
    exists st. split; [done|]. simpl in Hm. by rewrite <- Hm.
  - intros st k v H1 Hfull. unfold set.
    rewrite Hfull, Z.geb_leb, Z.leb_refl.
    destruct (cache st) as [|[k0 v0] c'] eqn:Ec; [simpl in Hfull; lia|].
    by rewrite delitem_head.
  - intros st k v0 v rest Ec Hn Hfull. unfold set.
    rewrite Hfull, Z.geb_leb, Z.leb_refl, Ec, delitem_head.
    eexists. split; [reflexivity|]. simpl. by apply PyFacts.setitem_fresh.
Qed.

Lemma cache_size_bound_and_full_set_witness :
  (exists st, run (init 1%Z) [OpSet "a" 1; OpSet "b" 2; OpGet "b"; OpClear; OpSet "c" 3] = Some st
              /\ (Z.of_nat (length (cache st)) <= 1)%Z)
  /\ set (mkCacheManager [("a", 1); ("b", 2)] 2%Z 0 0) "b" 5
     = Some (mkCacheManager [("b", 5)] 2%Z 0 0)
  /\ exists st', set (mkCacheManager [("a", 1); ("b", 2)] 2%Z 0 0) "a" 7 = Some st'
                 /\ cache st' = [("b", 2); ("a", 7)].
Proof.
  destruct (@cache_size_bound_and_full_set nat) as (Hb & Hf & Hr).
  split; [apply Hb; lia|]. split.
  - exact (Hf (mkCacheManager [("a", 1); ("b", 2)] 2%Z 0 0) "b" 5 ltac:(simpl; lia) eq_refl).
  - exact (Hr (mkCacheManager [("a", 1); ("b", 2)] 2%Z 0 0) "a" 1 7 [("b", 2)] eq_refl
             ltac:(simpl; intuition congruence) eq_refl).
Defined.

End CacheFacts.

(** ** [QualityChecker] *)
Module QualityFacts.
Import Quality.
Open Scope float_scope.

(** C3: for every content string, [check_quality] returns as
    [overall_score] the weighted average [(0.85*0.4 + 0.90*0.3 +
    0.95*0.3) / (0.4 + 0.3 + 0.3)] computed in Python's float order,
    which is the double [0.895]; [passed] is [overall_score >= 0.8] and no
    critical issue, which holds. *)
Theorem check_quality_weighted_average (content : string) :
  exists r, check_quality content = Some r
    /\ overall_score r
       = (((0 + 0.85 * 0.4) + 0.90 * 0.3) + 0.95 * 0.3) / (((0 + 0.4) + 0.3) + 0.3)
    /\ overall_score r = 0.895
    /\ passed r = PrimFloat.leb 0.8 (overall_score r)
                  && negb (existsb (fun i => String.eqb (severity i) "critical") (issues r))
    /\ passed r = true.
Proof.
  eexists. split; [reflexivity|]. split; [|split; [|split]]; reflexivity.
Qed.

Close Scope float_scope.
End QualityFacts.

(** ** Region classification *)
Module InfraFacts.
Import Infra.

Lemma Qltb_iff (x y : Q) : Qltb x y = true <-> (x < y)%Q.
Proof.
  unfold Qltb. rewrite negb_true_iff.
  split; intros H.
  - apply Qnot_le_lt. intros Hle. apply Qle_bool_iff in Hle. congruence.
  - destruct (Qle_bool y x) eqn:E; [|reflexivity].
    apply Qle_bool_iff in E. exfalso. apply (Qlt_not_le x y); assumption.
Qed.

(** C7: the region is [americas] exactly for longitudes in [[-165, -30]],
    [emea] exactly for [(-30, 60]], [apac] otherwise; e.g. -100, 0 and 120
    give americas, emea and apac, and both -165 and -30 give americas. *)
Theorem region_for_location_bands (latitude longitude : Q) :
  (_get_region_for_location latitude longitude = AMERICAS
     <-> (-165 <= longitude /\ longitude <= -30)%Q)
  /\ (_get_region_for_location latitude longitude = EMEA
     <-> (-30 < longitude /\ longitude <= 60)%Q)
  /\ (_get_region_for_location latitude longitude = APAC
     <-> ~ (-165 <= longitude /\ longitude <= -30)%Q
         /\ ~ (-30 < longitude /\ longitude <= 60)%Q)
  /\ _get_region_for_location latitude (-100) = AMERICAS
  /\ _get_region_for_location latitude 0 = EMEA
  /\ _get_region_for_location latitude 120 = APAC
  /\ _get_region_for_location latitude (-165) = AMERICAS
  /\ _get_region_for_location latitude (-30) = AMERICAS.
Proof.
  unfold _get_region_for_location.
  assert (HA : Qle_bool (-165) longitude && Qle_bool longitude (-30) = true
               <-> (-165 <= longitude /\ longitude <= -30)%Q).
  { rewrite andb_true_iff, !Qle_bool_iff. tauto. }
  assert (HE : Qltb (-30) longitude && Qle_bool longitude 60 = true
               <-> (-30 < longitude /\ longitude <= 60)%Q).
  { rewrite andb_true_iff, Qltb_iff, Qle_bool_iff. tauto. }
  split; [|split; [|split]]; try (repeat split; reflexivity).
  - destruct (Qle_bool (-165) longitude && Qle_bool longitude (-30)) eqn:EA.
    + split; [intros _; by apply HA|reflexivity].
    + split; [|intros H; apply HA in H; congruence].
      destruct (Qltb (-30) longitude && Qle_bool longitude 60); (intros Hd; discriminate Hd).
  - destruct (Qle_bool (-165) longitude && Qle_bool longitude (-30)) eqn:EA.
    + split; [(intros Hd; discriminate Hd)|]. intros [H1 H2].
      assert (Hx : (-165 <= longitude /\ longitude <= -30)%Q) by (by apply HA).
      destruct Hx as [_ H3]. exfalso. apply (Qlt_not_le _ _ H1 H3).
    + destruct (Qltb (-30) longitude && Qle_bool longitude 60) eqn:EE.
      * split; [intros _; by apply HE|reflexivity].
      * split; [(intros Hd; discriminate Hd)|]. intros H. apply HE in H. congruence.
  - destruct (Qle_bool (-165) longitude && Qle_bool longitude (-30)) eqn:EA.
    + split; [(intros Hd; discriminate Hd)|]. intros [H _]. exfalso. apply H. by apply HA.
    + destruct (Qltb (-30) longitude && Qle_bool longitude 60) eqn:EE.
      * split; [(intros Hd; discriminate Hd)|]. intros [_ H]. exfalso. apply H. by apply HE.
      * split; [intros _|reflexivity]. split.
        -- intros H. apply HA in H. congruence.
        -- intros H. apply HE in H. congruence.
Qed.

End InfraFacts.

(** ** Session locks *)
Module CollabFacts.
Import Collab.

Lemma release_lock_lookup (s : Session) (u a f : string) :
  locks (release_lock s u a).1 !! f
  = match locks s !! f with
    | Some h => if String.eqb h u && String.eqb f a then None else Some h
    | None => None
    end.
Proof.
  unfold release_lock.
  destruct (String.eqb_spec f a) as [->|Hne].
  - destruct (locks s !! a) as [h|] eqn:E; cbn -[String.eqb]; [|by rewrite E].
    rewrite andb_true_r.
    destruct (String.eqb h u) eqn:Ehu; cbn -[String.eqb].
    + apply lookup_delete_eq.
    + by rewrite E.
  - assert (Hf : locks (release_lock s u a).1 !! f = locks s !! f).
    { unfold release_lock. destruct (locks s !! a) as [h|]; [|done].
      destruct (String.eqb h u); simpl; [|done].
      apply lookup_delete_ne. congruence. }
    unfold release_lock in Hf. rewrite Hf.
    destruct (locks s !! f); [|done].
    by rewrite andb_false_r.
Qed.

Lemma release_fold_lookup (L : list string) (s : Session) (u f : string) :
  locks (fold_left (fun s file_path => (release_lock s u file_path).1) L s) !! f
  = match locks s !! f with
    | Some h => if String.eqb h u && existsb (String.eqb f) L then None else Some h
    | None => None
    end.
Proof.
  revert s. induction L as [|a L IH]; intros s; simpl.
  - destruct (locks s !! f); [by rewrite andb_false_r|done].
  - rewrite IH, release_lock_lookup.
    destruct (locks s !! f) as [h|]; [|done].
    destruct (String.eqb h u) eqn:Ehu, (String.eqb f a); cbn -[String.eqb existsb];
      rewrite ?Ehu; destruct (existsb (String.eqb f) L); reflexivity.
Qed.

Lemma locked_files_spec (m : gmap string string) (u f : string) :
  existsb (String.eqb f)
    (List.map fst (List.filter (fun p => String.eqb p.2 u) (map_to_list m))) = true
  <-> m !! f = Some u.
Proof.
  rewrite existsb_exists. split.
  - intros (f' & Hin & Hf). apply String.eqb_eq in Hf. subst f'.
    apply in_map_iff in Hin as ([f' h] & Hf & Hin). simpl in Hf. subst f'.
    apply filter_In in Hin as [Hin Hh]. simpl in Hh. apply String.eqb_eq in Hh. subst h.
    apply elem_of_map_to_list. by apply list_elem_of_In.
  - intros Hm. exists f. split; [|apply String.eqb_refl].
    apply in_map_iff. exists (f, u). split; [done|].
    apply filter_In. split; [|apply String.eqb_refl].
    apply list_elem_of_In. by apply elem_of_map_to_list.
Qed.


(** C9 as stated fails: a user who already holds the lock on a file and
    asks for it again gets [False], although nobody else holds it. *)
Lemma acquire_lock_own_lock_refused :
  ~ (forall (s : Session) (user_id file_path : string),
       (acquire_lock s user_id file_path).2 = false
       <-> exists holder, locks s !! file_path = Some holder /\ holder <> user_id).
Proof.
  intros H.
  pose (s0 := mkSession "s1" (<["alice" := mkUser "alice" "Alice" "editor" true 0%Z]> ∅)
                        {[ "doc.md" := "alice" ]} : Session).
  assert (Ha : (acquire_lock s0 "alice" "doc.md").2 = false)
    by (vm_compute; reflexivity).
  apply H in Ha as (holder & Hl & Hne).
  vm_compute in Hl. injection Hl as <-. by apply Hne.
Qed.

(** C9 amended: [acquire_lock] fails (returns [False], session unchanged)
    exactly when the file is already locked by anyone, the requester
    included; otherwise it records the requester as holder. [remove_user]
    of a user in the session releases exactly that user's locks; for a
    user not in the session it changes nothing. *)
Theorem session_lock_discipline :
  (forall (s : Session) (user_id file_path : string),
     (acquire_lock s user_id file_path).2 = false
     <-> is_Some (locks s !! file_path))
  /\ (forall (s : Session) (user_id file_path : string),
        (acquire_lock s user_id file_path).2 = false ->
        (acquire_lock s user_id file_path).1 = s)
  /\ (forall (s : Session) (user_id file_path : string),
        locks s !! file_path = None ->
        locks (acquire_lock s user_id file_path).1 = <[file_path := user_id]> (locks s))
  /\ (forall (s : Session) (user_id file_path : string),
        is_Some (users s !! user_id) ->
        locks (remove_user s user_id) !! file_path
        = match locks s !! file_path with
          | Some holder => if String.eqb holder user_id then None else Some holder
          | None => None
          end)
  /\ (forall (s : Session) (user_id : string),
        users s !! user_id = None -> remove_user s user_id = s).
Proof.
  split; [|split; [|split; [|split]]].
  - intros s u f. unfold acquire_lock.
    destruct (locks s !! f); simpl; split; intros H; try done; by destruct H.
  - intros s u f. unfold acquire_lock. by destruct (locks s !! f).
  - intros s u f Hn. unfold acquire_lock. by rewrite Hn.
  - intros s u f [x Hx]. unfold remove_user. rewrite Hx.
    unfold _release_user_locks. rewrite release_fold_lookup. simpl.
    destruct (locks s !! f) as [h|] eqn:Ef; [|done].
    destruct (String.eqb_spec h u) as [->|Hne]; simpl.
    + by rewrite (proj2 (locked_files_spec (locks s) u f) Ef).
    + done.
  - intros s u Hn. unfold remove_user. by rewrite Hn.
Qed.

Lemma session_lock_discipline_witness :
  is_Some (users (mkSession "s1" (<["alice" := mkUser "alice" "Alice" "editor" true 0%Z]> ∅)
                     (<["b.md" := "bob"]> {[ "doc.md" := "alice" ]})) !! "alice")
  /\ locks (remove_user (mkSession "s1" (<["alice" := mkUser "alice" "Alice" "editor" true 0%Z]> ∅)
                           (<["b.md" := "bob"]> {[ "doc.md" := "alice" ]})) "alice") !! "doc.md"
     = None
  /\ locks (remove_user (mkSession "s1" (<["alice" := mkUser "alice" "Alice" "editor" true 0%Z]> ∅)
                           (<["b.md" := "bob"]> {[ "doc.md" := "alice" ]})) "alice") !! "b.md"
     = Some "bob".
Proof.
  destruct session_lock_discipline as (_ & _ & _ & Hrm & _).
  assert (Hu : is_Some (users (mkSession "s1" (<["alice" := mkUser "alice" "Alice" "editor" true 0%Z]> ∅)
                     (<["b.md" := "bob"]> {[ "doc.md" := "alice" ]})) !! "alice"))
    by (vm_compute; eexists; reflexivity).
  split; [exact Hu|]. split.
  - rewrite (Hrm _ "alice" "doc.md" Hu). vm_compute. reflexivity.
  - rewrite (Hrm _ "alice" "b.md" Hu). vm_compute. reflexivity.
Defined.

End CollabFacts.

(** ** [TestRunner.run_test] *)
Module TestingFacts.
Import Testing.
Open Scope string_scope.

(** The runner of the examples: [A] has no dependency, [B] depends on
    [A], both with a 30 s timeout; nothing has run yet. *)
Lemma run_test_before_dependency_example :
  run_test
    (register_test
       (register_test (mkTestRunner [] ∅ (StatsOk []) [])
          (mkTestCase "A" "A test" "unit" FnReturns [] 30%float))
       (mkTestCase "B" "B test" "unit" FnReturns ["A"] 30%float)) "B"
  = Ret (mkTestRunner
           [("A", mkTestCase "A" "A test" "unit" FnReturns [] 30%float);
            ("B", mkTestCase "B" "B test" "unit" FnReturns ["A"] 30%float)]
           (<["B" := mkTestResult "B" "failed" (Some "Dependency A not executed") None]> ∅)
           (StatsOk []) [],
         mkTestResult "B" "failed" (Some "Dependency A not executed") None).
Proof. vm_compute. reflexivity. Qed.

(** C5 as stated fails: running [B] before its dependency [A] does not
    raise to the caller; [run_test] returns a failed result. *)
Lemma run_test_unmet_dependency_does_not_raise :
  match run_test
          (register_test
             (register_test (mkTestRunner [] ∅ (StatsOk []) [])
                (mkTestCase "A" "A test" "unit" FnReturns [] 30%float))
             (mkTestCase "B" "B test" "unit" FnReturns ["A"] 30%float)) "B" with
  | Exc _ => False
  | Ret (r', res) =>
      status res = "failed" /\ error res = Some "Dependency A not executed"
      /\ called r' = []
  end.
Proof. vm_compute. repeat split. Qed.

Lemma check_dependencies_unmet (rs : gmap string TestResult) (deps : list string)
    (A : string) :
  In A deps ->
  (forall res, rs !! A = Some res -> status res <> "passed") ->
  exists msg, check_dependencies rs deps = Some msg.
Proof.
  intros Hin Hnp. induction deps as [|d deps IH]; simpl; [contradiction|].
  destruct Hin as [->|Hin].
  - destruct (rs !! A) as [res|] eqn:E; [|by eexists].
    destruct (String.eqb_spec (status res) "passed") as [Hp|]; [|by eexists].
    exfalso. exact (Hnp res eq_refl Hp).
  - destruct (rs !! d) as [res|]; [|by eexists].
    destruct (String.eqb (status res) "passed"); [by apply IH|by eexists].
Qed.

Lemma check_dependencies_met (rs : gmap string TestResult) (deps : list string) :
  Forall (fun A => exists res, rs !! A = Some res /\ status res = "passed") deps ->
  check_dependencies rs deps = None.
Proof.
  induction 1 as [|d deps [res [Hr Hs]] _ IH]; simpl; [done|].
  rewrite Hr, Hs. exact IH.
Qed.


(** C5 amended: for a registered test [B] declaring a dependency [A],
    running [B] does not raise.  With [B.timeout <= 0], [asyncio.wait_for]
    cancels the execution before it starts: [run_test] records and
    returns a [timeout] result for [B], without checking dependencies or
    invoking [B]'s function.  Otherwise, running [B] while [A] is not
    recorded as passed records and returns a failed result for [B]
    carrying the dependency error message, without invoking [B]'s
    function; once every dependency of [B] is recorded as passed,
    [run_test] invokes [B]'s function and records a result for [B], which
    is [passed] when the function returns in time and the coverage
    statistics are obtained. *)
Theorem run_test_dependency_gate (r : TestRunner) (B A : string) (tb : TestCase) :
  Py.get (tests r) B = Some tb ->
  In A (dependencies tb) ->
  (PrimFloat.leb (tc_timeout tb) 0%float = true ->
     run_test r B
     = Ret (mkTestRunner (tests r)
              (<[B := mkTestResult B "timeout" (Some "Test execution timed out") None]> (results r))
              (coverage_stats r) (called r),
            mkTestResult B "timeout" (Some "Test execution timed out") None))
  /\ (PrimFloat.leb (tc_timeout tb) 0%float = false ->
      ((forall res, results r !! A = Some res -> status res <> "passed") ->
         exists msg,
           run_test r B
           = Ret (mkTestRunner (tests r)
                    (<[B := mkTestResult B "failed" (Some msg) None]> (results r))
                    (coverage_stats r) (called r),
                  mkTestResult B "failed" (Some msg) None))
      /\ (Forall (fun A => exists res, results r !! A = Some res /\ status res = "passed")
                 (dependencies tb) ->
          exists r' res,
            run_test r B = Ret (r', res)
            /\ called r' = (called r ++ [tc_id tb])%list
            /\ results r' !! B = Some res
            /\ (function tb = FnReturns ->
                forall stats, coverage_stats r = StatsOk stats -> status res = "passed"))).
Proof.
  intros Hb HA. unfold run_test, wait_for_execute. rewrite Hb. split.
  - intros Ht. by rewrite Ht.
  - intros Ht. rewrite Ht. split.
    + intros Hnp.
      destruct (check_dependencies_unmet (results r) (dependencies tb) A HA Hnp) as [msg Hm].
      exists msg. unfold _execute_test. by rewrite Hm.
    + intros Hall. unfold _execute_test.
      rewrite (check_dependencies_met _ _ Hall).
      destruct (function tb) as [|m|] eqn:Ef; simpl;
        (eexists; eexists; split; [reflexivity|]; simpl;
         split; [reflexivity|]; split; [apply lookup_insert_eq|]);
        intros Hf stats Hs; try discriminate.
      by rewrite Hs.
Qed.

Lemma run_test_dependency_gate_witness :
  Py.get (tests (register_test (register_test (mkTestRunner [] ∅ (StatsOk []) [])
                                 (mkTestCase "A" "A test" "unit" FnReturns [] 30%float))
                              (mkTestCase "B" "B test" "unit" FnReturns ["A"] 30%float))) "B"
    = Some (mkTestCase "B" "B test" "unit" FnReturns ["A"] 30%float)
  /\ In "A" ["A"]
  /\ PrimFloat.leb 30%float 0%float = false
  /\ (exists msg,
       run_test (register_test (register_test (mkTestRunner [] ∅ (StatsOk []) [])
                                 (mkTestCase "A" "A test" "unit" FnReturns [] 30%float))
                              (mkTestCase "B" "B test" "unit" FnReturns ["A"] 30%float)) "B"
       = Ret (mkTestRunner
                (tests (register_test (register_test (mkTestRunner [] ∅ (StatsOk []) [])
                                         (mkTestCase "A" "A test" "unit" FnReturns [] 30%float))
                                      (mkTestCase "B" "B test" "unit" FnReturns ["A"] 30%float)))
                (<["B" := mkTestResult "B" "failed" (Some msg) None]> ∅)
                (StatsOk []) [],
              mkTestResult "B" "failed" (Some msg) None))
  /\ run_test (register_test (register_test (mkTestRunner [] ∅ (StatsOk []) [])
                               (mkTestCase "A" "A test" "unit" FnReturns [] 30%float))
                            (mkTestCase "B" "B test" "unit" FnReturns ["A"] 0%float)) "B"
     = Ret (mkTestRunner
              (tests (register_test (register_test (mkTestRunner [] ∅ (StatsOk []) [])
                                       (mkTestCase "A" "A test" "unit" FnReturns [] 30%float))
                                    (mkTestCase "B" "B test" "unit" FnReturns ["A"] 0%float)))
              (<["B" := mkTestResult "B" "timeout" (Some "Test execution timed out") None]> ∅)
              (StatsOk []) [],
            mkTestResult "B" "timeout" (Some "Test execution timed out") None).
Proof.
  assert (Hb : Py.get (tests (register_test (register_test (mkTestRunner [] ∅ (StatsOk []) [])
                                 (mkTestCase "A" "A test" "unit" FnReturns [] 30%float))
                              (mkTestCase "B" "B test" "unit" FnReturns ["A"] 30%float))) "B"
               = Some (mkTestCase "B" "B test" "unit" FnReturns ["A"] 30%float))
    by (vm_compute; reflexivity).
  assert (Hb0 : Py.get (tests (register_test (register_test (mkTestRunner [] ∅ (StatsOk []) [])
                                 (mkTestCase "A" "A test" "unit" FnReturns [] 30%float))
                              (mkTestCase "B" "B test" "unit" FnReturns ["A"] 0%float))) "B"
               = Some (mkTestCase "B" "B test" "unit" FnReturns ["A"] 0%float))
    by (vm_compute; reflexivity).
  assert (HA : In "A" ["A"]) by (left; reflexivity).
  assert (Ht : PrimFloat.leb 30%float 0%float = false) by (vm_compute; reflexivity).
  split; [exact Hb|]. split; [exact HA|]. split; [exact Ht|]. split.
  - apply (proj1 (proj2 (run_test_dependency_gate _ "B" "A" _ Hb HA) Ht)).
    intros res Hres. vm_compute in Hres. discriminate.
  - apply (proj1 (run_test_dependency_gate _ "B" "A" _ Hb0 HA)). vm_compute. reflexivity.
Defined.

Close Scope string_scope.
End TestingFacts.

(** ** Pattern recognition *)
Module PatternFacts.
Import Patterns.

Example count_slashes : count "GET" "GET/GET/GET" = 3.
Proof. reflexivity. Qed.
Example count_case : count "get" "A GET request; get_x; Get." = 2.
Proof. reflexivity. Qed.
Example split_len_small : split_len "  GET /a  POST " = 3.
Proof. reflexivity. Qed.

(** C8 (code bug): the suggestion table is keyed by library keys such as
    ["api_endpoint"], but it is looked up with [pattern.name], which for
    every library pattern is a display name such as ["API Endpoint"]; so a
    recommendation for the api_endpoint pattern carries the generic
    fallback, as does every library pattern. *)
Theorem recommendation_uses_fallback_for_library_patterns :
  _generate_recommendations [mkPatternMatch api_endpoint (9 # 10)]
  = [mkRecommendation "API Endpoint" (9 # 10) "Consider adding more details"]
  /\ Forall (fun kp => _get_pattern_suggestion kp.2 = "Consider adding more details")
       default_patterns.
Proof. split; [reflexivity|]. repeat constructor. Qed.

(** C4 as stated fails: for content ["GET/GET/GET"] (one word holding
    three whole-word matches of "GET") appending [" GET"] lowers the
    api_endpoint pattern's frequency factor from 3/2 to 4/3 and its
    confidence from 5/12 to 7/18. *)
Lemma appending_indicator_can_lower_confidence :
  exists c c',
    _calculate_pattern_confidence "GET/GET/GET" api_endpoint = Some c
    /\ _calculate_pattern_confidence ("GET/GET/GET" ++ " " ++ "GET") api_endpoint = Some c'
    /\ count "GET" "GET/GET/GET" = 3
    /\ (frequency_factor c == 3 # 2)%Q /\ (frequency_factor c' == 4 # 3)%Q
    /\ (confidence c == 5 # 12)%Q /\ (confidence c' == 7 # 18)%Q
    /\ (frequency_factor c' < frequency_factor c)%Q
    /\ (confidence c' < confidence c)%Q.
Proof.
  do 2 eexists. split; [reflexivity|]. split; [reflexivity|].
  vm_compute. repeat split; discriminate.
Qed.

Lemma lower_word (c : ascii) : is_word_char (lower c) = is_word_char c.
Proof. destruct c as [[] [] [] [] [] [] [] []]; reflexivity. Qed.

Lemma word_not_space (c : ascii) : is_word_char c = true -> is_space c = false.
Proof. destruct c as [[] [] [] [] [] [] [] []]; first [reflexivity | discriminate]. Qed.

Lemma word_match_refl (ind : string) : word_match ind ind = true.
Proof. induction ind as [|a ind IH]; simpl; [done|]. by rewrite Ascii.eqb_refl, IH. Qed.

Lemma word_match_split (ind s : string) :
  all_word ind = true -> word_match ind s = true ->
  exists u r, s = (u ++ r)%string /\ all_word u = true
    /\ String.length u = String.length ind /\ str_drop (String.length ind) s = r.
Proof.
  revert s. induction ind as [|a ind IH]; intros s Hw Hm.
  - exists EmptyString, s. done.
  - destruct s as [|b s]; simpl in Hm; [discriminate|].
    simpl in Hw. apply andb_prop in Hw as [Ha Hw].
    apply andb_prop in Hm as [Hab Hm]. apply Ascii.eqb_eq in Hab.
    destruct (IH s Hw Hm) as (u & r & -> & Hu & Hl & Hd).
    exists (String b u), r. simpl. split; [done|]. split; [|split; [lia|done]].
    rewrite Hu, andb_true_r, <- lower_word, <- Hab, lower_word. done.
Qed.

Lemma count_positions_skip (X w r : string) :
  all_word w = true -> count_positions X true (w ++ r) = count_positions X true r.
Proof.
  induction w as [|c w IH]; simpl; [done|]. intros Hw.
  apply andb_prop in Hw as [Hc Hw]. rewrite Hc. simpl. auto.
Qed.

Lemma str_drop_length (n : nat) (s : string) :
  String.length (str_drop n s) <= String.length s.
Proof.
  revert s. induction n as [|n IH]; intros [|c s]; simpl; try lia. specialize (IH s). lia.
Qed.

Lemma str_length_app (u r : string) :
  String.length (u ++ r)%string = String.length u + String.length r.
Proof. induction u as [|c u IH]; simpl; [done|]. by rewrite IH. Qed.

Lemma findall_scan_positions (X : string) (fuel : nat) (prev : bool) (s : string) :
  X <> EmptyString -> all_word X = true -> String.length s < fuel ->
  findall_scan X fuel prev s = count_positions X prev s.
Proof.
  intros HX Hw. revert prev s. induction fuel as [|fuel IH]; intros prev s Hl; [lia|].
  destruct s as [|c s']; simpl; [done|].
  destruct (match_at X (String c s') prev) eqn:Hm.
  - unfold match_at in Hm. apply andb_prop in Hm as [_ Hm].
    destruct (word_match_split X _ Hw Hm) as (u & r & Hs & Hu & Hlu & Hd).
    rewrite Hd. destruct u as [|c' u].
    { destruct X; simpl in Hlu; [done|discriminate]. }
    simpl in Hs. injection Hs as -> ->. simpl in Hu. apply andb_prop in Hu as [Hc Hu].
    rewrite Hc, count_positions_skip by done.
    rewrite IH; [done|]. simpl in Hl. rewrite str_length_app in Hl. simpl in Hlu.
    destruct X as [|x X]; [done|]. simpl in Hlu. lia.
  - simpl. apply IH. simpl in Hl. lia.
Qed.

Lemma word_match_nonword_head (X t : string) (c : ascii) :
  X <> EmptyString -> all_word X = true -> is_word_char c = false ->
  word_match X (String c t) = false.
Proof.
  intros HX Hw Hc. destruct X as [|a X]; [done|]. simpl in *.
  apply andb_prop in Hw as [Ha _].
  destruct (Ascii.eqb (lower a) (lower c)) eqn:E; [|done].
  apply Ascii.eqb_eq in E. rewrite <- (lower_word a), E, lower_word in Ha. congruence.
Qed.

Lemma word_match_app_nonword (X s t : string) (c : ascii) :
  all_word X = true -> is_word_char c = false ->
  word_match X (s ++ String c t)%string = word_match X s.
Proof.
  revert s. induction X as [|a X IH]; intros s Hw Hc.
  - destruct s as [|d s]; simpl; [by rewrite Hc|done].
  - destruct s as [|b s]; simpl.
    + exact (word_match_nonword_head (String a X) t c ltac:(done) Hw Hc).
    + simpl in Hw. apply andb_prop in Hw as [_ Hw]. by rewrite IH.
Qed.

Lemma count_positions_app_nonword (X s t : string) (c : ascii) (prev : bool) :
  X <> EmptyString -> all_word X = true -> is_word_char c = false ->
  count_positions X prev (s ++ String c t)%string
  = count_positions X prev s + count_positions X false t.
Proof.
  intros HX Hw Hc. revert prev. induction s as [|d s IH]; intros prev.
  - simpl. unfold match_at.
    rewrite word_match_nonword_head, andb_false_r, Hc by done. done.
  - change ((String d s ++ String c t)%string) with (String d (s ++ String c t)).
    cbn [count_positions]. unfold match_at.
    replace (word_match X (String d (s ++ String c t)))
      with (word_match X (String d s))
      by (symmetry; exact (word_match_app_nonword X (String d s) t c Hw Hc)).
    rewrite IH. lia.
Qed.

Lemma count_positions_self (X : string) :
  X <> EmptyString -> 1 <= count_positions X false X.
Proof.
  intros HX. destruct X as [|a X]; [done|]. cbn [count_positions].
  unfold match_at. rewrite word_match_refl. simpl. lia.
Qed.

Lemma count_app_nonword (X s t : string) (c : ascii) :
  X <> EmptyString -> all_word X = true -> is_word_char c = false ->
  count X (s ++ String c t)%string = count X s + count_positions X false t.
Proof.
  intros HX Hw Hc. unfold count.
  rewrite !findall_scan_positions by (first [done | lia | rewrite str_length_app; simpl; lia]).
  by apply count_positions_app_nonword.
Qed.

Lemma words_from_app_space (b : bool) (s t : string) (c : ascii) :
  is_space c = true ->
  words_from b (s ++ String c t)%string = words_from b s + words_from false t.
Proof.
  intros Hc. revert b. induction s as [|d s IH]; intros b; simpl.
  - by rewrite Hc.
  - destruct (is_space d); rewrite IH; lia.
Qed.

Lemma words_from_word (X : string) :
  all_word X = true -> words_from true X = 0.
Proof.
  induction X as [|a X IH]; simpl; [done|]. intros Hw.
  apply andb_prop in Hw as [Ha Hw]. rewrite word_not_space by done. simpl. auto.
Qed.

Lemma split_len_app_word (s X : string) :
  X <> EmptyString -> all_word X = true ->
  split_len (s ++ " " ++ X)%string = split_len s + 1.
Proof.
  intros HX Hw. unfold split_len.
  change (" " ++ X)%string with (String " " X).
  rewrite words_from_app_space by reflexivity.
  destruct X as [|a X]; [done|]. simpl in *. apply andb_prop in Hw as [Ha Hw].
  rewrite word_not_space, words_from_word by done. done.
Qed.

Lemma setitem_map (F : string -> nat) (ks : list string) (k : string) :
  Py.setitem (map (fun k => (k, F k)) ks) k (F k)
  = map (fun k => (k, F k)) (key_insert ks k).
Proof.
  unfold key_insert. induction ks as [|k' ks IH]; simpl; [done|].
  destruct (String.eqb_spec k k') as [->|Hne]; simpl; [done|].
  rewrite IH. by destruct (existsb (String.eqb k) ks).
Qed.

Lemma fold_setitem_map (F : string -> nat) (inds ks : list string) :
  fold_left (fun d i => Py.setitem d i (F i)) inds (map (fun k => (k, F k)) ks)
  = map (fun k => (k, F k)) (fold_left key_insert inds ks).
Proof.
  revert ks. induction inds as [|i inds IH]; intros ks; simpl; [done|].
  by rewrite setitem_map, IH.
Qed.

Lemma count_indicators_keys (content : string) (p : Pattern) :
  count_indicators content p
  = map (fun k => (k, count k content)) (fold_left key_insert (indicators p) []).
Proof.
  unfold count_indicators.
  exact (fold_setitem_map (fun k => count k content) (indicators p) []).
Qed.

Lemma key_insert_in (ks : list string) (k x : string) :
  In x (key_insert ks k) <-> In x ks \/ x = k.
Proof.
  unfold key_insert. destruct (existsb (String.eqb k) ks) eqn:E.
  - apply existsb_exists in E as [y [Hy Ek]]. apply String.eqb_eq in Ek. subst y.
    split; [tauto|]. intros [H| ->]; done.
  - rewrite in_app_iff. simpl. intuition.
Qed.

Lemma fold_key_insert_in (inds ks : list string) (x : string) :
  In x (fold_left key_insert inds ks) <-> In x ks \/ In x inds.
Proof.
  revert ks. induction inds as [|i inds IH]; intros ks; simpl; [tauto|].
  rewrite IH, key_insert_in. intuition.
Qed.

Lemma fold_add_acc (xs : list nat) (a : nat) :
  fold_left Nat.add xs a = a + fold_left Nat.add xs 0.
Proof.
  revert a. induction xs as [|x xs IH]; intros a; simpl; [lia|].
  rewrite (IH (a + x)), (IH x). lia.
Qed.

Lemma sum_nat_cons (x : nat) (xs : list nat) : sum_nat (x :: xs) = x + sum_nat xs.
Proof. unfold sum_nat. simpl. apply fold_add_acc. Qed.

Lemma sum_map_le (f g : string -> nat) (ks : list string) :
  (forall k, In k ks -> f k <= g k) ->
  sum_nat (map f ks) <= sum_nat (map g ks).
Proof.
  induction ks as [|k ks IH]; intros H; [done|]. simpl. rewrite !sum_nat_cons.
  assert (f k <= g k) by (apply H; by left).
  assert (sum_nat (map f ks) <= sum_nat (map g ks)) by (apply IH; intros; apply H; by right).
  lia.
Qed.

Lemma sum_map_lt (f g : string -> nat) (ks : list string) (i : string) :
  (forall k, In k ks -> f k <= g k) -> In i ks -> f i < g i ->
  sum_nat (map f ks) < sum_nat (map g ks).
Proof.
  induction ks as [|k ks IH]; intros H Hi Hlt; [done|]. simpl. rewrite !sum_nat_cons.
  assert (f k <= g k) by (apply H; by left).
  assert (sum_nat (map f ks) <= sum_nat (map g ks))
    by (apply sum_map_le; intros; apply H; by right).
  destruct Hi as [->|Hi]; [lia|].
  assert (sum_nat (map f ks) < sum_nat (map g ks))
    by (apply IH; [intros; apply H; by right|done|done]).
  lia.
Qed.

Lemma matched_le (f g : string -> nat) (ks : list string) :
  (forall k, In k ks -> f k <= g k) ->
  length (List.filter (fun c => 0 <? c) (map f ks))
  <= length (List.filter (fun c => 0 <? c) (map g ks)).
Proof.
  induction ks as [|k ks IH]; intros H; [done|]. simpl.
  assert (f k <= g k) by (apply H; by left).
  assert (IH' : length (List.filter (fun c => 0 <? c) (map f ks))
                <= length (List.filter (fun c => 0 <? c) (map g ks)))
    by (apply IH; intros; apply H; by right).
  destruct (0 <? f k) eqn:Ef, (0 <? g k) eqn:Eg; simpl; try lia.
  apply Nat.ltb_lt in Ef. apply Nat.ltb_ge in Eg. lia.
Qed.

Lemma py_min_one_mono (x y : Q) : (x <= y)%Q -> (py_min x 1 <= py_min y 1)%Q.
Proof.
  intros Hxy. unfold py_min.
  destruct (Qle_bool x 1) eqn:Ex, (Qle_bool y 1) eqn:Ey; simpl.
  - exact Hxy.
  - apply Qle_bool_iff in Ex. exact Ex.
  - exfalso. apply Qle_bool_iff in Ey.
    assert (Qle_bool x 1 = true) by (apply Qle_bool_iff; exact (Qle_trans _ _ _ Hxy Ey)).
    congruence.
  - apply Qle_refl.
Qed.

Lemma py_min_one_le (x : Q) : (py_min x 1 <= 1)%Q.
Proof.
  unfold py_min. destruct (Qle_bool x 1) eqn:E; simpl.
  - by apply Qle_bool_iff.
  - apply Qle_refl.
Qed.

Lemma confidence_formula_mono (M M' T T' W : nat) (P : positive) :
  M <= M' -> T < T' -> T <= W + 1 ->
  (Z.of_nat T # Pos.of_succ_nat W <= Z.of_nat T' # Pos.of_succ_nat (W + 1))%Q
  /\ (py_min ((Z.of_nat M # P) * (1 + (Z.of_nat T # Pos.of_succ_nat W))) 1
      <= py_min ((Z.of_nat M' # P) * (1 + (Z.of_nat T' # Pos.of_succ_nat (W + 1)))) 1)%Q.
Proof.
  intros HM HT HW.
  assert (Hff : (Z.of_nat T # Pos.of_succ_nat W <= Z.of_nat T' # Pos.of_succ_nat (W + 1))%Q).
  { unfold Qle. cbn [Qnum Qden]. rewrite !Zpos_P_of_succ_nat. nia. }
  split; [exact Hff|].
  apply py_min_one_mono. apply Qmult_le_compat_nonneg; split.
  - unfold Qle. cbn [Qnum Qden]. lia.
  - unfold Qle. cbn [Qnum Qden]. pose proof (Pos2Z.is_pos P). nia.
  - apply (Qle_trans _ 1); [discriminate|].
    rewrite <- (Qplus_0_r 1) at 1. apply Qplus_le_compat; [apply Qle_refl|].
    unfold Qle. cbn [Qnum Qden]. lia.
  - apply Qplus_le_compat; [apply Qle_refl|exact Hff].
Qed.

(** C4 (amended): for a pattern whose indicators are non-empty words and
    one of its indicators [ind], appending [" " ++ ind] to the content
    never decreases the frequency factor nor the confidence, provided the
    total indicator occurrences of the content do not exceed its word
    count plus one (as when no whitespace-separated word holds two
    matches); the confidence is at most 1.0. *)
Theorem pattern_confidence_monotone_sparse (content ind : string) (p : Pattern) :
  Forall (fun i => i <> EmptyString /\ all_word i = true) (indicators p) ->
  In ind (indicators p) ->
  sum_nat (map snd (count_indicators content p)) <= split_len content + 1 ->
  exists c c',
    _calculate_pattern_confidence content p = Some c
    /\ _calculate_pattern_confidence (content ++ " " ++ ind)%string p = Some c'
    /\ (frequency_factor c <= frequency_factor c')%Q
    /\ (confidence c <= confidence c')%Q
    /\ (confidence c' <= 1)%Q.
Proof.
  intros Hall Hin Hsparse.
  set (content' := (content ++ " " ++ ind)%string).
  assert (Hc' : content' = (content ++ String " " ind)%string) by reflexivity.
  set (keys := fold_left key_insert (indicators p) []).
  assert (Hkeys : forall k, In k keys -> k <> EmptyString /\ all_word k = true).
  { intros k Hk. apply fold_key_insert_in in Hk as [[]|Hk].
    rewrite List.Forall_forall in Hall. by apply Hall. }
  assert (Hind : In ind keys) by (apply fold_key_insert_in; by right).
  assert (HG : forall k, In k keys ->
            count k content' = count k content + count_positions k false ind).
  { intros k Hk. destruct (Hkeys k Hk). rewrite Hc'. by apply count_app_nonword. }
  assert (Hle : forall k, In k keys -> count k content <= count k content').
  { intros k Hk. rewrite HG by done. lia. }
  assert (Hlt : count ind content < count ind content').
  { rewrite (HG ind Hind). destruct (Hkeys ind Hind) as [Hne _].
    pose proof (count_positions_self ind Hne). lia. }
  assert (Hw' : split_len content' = split_len content + 1).
  { destruct (Hkeys ind Hind). by apply split_len_app_word. }
  pose proof (sum_map_lt _ _ keys ind Hle Hind Hlt) as HT.
  pose proof (matched_le _ _ keys Hle) as HM.
  rewrite count_indicators_keys, map_map in Hsparse. fold keys in Hsparse.
  unfold _calculate_pattern_confidence. rewrite !count_indicators_keys. fold keys.
  rewrite !map_map. cbn [snd].
  destruct (length (indicators p)) as [|n] eqn:En.
  { destruct (indicators p); [done|discriminate]. }
  do 2 eexists. split; [reflexivity|]. split; [reflexivity|].
  cbn [confidence frequency_factor]. rewrite Hw'.
  destruct (confidence_formula_mono _ _ _ _ (split_len content) (Pos.of_nat (S n))
              HM HT Hsparse) as [H1 H2].
  split; [exact H1|]. split; [exact H2|]. apply py_min_one_le.
Qed.

Lemma pattern_confidence_monotone_sparse_witness :
  exists c c',
    _calculate_pattern_confidence "GET /users" api_endpoint = Some c
    /\ _calculate_pattern_confidence ("GET /users" ++ " " ++ "GET")%string api_endpoint = Some c'
    /\ (frequency_factor c <= frequency_factor c')%Q
    /\ (confidence c <= confidence c')%Q
    /\ (confidence c' <= 1)%Q.
Proof.
  apply (pattern_confidence_monotone_sparse "GET /users" "GET" api_endpoint).
  - repeat constructor; discriminate.
  - simpl. by left.
  - vm_compute. lia.
Defined.

End PatternFacts.

Module PerfFacts.
Import Cache Perf.

Lemma get_counts {V} (st : CacheManager V) (k : string) :
  hits (get st k).1 + misses (get st k).1 = S (hits st + misses st).
Proof. unfold get. destruct (Py.get (cache st) k); simpl; lia. Qed.

Lemma set_counts {V} (st st' : CacheManager V) (k : string) (v : V) :
  set st k v = Some st' -> hits st' = hits st /\ misses st' = misses st.
Proof.
  unfold set. destruct (Z.of_nat (length (cache st)) >=? max_size st)%Z.
  - destruct (cache st) as [|[k0 v0] c]; [discriminate|]. intros H. by injection H as <-.
  - intros H. by injection H as <-.
Qed.

(** [get_stats]: over calls without [clear()], [hits + misses] grows by
    the number of [get] calls; [hit_rate] is [hits / (hits + misses)],
    between 0 and 1, and 0 before any lookup. *)
Theorem cache_stats_count_lookups {V} :
  (forall (st st' : CacheManager V) (ops : list (Op V)),
     no_clear ops -> run st ops = Some st' ->
     hits st' + misses st' = hits st + misses st + get_calls ops)
  /\ (forall st : CacheManager V,
        (0 <= hit_rate (get_stats st) <= 1)%Q
        /\ (hits st + misses st = 0 -> hit_rate (get_stats st) = 0%Q)
        /\ (0 < hits st + misses st ->
            (hit_rate (get_stats st) * inject_Z (Z.of_nat (hits st + misses st))
             == inject_Z (Z.of_nat (hits st)))%Q)).
Proof.
  split.
  - intros st st' ops Hnc. revert st. induction Hnc as [|op ops Hop Hnc IH]; intros st Hr.
    + simpl in Hr. injection Hr as <-. simpl. lia.
    + destruct op as [k|k v|]; simpl in Hr |- *; [|destruct (set st k v) as [s1|] eqn:Hs; [|discriminate]|done].
      * rewrite (IH _ Hr), get_counts. lia.
      * rewrite (IH _ Hr). destruct (set_counts _ _ _ _ Hs) as [-> ->]. lia.
  - intros st. unfold get_stats. cbn [hit_rate].
    destruct (0 <? hits st + misses st) eqn:E.
    + apply Nat.ltb_lt in E.
      assert (Hh : hits st <= hits st + misses st) by lia.
      destruct (hits st + misses st) as [|n] eqn:Et; [lia|].
      rewrite <- Pos.of_nat_succ.
      split; [split|split; [lia|intros _]].
      * unfold Qle. cbn [Qnum Qden]. lia.
      * unfold Qle. cbn [Qnum Qden]. rewrite Zpos_P_of_succ_nat. lia.
      * unfold Qeq, Qmult, inject_Z. cbn [Qnum Qden]. rewrite Pos.mul_1_r, Zpos_P_of_succ_nat. lia.
    + apply Nat.ltb_ge in E. split; [split; discriminate|]. split; [done|lia].
Qed.

Lemma get_keeps {V} (st : CacheManager V) (k : string) :
  cache (get st k).1 = cache st /\ max_size (get st k).1 = max_size st.
Proof. unfold get. by destruct (Py.get (cache st) k). Qed.

Lemma run_empty_nonpositive {V} (N : Z) (ops : list (Op V)) (st : CacheManager V) :
  (N <= 0)%Z -> cache st = [] -> max_size st = N ->
  (exists st', run st ops = Some st') <-> set_keys ops = [].
Proof.
  intros HN. revert st. induction ops as [|op ops IH]; intros st Hc Hm; cbn [run step set_keys].
  - split; [done|]. intros _. by exists st.
  - destruct op as [k|k v|].
    + unfold step. destruct (get_keeps st k) as [Hc' Hm']. apply IH; congruence.
    + unfold step, set. rewrite Hc, Hm. simpl. change (Z.of_nat 0) with 0%Z.
      replace (0 >=? N)%Z with true by (symmetry; apply Z.geb_le; lia).
      split; [intros [st' H]; discriminate H|discriminate].
    + unfold step, clear. apply IH; done.
Qed.

(** [CacheManager(max_size)] with [max_size <= 0]: the first [set]
    raises [StopIteration] ([next(iter(self.cache))] on the empty cache),
    so a sequence of calls completes exactly when it makes no [set]. *)
Theorem cache_nonpositive_max_size_set_raises {V} (N : Z) (ops : list (Op V)) :
  (N <= 0)%Z ->
  ((exists st', run (init N) ops = Some st') <-> set_keys ops = [])
  /\ (forall k v, set (init (V:=V) N) k v = None).
Proof.
  intros HN. split.
  - by apply (run_empty_nonpositive N).
  - intros k v. unfold set, init. simpl. change (Z.of_nat 0) with 0%Z.
    replace (0 >=? N)%Z with true by (symmetry; apply Z.geb_le; lia). done.
Qed.

Lemma cache_nonpositive_max_size_set_raises_witness :
  ((exists st', run (init (V:=nat) 0) [OpGet "a"; OpClear] = Some st') <->
   set_keys (V:=nat) [OpGet "a"; OpClear] = [])
  /\ (forall k v, set (init (V:=nat) 0) k v = None).
Proof. apply (cache_nonpositive_max_size_set_raises 0). lia. Defined.

Lemma min_loop_zero (items : list (string * Worker)) (b : string) (bk : float) :
  min_loop items b bk = ZeroDivision
  <-> Exists (fun p => PrimFloat.eqb (capacity p.2) 0%float = true) items.
Proof.
  revert b bk. induction items as [|[k w] items IH]; intros b bk; simpl.
  - split; [discriminate|intros H; inversion H].
  - rewrite Exists_cons. unfold load_ratio. simpl.
    destruct (PrimFloat.eqb (capacity w) 0%float) eqn:E.
    + split; [intros _; by left|done].
    + destruct (PrimFloat.ltb _ bk); rewrite IH; intuition discriminate.
Qed.

Lemma min_loop_in (items : list (string * Worker)) (b : string) (bk : float) (k : string) :
  min_loop items b bk = BestIs k -> k = b \/ In k (map fst items).
Proof.
  revert b bk. induction items as [|[k' w] items IH]; intros b bk; simpl.
  - intros H. injection H as ->. by left.
  - destruct (load_ratio w); [|discriminate].
    destruct (PrimFloat.ltb _ bk); intros H; destruct (IH _ _ H) as [->|Hin]; auto.
Qed.

Lemma min_loop_not_empty (items : list (string * Worker)) (b : string) (bk : float) :
  min_loop items b bk <> NoWorker.
Proof.
  revert b bk. induction items as [|[k w] items IH]; intros b bk; simpl; [discriminate|].
  destruct (load_ratio w); [|discriminate]. destruct (PrimFloat.ltb _ bk); apply IH.
Qed.

Lemma in_setitem {V} (d : Py.dict V) (k : string) (v : V) : In (k, v) (Py.setitem d k v).
Proof.
  induction d as [|[k' v'] d IH]; simpl; [by left|].
  destruct (String.eqb k k'); [by left|by right].
Qed.

Lemma get_setitem_eq {V} (d : Py.dict V) (k : string) (v : V) :
  Py.get (Py.setitem d k v) k = Some v.
Proof.
  induction d as [|[k' v'] d IH]; simpl; [by rewrite String.eqb_refl|].
  destruct (String.eqb_spec k k') as [->|Hne]; simpl; [by rewrite String.eqb_refl|].
  destruct (String.eqb_spec k' k); [congruence|done].
Qed.

Lemma get_setitem_ne {V} (d : Py.dict V) (k k2 : string) (v : V) :
  k2 <> k -> Py.get (Py.setitem d k v) k2 = Py.get d k2.
Proof.
  intros Hne. induction d as [|[k' v'] d IH]; simpl.
  - destruct (String.eqb_spec k k2); [congruence|done].
  - destruct (String.eqb_spec k k') as [->|Hne']; simpl.
    + destruct (String.eqb_spec k' k2); [congruence|done].
    + by rewrite IH.
Qed.

Lemma best_worker_in (lb : LoadBalancer) (k : string) :
  get_best_worker lb = BestIs k -> In k (map fst lb).
Proof.
  destruct lb as [|[k' w] lb]; simpl; [discriminate|].
  destruct (load_ratio w); [|discriminate].
  intros H. destruct (min_loop_in _ _ _ _ H) as [->|Hin]; auto.
Qed.

(** [LoadBalancer.get_best_worker]: [None] exactly when no worker is
    registered; it raises [ZeroDivisionError] exactly when some
    registered worker has capacity zero (every key is computed), so
    registering a worker of capacity 0 makes it raise; otherwise it
    returns the id of a registered worker. *)
Theorem best_worker_cases :
  (forall lb : LoadBalancer, get_best_worker lb = NoWorker <-> lb = [])
  /\ (forall lb : LoadBalancer,
        get_best_worker lb = ZeroDivision
        <-> Exists (fun p => PrimFloat.eqb (capacity p.2) 0%float = true) lb)
  /\ (forall (lb : LoadBalancer) (k : string),
        get_best_worker lb = BestIs k -> In k (map fst lb))
  /\ (forall (lb : LoadBalancer) (worker_id : string),
        get_best_worker (register_worker lb worker_id 0%float) = ZeroDivision).
Proof.
  assert (Hz : forall lb : LoadBalancer,
            get_best_worker lb = ZeroDivision
            <-> Exists (fun p => PrimFloat.eqb (capacity p.2) 0%float = true) lb).
  { intros [|[k w] lb]; simpl.
    - split; [discriminate|intros H; inversion H].
    - rewrite Exists_cons. unfold load_ratio. simpl.
      destruct (PrimFloat.eqb (capacity w) 0%float) eqn:E.
      + split; [intros _; by left|done].
      + rewrite min_loop_zero. intuition discriminate. }
  split; [|split; [exact Hz|split]].
  - intros [|[k w] lb]; simpl; [done|]. split; [|discriminate].
    destruct (load_ratio w) as [r|]; [intros H; exfalso; exact (min_loop_not_empty lb k r H)|discriminate].
  - exact best_worker_in.
  - intros lb worker_id. apply Hz. apply List.Exists_exists.
    exists (worker_id, mkWorker 0%float 0%float []). split; [|reflexivity].
    apply in_setitem.
Qed.

Lemma get_present {V} (d : Py.dict V) (k : string) :
  In k (map fst d) -> exists v, Py.get d k = Some v.
Proof.
  induction d as [|[k' v'] d IH]; simpl; [done|]. intros Hin.
  destruct (String.eqb_spec k' k) as [->|Hne]; [by exists v'|].
  apply IH. destruct Hin; [congruence|done].
Qed.

Lemma update_worker_load_get (lb : LoadBalancer) (w : string) (c : float) :
  In w (map fst lb) ->
  exists wk, Py.get (update_worker_load lb w c) w = Some wk /\ current_load wk = c.
Proof.
  intros Hin. destruct (get_present lb w Hin) as [wk0 Hg].
  unfold update_worker_load. rewrite Hg. eexists. by rewrite get_setitem_eq.
Qed.

Lemma update_worker_load_keys (lb : LoadBalancer) (w k : string) (c : float) :
  In k (map fst lb) -> In k (map fst (update_worker_load lb w c)).
Proof.
  unfold update_worker_load. destruct (Py.get lb w); [|done].
  generalize (mkWorker (capacity w0) c (tasks w0)). intros v.
  induction lb as [|[k' v'] lb IH]; simpl; [done|].
  destruct (String.eqb_spec w k') as [->|Hne]; simpl; intros [H|H]; auto.
Qed.

Lemma set_get_same {V} (st st' : CacheManager V) (k : string) (v : V) :
  set st k v = Some st' -> Py.get (cache st') k = Some v.
Proof.
  unfold set. destruct (Z.of_nat (length (cache st)) >=? max_size st)%Z.
  - destruct (cache st) as [|[k0 v0] c]; [discriminate|].
    intros H. injection H as <-. apply get_setitem_eq.
  - intros H. injection H as <-. apply get_setitem_eq.
Qed.

Lemma set_some {V} (st : CacheManager V) (k : string) (v : V) :
  (1 <= max_size st)%Z -> exists st', set st k v = Some st'.
Proof.
  intros H1. unfold set.
  destruct (Z.of_nat (length (cache st)) >=? max_size st)%Z eqn:E; [|by eexists].
  destruct (cache st) as [|[k0 v0] c] eqn:Ec; [|by eexists].
  simpl in E. apply Z.geb_le in E. lia.
Qed.

(** [PerformanceSystem.optimize_task]: a non-[None] cached result is
    returned without awaiting [func] and without touching the workers
    (only [hits] changes); with no worker registered and no such cached
    result, [func] is awaited and its result stored under the key; a
    [None] result is stored but never served, so with [max_size >= 1]
    the next call with the same key awaits its function again. *)
Theorem optimize_task_cache_use {V} :
  (forall (ps : PerformanceSystem V) key func m1 m2 v,
     Py.get (cache (pcache ps)) key = Some (Some v) ->
     optimize_task ps key func m1 m2
     = (mkPerformanceSystem (mkCacheManager (cache (pcache ps)) (max_size (pcache ps))
                               (S (hits (pcache ps))) (misses (pcache ps)))
                            (pworkers ps), Done (Some v), false))
  /\ (forall (ps : PerformanceSystem V) key r m1 m2 c',
        pworkers ps = [] ->
        (forall v, Py.get (cache (pcache ps)) key <> Some (Some v)) ->
        set (get (pcache ps) key).1 key r = Some c' ->
        optimize_task ps key (TaskReturns r) m1 m2 = (mkPerformanceSystem c' [], Done r, true)
        /\ Py.get (cache c') key = Some r)
  /\ (forall (ps : PerformanceSystem V) key m1 m2 func',
        pworkers ps = [] -> (1 <= max_size (pcache ps))%Z ->
        (forall v, Py.get (cache (pcache ps)) key <> Some (Some v)) ->
        (optimize_task ps key (TaskReturns None) m1 m2).2 = true
        /\ (optimize_task (optimize_task ps key (TaskReturns None) m1 m2).1.1
              key func' m1 m2).2 = true).
Proof.
  assert (Hmiss : forall (ps : PerformanceSystem V) key r m1 m2 c',
        pworkers ps = [] ->
        (forall v, Py.get (cache (pcache ps)) key <> Some (Some v)) ->
        set (get (pcache ps) key).1 key r = Some c' ->
        optimize_task ps key (TaskReturns r) m1 m2 = (mkPerformanceSystem c' [], Done r, true)
        /\ Py.get (cache c') key = Some r).
  { intros ps key r m1 m2 c' Hw Hn Hs. split; [|exact (set_get_same _ _ _ _ Hs)].
    unfold optimize_task. rewrite Hw.
    destruct (get (pcache ps) key) as [c cached] eqn:Eg.
    assert (Hc : match cached with Some (Some _) => False | _ => True end).
    { unfold get in Eg. destruct (Py.get (cache (pcache ps)) key) as [[v|]|] eqn:E;
        injection Eg as _ <-; [exact (Hn v eq_refl)|done|done]. }
    simpl in Hs |- *. destruct cached as [[v|]|]; [done| |]; simpl; by rewrite Hs. }
  split; [|split; [exact Hmiss|]].
  - intros ps key func m1 m2 v Hg. unfold optimize_task, get. by rewrite Hg.
  - intros ps key m1 m2 func' Hw H1 Hn.
    destruct (get_keeps (pcache ps) key) as [_ Hm].
    destruct (set_some (get (pcache ps) key).1 key None) as [c' Hs]; [by rewrite Hm|].
    destruct (Hmiss ps key None m1 m2 c' Hw Hn Hs) as [-> Hg]. split; [done|].
    cbn [fst snd]. unfold optimize_task, get. cbn [pcache pworkers]. rewrite Hg. simpl.
    destruct func'; [match goal with |- context [set ?a ?b ?c] => destruct (set a b c) end|]; reflexivity.
Qed.

(** [optimize_task] when [func] raises: nothing is cached (the entries
    are unchanged) and the call raises; it raises [func]'s exception
    when [get_best_worker] and both [get_metrics()] calls succeed, and
    the [finally] clause still records the chosen worker's load. *)
Theorem optimize_task_exception_not_cached {V} (ps : PerformanceSystem V) key e m1 m2 :
  (forall v, Py.get (cache (pcache ps)) key <> Some (Some v)) ->
  match optimize_task ps key (TaskRaises e) m1 m2 with
  | (ps', r, _) =>
      cache (pcache ps') = cache (pcache ps)
      /\ (forall x, r <> Done x)
      /\ (forall c1 c2, m1 = MetricsOk c1 -> m2 = MetricsOk c2 ->
          get_best_worker (pworkers ps) <> ZeroDivision -> r = Failed e)
      /\ (forall w c2, get_best_worker (pworkers ps) = BestIs w -> w <> ""%string ->
          m2 = MetricsOk c2 ->
          exists wk, Py.get (pworkers ps') w = Some wk /\ current_load wk = c2)
  end.
Proof.
  intros Hn. unfold optimize_task.
  destruct (get_keeps (pcache ps) key) as [Hc _].
  destruct (get (pcache ps) key) as [c cached] eqn:Eg. simpl in Hc.
  assert (Hcached : match cached with Some (Some _) => False | _ => True end).
  { unfold get in Eg. destruct (Py.get (cache (pcache ps)) key) as [[v|]|] eqn:E;
      injection Eg as _ <-; [exact (Hn v eq_refl)|done|done]. }
  destruct cached as [[v|]|]; [done| |]; cbn [pworkers pcache];
  (destruct (get_best_worker (pworkers ps)) as [|w|] eqn:Eb;
   [ | destruct (String.eqb_spec w "") as [Ew|Ew];
       [|destruct m1 as [c1|e1]; destruct m2 as [c2|e2]] | ]);
  simpl;
  (split; [exact Hc|]); (split; [intros x; discriminate|]);
  (split; [intros ? ? H1 H2 H3; first [reflexivity | congruence] |]);
  intros w' c2' Hb Hne Hm2; try discriminate Hb; try discriminate Hm2;
  injection Hb as <-; try congruence; injection Hm2 as <-;
  apply update_worker_load_get;
  first [apply best_worker_in; exact Eb
        | apply update_worker_load_keys; apply best_worker_in; exact Eb].
Qed.
Lemma optimize_task_exception_not_cached_witness :
  (forall v, Py.get (cache (pcache (mkPerformanceSystem (init (V:=option nat) 1) []))) "k"%string
             <> Some (Some v))
  /\ match optimize_task (mkPerformanceSystem (init (V:=option nat) 1) []) "k"%string
             (TaskRaises "boom"%string) (MetricsOk 0%float) (MetricsOk 0%float) with
     | (ps', r, _) =>
         cache (pcache ps') = cache (pcache (mkPerformanceSystem (init (V:=option nat) 1) []))
         /\ (forall x, r <> Done x)
         /\ (forall c1 c2, MetricsOk 0%float = MetricsOk c1 -> MetricsOk 0%float = MetricsOk c2 ->
             get_best_worker [] <> ZeroDivision -> r = Failed "boom"%string)
         /\ (forall w c2, get_best_worker [] = BestIs w -> w <> ""%string ->
             MetricsOk 0%float = MetricsOk c2 ->
             exists wk, Py.get (pworkers ps') w = Some wk /\ current_load wk = c2)
     end.
Proof.
  assert (H : forall v, Py.get (cache (pcache (mkPerformanceSystem (init (V:=option nat) 1) []))) "k"%string
             <> Some (Some v)) by (intros v; simpl; discriminate).
  split; [exact H|]. exact (optimize_task_exception_not_cached _ _ _ _ _ H).
Defined.

End PerfFacts.

Module CollabSystemFacts.
Import CollabSystem.


Lemma contains_in_keys {V} (d : Py.dict V) (k : string) :
  Py.contains d k = true <-> In k (List.map fst d).
Proof.
  unfold Py.contains. rewrite existsb_exists, in_map_iff. split.
  - intros ([k' v] & Hin & E). apply String.eqb_eq in E. simpl in E. subst. by exists (k, v).
  - intros ([k' v] & E & Hin). simpl in E. subst. exists (k, v). split; [done|apply String.eqb_refl].
Qed.

Lemma contains_not_in_keys {V} (d : Py.dict V) (k : string) :
  Py.contains d k = false <-> ~ In k (List.map fst d).
Proof.
  rewrite <- contains_in_keys. destruct (Py.contains d k); split; congruence.
Qed.

Lemma py_get_none {V} (d : Py.dict V) (k : string) :
  ~ In k (List.map fst d) -> Py.get d k = None.
Proof.
  induction d as [|[k' v] d IH]; [done|]. simpl. intros Hn.
  destruct (String.eqb_spec k' k); [tauto|]. apply IH. tauto.
Qed.

Lemma py_get_app_new {V} (d : Py.dict V) (k : string) (v : V) :
  ~ In k (List.map fst d) -> Py.get (d ++ [(k, v)]) k = Some v.
Proof.
  induction d as [|[k' v'] d IH]; simpl; intros Hn.
  - by rewrite String.eqb_refl.
  - destruct (String.eqb_spec k' k); [tauto|]. apply IH. tauto.
Qed.

Lemma setitem_new {V} (d : Py.dict V) (k : string) (v : V) :
  ~ In k (List.map fst d) -> Py.setitem d k v = d ++ [(k, v)].
Proof.
  induction d as [|[k' v'] d IH]; [done|]. simpl. intros Hn.
  destruct (String.eqb_spec k k'); [subst; tauto|]. rewrite IH; [done|tauto].
Qed.

Lemma delitem_removes {V} (d : Py.dict V) (k : string) :
  NoDup (List.map fst d) ->
  ~ In k (List.map fst (Cache.delitem d k))
  /\ (forall k', k' <> k -> Py.get (Cache.delitem d k) k' = Py.get d k').
Proof.
  induction d as [|[k0 v] d IH]; [intros _; split; [intros []|done]|]. simpl. intros Hnd.
  inversion Hnd as [|? ? Hn Hnd']; subst.
  destruct (String.eqb_spec k0 k) as [->|Hne]; simpl.
  - split; [intros Hi; apply Hn, list_elem_of_In, Hi|]. intros k' Hk'. destruct (String.eqb_spec k k'); [congruence|done].
  - destruct (IH Hnd') as [IH1 IH2]. split; [intros [E|E]; [congruence|tauto]|].
    intros k' Hk'. rewrite IH2 by done. reflexivity.
Qed.

(** [CollaborationSystem]: creating an existing session raises
    [ValueError("Session <id> already exists")]; creating a new one
    appends it (empty) to the registry, after which [list_sessions]
    ends with its id and [get_session] returns it; session ids stay
    distinct. After [close_session], [get_session] of that id raises
    [ValueError("Session <id> not found")] and the other sessions are
    still found as before. *)
Theorem session_registry_lifecycle :
  (forall (sessions : Sessions) sid, In sid (list_sessions sessions) ->
     create_session sessions sid = inr ("Session " ++ sid ++ " already exists")%string)
  /\ (forall (sessions : Sessions) sid, ~ In sid (list_sessions sessions) ->
        create_session sessions sid
        = inl (sessions ++ [(sid, new_session sid)], new_session sid)
        /\ list_sessions (sessions ++ [(sid, new_session sid)]) = list_sessions sessions ++ [sid]
        /\ get_session (sessions ++ [(sid, new_session sid)]) sid = inl (new_session sid)
        /\ (NoDup (list_sessions sessions) ->
            NoDup (list_sessions (sessions ++ [(sid, new_session sid)]))))
  /\ (forall (sessions : Sessions) sid, NoDup (list_sessions sessions) ->
        get_session (close_session sessions sid) sid
        = inr ("Session " ++ sid ++ " not found")%string
        /\ (forall k, k <> sid ->
              get_session (close_session sessions sid) k = get_session sessions k)).
Proof.
  assert (Hgs : forall (sessions : Sessions) k, get_session sessions k
            = match Py.get sessions k with
              | Some s => inl s
              | None => inr ("Session " ++ k ++ " not found")%string
              end).
  { intros sessions k. unfold get_session.
    destruct (Py.contains sessions k) eqn:E; simpl.
    - apply contains_in_keys in E. destruct (Py.get sessions k) eqn:G; [done|].
      exfalso. clear -E G. induction sessions as [|[k' v] d IH]; [done|].
      simpl in *. destruct (String.eqb_spec k' k); [done|]. destruct E; [congruence|auto].
    - apply contains_not_in_keys in E. by rewrite py_get_none. }
  split; [|split].
  - intros sessions sid Hin. unfold create_session.
    apply contains_in_keys in Hin. by rewrite Hin.
  - intros sessions sid Hn. unfold create_session, list_sessions in *.
    rewrite (proj2 (contains_not_in_keys _ _) Hn), setitem_new by done.
    split; [done|]. rewrite map_app. split; [done|].
    split; [rewrite Hgs, py_get_app_new; done|].
    intros Hnd. simpl. apply NoDup_app. split; [done|]. split; [|apply NoDup_singleton].
    intros x Hx Hx2. apply list_elem_of_singleton in Hx2. subst x.
    by apply Hn, list_elem_of_In.
  - intros sessions sid Hnd. unfold close_session, list_sessions in *.
    destruct (Py.contains sessions sid) eqn:E.
    + destruct (delitem_removes sessions sid Hnd) as [H1 H2].
      rewrite !Hgs, py_get_none by done. split; [done|].
      intros k Hk. rewrite !Hgs. by rewrite (H2 k Hk).
    + apply contains_not_in_keys in E. rewrite Hgs, py_get_none by done. done.
Qed.

Lemma release_user_locks_keeps (s : Collab.Session) (u : string) :
  Collab.users (Collab._release_user_locks s u) = Collab.users s
  /\ Collab.session_id (Collab._release_user_locks s u) = Collab.session_id s.
Proof.
  unfold Collab._release_user_locks.
  generalize (List.map fst (List.filter (fun p => String.eqb p.2 u) (map_to_list (Collab.locks s)))).
  intros L. revert s. induction L as [|f L IH]; intros s; [done|]. simpl.
  destruct (IH (Collab.release_lock s u f).1) as [-> ->].
  unfold Collab.release_lock. destruct (Collab.locks s !! f); [|done].
  by destruct (String.eqb _ u).
Qed.

Lemma remove_user_step (s : Collab.Session) (u f : string) :
  Collab.users (Collab.remove_user s u) = delete u (Collab.users s)
  /\ Collab.session_id (Collab.remove_user s u) = Collab.session_id s
  /\ Collab.locks (Collab.remove_user s u) !! f
     = match Collab.users s !! u with
       | Some _ => match Collab.locks s !! f with
                   | Some h => if String.eqb h u then None else Some h
                   | None => None
                   end
       | None => Collab.locks s !! f
       end.
Proof.
  unfold Collab.remove_user. destruct (Collab.users s !! u) as [x|] eqn:Eu.
  - destruct (release_user_locks_keeps (Collab.with_users s (delete u (Collab.users s))) u)
      as [-> ->].
    split; [done|]. split; [done|].
    unfold Collab._release_user_locks. rewrite CollabFacts.release_fold_lookup. simpl.
    destruct (Collab.locks s !! f) as [h|] eqn:Ef; [|done].
    destruct (String.eqb_spec h u) as [->|Hne]; simpl; [|done].
    by rewrite (proj2 (CollabFacts.locked_files_spec (Collab.locks s) u f) Ef).
  - split; [by rewrite delete_id|done].
Qed.

Lemma remove_users_fold (L : list string) (s : Collab.Session) (k f : string) :
  Collab.users (fold_left Collab.remove_user L s) !! k
  = (if existsb (String.eqb k) L then None else Collab.users s !! k)
  /\ Collab.session_id (fold_left Collab.remove_user L s) = Collab.session_id s
  /\ Collab.locks (fold_left Collab.remove_user L s) !! f
     = match Collab.locks s !! f with
       | Some h => if existsb (String.eqb h) L
                     && match Collab.users s !! h with Some _ => true | None => false end
                   then None else Some h
       | None => None
       end.
Proof.
  revert s. induction L as [|a L IH]; intros s; simpl.
  - split; [done|]. split; [done|]. by destruct (Collab.locks s !! f).
  - destruct (IH (Collab.remove_user s a)) as (IH1 & IH2 & IH3).
    destruct (remove_user_step s a f) as (Hu & Hid & Hl).
    rewrite IH1, IH2, IH3, Hu, Hid. split; [|split; [done|]].
    + destruct (String.eqb_spec k a) as [->|Hne]; simpl.
      * rewrite lookup_delete_eq. by destruct (existsb _ L).
      * rewrite lookup_delete_ne by congruence. reflexivity.
    + destruct (Collab.users s !! a) as [x|] eqn:Ea.
      * rewrite Hl. destruct (Collab.locks s !! f) as [h0|] eqn:Ef; [|done].
        destruct (String.eqb_spec h0 a) as [->|Hne]; simpl; [by rewrite Ea|].
        rewrite lookup_delete_ne by congruence. reflexivity.
      * assert (Hs : Collab.remove_user s a = s) by (unfold Collab.remove_user; by rewrite Ea).
        rewrite Hs. destruct (Collab.locks s !! f) as [h0|] eqn:Ef; [|done].
        destruct (String.eqb_spec h0 a) as [->|Hne]; simpl.
        -- rewrite delete_id by done. rewrite Ea. by rewrite andb_false_r.
        -- rewrite lookup_delete_ne by congruence. reflexivity.
Qed.

Lemma inactive_users_spec (is_inactive : Collab.User -> bool) (m : gmap string Collab.User) (k : string) :
  existsb (String.eqb k) (List.map fst (List.filter (fun p => is_inactive p.2) (map_to_list m)))
  = match m !! k with Some u => is_inactive u | None => false end.
Proof.
  apply eq_bool_prop_intro. rewrite Is_true_true, existsb_exists. split.
  - intros (k' & Hin & Hk). apply String.eqb_eq in Hk. subst k'.
    apply in_map_iff in Hin as ([k' u] & Hk & Hin). simpl in Hk. subst k'.
    apply filter_In in Hin as [Hin Hu]. simpl in Hu.
    apply list_elem_of_In, elem_of_map_to_list in Hin. rewrite Hin. by apply Is_true_true.
  - destruct (m !! k) as [u|] eqn:Ek; [|done]. intros Hu. apply Is_true_true in Hu.
    exists k. split; [|apply String.eqb_refl].
    apply in_map_iff. exists (k, u). split; [done|].
    apply filter_In. split; [|done].
    apply list_elem_of_In. by apply elem_of_map_to_list.
Qed.

Lemma remove_inactive_users_spec (current_time : Z) (s : Collab.Session) (k f : string) :
  Collab.session_id (remove_inactive_users current_time s) = Collab.session_id s
  /\ Collab.users (remove_inactive_users current_time s) !! k
     = match Collab.users s !! k with
       | Some u => if is_inactive current_time u then None else Some u
       | None => None
       end
  /\ Collab.locks (remove_inactive_users current_time s) !! f
     = match Collab.locks s !! f with
       | Some h => match Collab.users s !! h with
                   | Some u => if is_inactive current_time u then None else Some h
                   | None => Some h
                   end
       | None => None
       end.
Proof.
  unfold remove_inactive_users.
  destruct (remove_users_fold
              (List.map fst (List.filter (fun p => is_inactive current_time p.2) (map_to_list (Collab.users s))))
              s k f) as (H1 & H2 & H3).
  rewrite H1, H2, H3, !inactive_users_spec. split; [done|]. split.
  - destruct (Collab.users s !! k) as [u|]; [|done]. by destruct (is_inactive current_time u).
  - destruct (Collab.locks s !! f) as [h|]; [|done]. rewrite inactive_users_spec.
    destruct (Collab.users s !! h) as [u|]; [|done]. by destruct (is_inactive current_time u).
Qed.

Lemma setitem_mid {V} (X R : Py.dict V) (k : string) (v v' : V) :
  ~ In k (List.map fst X) -> Py.setitem (X ++ (k, v) :: R) k v' = X ++ (k, v') :: R.
Proof.
  induction X as [|[k0 v0] X IH]; simpl; intros Hn.
  - by rewrite String.eqb_refl.
  - destruct (String.eqb_spec k k0); [subst; tauto|]. rewrite IH; [done|tauto].
Qed.

Lemma delitem_mid {V} (X R : Py.dict V) (k : string) (v : V) :
  ~ In k (List.map fst X) -> Cache.delitem (X ++ (k, v) :: R) k = X ++ R.
Proof.
  induction X as [|[k0 v0] X IH]; simpl; intros Hn.
  - by rewrite String.eqb_refl.
  - destruct (String.eqb_spec k0 k); [subst; tauto|]. rewrite IH; [done|tauto].
Qed.

Lemma contains_mid {V} (X R : Py.dict V) (k : string) (v : V) :
  Py.contains (X ++ (k, v) :: R) k = true.
Proof.
  unfold Py.contains. apply existsb_exists. exists (k, v).
  split; [apply in_or_app; simpl; tauto|apply String.eqb_refl].
Qed.

Lemma omap_keys {A} (g : string * A -> option (string * A)) (P : list (string * A)) (k : string) :
  (forall p q, g p = Some q -> q.1 = p.1) ->
  In k (List.map fst (omap g P)) -> In k (List.map fst P).
Proof.
  intros Hg. induction P as [|p P IH]; [done|]. simpl.
  destruct (g p) as [q|] eqn:E; simpl; [|tauto].
  rewrite (Hg p q E). tauto.
Qed.

(** One pass of [monitor_sessions] at [current_time] over a registry
    with distinct session ids (as [create_session] keeps it): each
    session loses its inactive users (those whose [last_active] is more
    than 3600 s before [current_time]), together with every lock they held (locks of other
    holders, including holders who are not users, stay); the sessions
    left without users are closed; the others keep their id and their
    position in the registry. *)
Theorem monitor_pass_removes_inactive (current_time : Z) (sessions : Sessions) :
  NoDup (list_sessions sessions) ->
  monitor_pass current_time sessions
  = omap (fun p : string * Collab.Session =>
            let s' := remove_inactive_users current_time p.2 in
            if decide (Collab.users s' = ∅) then None else Some (p.1, s')) sessions
  /\ (forall sid s', In (sid, s') (monitor_pass current_time sessions) ->
        Collab.users s' <> ∅
        /\ map_Forall (fun _ u => is_inactive current_time u = false) (Collab.users s'))
  /\ (forall (s : Collab.Session) k f,
        Collab.session_id (remove_inactive_users current_time s) = Collab.session_id s
        /\ Collab.users (remove_inactive_users current_time s) !! k
           = match Collab.users s !! k with
             | Some u => if is_inactive current_time u then None else Some u
             | None => None
             end
        /\ Collab.locks (remove_inactive_users current_time s) !! f
           = match Collab.locks s !! f with
             | Some h => match Collab.users s !! h with
                         | Some u => if is_inactive current_time u then None else Some h
                         | None => Some h
                         end
             | None => None
             end).
Proof.
  intros Hnd.
  set (g := fun p : string * Collab.Session =>
            let s' := remove_inactive_users current_time p.2 in
            if decide (Collab.users s' = ∅) then None else Some (p.1, s')).
  assert (Hg : forall p q, g p = Some q -> q.1 = p.1).
  { intros [k s0] q. unfold g. simpl. case_decide; [done|]. by intros [= <-]. }
  assert (Hpass : monitor_pass current_time sessions = omap g sessions).
  { unfold monitor_pass.
    assert (Hgen : forall P R, NoDup (List.map fst (P ++ R)) ->
       fold_left
         (fun sessions (p : string * Collab.Session) =>
            let session := remove_inactive_users current_time p.2 in
            let sessions := Py.setitem sessions p.1 session in
            if decide (Collab.users session = ∅) then close_session sessions p.1 else sessions)
         R (omap g P ++ R) = omap g (P ++ R)).
    { intros P R. revert P. induction R as [|[k s0] R IH]; intros P HP; simpl.
      - by rewrite !app_nil_r.
      - assert (Hk : ~ In k (List.map fst (omap g P))).
        { intros Hin. apply (omap_keys g P k Hg) in Hin.
          rewrite map_app in HP. simpl in HP. apply NoDup_app in HP as (_ & HP & _).
          apply (HP k); [by apply list_elem_of_In|left]. }
        rewrite (setitem_mid _ _ _ _ _ Hk).
        assert (Hg1 : omap g [(k, s0)]
                      = if decide (Collab.users (remove_inactive_users current_time s0) = ∅)
                        then [] else [(k, remove_inactive_users current_time s0)])
          by (unfold g; simpl; case_decide; reflexivity).
        match goal with |- fold_left ?f R ?a = _ =>
          transitivity (fold_left f R (omap g (P ++ [(k, s0)]) ++ R)); [f_equal|] end.
        + rewrite omap_app, Hg1. case_decide.
          * unfold close_session. rewrite contains_mid, delitem_mid by done. by rewrite app_nil_r.
          * by rewrite <- app_assoc.
        + replace (P ++ (k, s0) :: R) with ((P ++ [(k, s0)]) ++ R) in HP |- *
            by by rewrite <- app_assoc.
          by apply IH. }
    exact (Hgen [] sessions Hnd). }
  split; [exact Hpass|]. split.
  - intros sid s' Hin. rewrite Hpass in Hin.
    apply list_elem_of_In, list_elem_of_omap in Hin as ([k s0] & _ & Hq).
    unfold g in Hq. simpl in Hq. case_decide as He; [done|]. injection Hq as <- <-.
    split; [done|]. intros k1 u Hu.
    destruct (remove_inactive_users_spec current_time s0 k1 k1) as (_ & Hk & _).
    rewrite Hu in Hk. destruct (Collab.users s0 !! k1) as [u0|]; [|done].
    destruct (is_inactive current_time u0) eqn:Ei; [done|]. by injection Hk as ->.
  - intros s k f. apply remove_inactive_users_spec.
Qed.

Lemma monitor_pass_removes_inactive_witness :
  let sessions :=
    [("s1"%string, Collab.mkSession "s1"
        (<["bob" := Collab.mkUser "bob" "Bob" "editor" true 9000000000%Z]>
           {[ "alice" := Collab.mkUser "alice" "Alice" "editor" true 1000000000%Z ]})
        {[ "doc.md" := "alice" ]});
     ("s2"%string, Collab.mkSession "s2"
        (<["alice" := Collab.mkUser "alice" "Alice" "editor" true 9500000000%Z]>
           {[ "carol" := Collab.mkUser "carol" "Carol" "viewer" true 0%Z ]}) ∅);
     ("s3"%string, Collab.mkSession "s3"
        {[ "dave" := Collab.mkUser "dave" "Dave" "viewer" true 0%Z ]} ∅)] in
  NoDup (list_sessions sessions)
  /\ List.map (fun p => (p.1, map_to_list (Collab.users p.2), map_to_list (Collab.locks p.2)))
       (monitor_pass 10000000000%Z sessions)
     = [("s1", [("bob", Collab.mkUser "bob" "Bob" "editor" true 9000000000%Z)], []);
        ("s2", [("alice", Collab.mkUser "alice" "Alice" "editor" true 9500000000%Z)], [])]%string
  /\ (forall sid s', In (sid, s') (monitor_pass 10000000000%Z sessions) ->
        Collab.users s' <> ∅).
Proof.
  intros sessions.
  assert (Hnd : NoDup (list_sessions sessions))
    by (unfold sessions; apply (bool_decide_unpack _); vm_compute; reflexivity).
  split; [exact Hnd|]. split; [unfold sessions; vm_compute; reflexivity|].
  intros sid s' Hin.
  exact (proj1 (proj1 (proj2 (monitor_pass_removes_inactive _ _ Hnd)) sid s' Hin)).
Defined.

End CollabSystemFacts.

Module TestingSuiteFacts.
Import Testing TestingSuite.

Lemma call_chain_pred (tests : Suite) (x : string) (K : list string) :
  call_chain tests (x :: K) -> forall a, In a K -> exists b, In b (x :: K) /\ dep_edge tests a b.
Proof.
  revert x. induction K as [|c K IH]; intros x Hc a Ha; [done|].
  destruct Hc as [Hcx Hc]. destruct Ha as [<-|Ha].
  - exists x. split; [left|]; done.
  - destruct (IH c Hc a Ha) as (b & Hb & Hab). exists b. split; [right|]; done.
Qed.

Lemma visit_each_ret (v : string -> SortState -> PyResult SortState) (d : string) (ds : list string)
    (st st' : SortState) :
  visit_each v (d :: ds) st = Ret st' ->
  exists st1, v d st = Ret st1 /\ visit_each v ds st1 = Ret st'.
Proof. simpl. destruct (v d st) as [st1|msg]; [|discriminate]. intros H. by exists st1. Qed.

Lemma visit_ret (fuel : nat) (tests : Suite) (x : string) (V : gset string) (Ls : list string)
    (st' : SortState) :
  visit (Datatypes.S fuel) tests x (V, Ls) = Ret st' ->
  (x ∈ V /\ st' = (V, Ls))
  \/ ((x ∉ V) /\ (exists t V1 S1, Py.get tests x = Some t
        /\ visit_each (visit fuel tests) (dependencies t) (V, Ls) = Ret (V1, S1)
        /\ st' = ({[x]} ∪ V1, S1 ++ [x]))).
Proof.
  cbn [visit]. destruct (decide (x ∈ (V, Ls).1)) as [Hx|Hx]; simpl in Hx.
  - intros H. injection H as <-. by left.
  - destruct (Py.get tests x) as [t|]; [|discriminate].
    destruct (visit_each (visit fuel tests) (dependencies t) (V, Ls)) as [[V1 S1]|msg] eqn:E;
      [|discriminate].
    intros H. injection H as <-. right. split; [done|]. by exists t, V1, S1.
Qed.

(** A [visit] that returns was not made for a test already on the call
    stack, and leaves every test of the stack unvisited. *)
Lemma visit_no_reentry (tests : Suite) (fuel : nat) :
  forall (x : string) (K : list string) (V V' : gset string) (Ls S' : list string),
    call_chain tests (x :: K) -> (forall y, In y K -> y ∉ V) ->
    visit fuel tests x (V, Ls) = Ret (V', S') ->
    ~ In x K /\ (forall y, In y K -> y ∉ V').
Proof.
  induction fuel as [|f IH]; intros x K V V' Ls S' Hc HK Hv; [discriminate|].
  apply visit_ret in Hv as [[Hx Hst]|(Hx & t & V1 & S1 & Ht & He & Hst)].
  - injection Hst as -> ->. split; [|done]. intros Hin. exact (HK x Hin Hx).
  - assert (Heach : forall ds V0 S0 V2 S2, (forall d, In d ds -> In d (dependencies t)) ->
              (forall y, In y (x :: K) -> y ∉ V0) ->
              visit_each (visit f tests) ds (V0, S0) = Ret (V2, S2) ->
              (forall d, In d ds -> ~ In d (x :: K)) /\ (forall y, In y (x :: K) -> y ∉ V2)).
    { induction ds as [|d ds IHds]; intros V0 S0 V2 S2 Hds H0 Hr.
      - simpl in Hr. injection Hr as -> ->. done.
      - apply visit_each_ret in Hr as ([V3 S3] & Hd & Hr).
        assert (Hcd : call_chain tests (d :: x :: K)).
        { split; [|exact Hc]. exists t. split; [exact Ht|apply Hds; left; done]. }
        destruct (IH d (x :: K) V0 V3 S0 S3 Hcd H0 Hd) as [Hdn H3].
        destruct (IHds V3 S3 V2 S2 (fun d' Hd' => Hds d' (or_intror Hd')) H3 Hr) as [Hn H2].
        split; [|exact H2]. intros d' [<-|Hd']; [exact Hdn|exact (Hn d' Hd')]. }
    assert (H0 : forall y, In y (x :: K) -> y ∉ V)
      by (intros y [<-|Hy]; [exact Hx|exact (HK y Hy)]).
    destruct (Heach (dependencies t) V Ls V1 S1 (fun d Hd => Hd) H0 He) as [Hdn H1].
    assert (HxK : ~ In x K).
    { intros Hin. destruct (call_chain_pred tests x K Hc x Hin) as (b & Hb & t' & Ht' & Hbt).
      rewrite Ht in Ht'. injection Ht' as <-. exact (Hdn b Hbt Hb). }
    injection Hst as -> ->. split; [exact HxK|].
    intros y Hy Hy'. apply elem_of_union in Hy' as [Hy'|Hy'].
    + apply elem_of_singleton in Hy'. subst y. exact (HxK Hy).
    + exact (H1 y (or_intror Hy) Hy').
Qed.

Lemma visit_each_no_reentry (tests : Suite) (fuel : nat) (x : string) (t : TestCase) :
  Py.get tests x = Some t ->
  forall ds V V' Ls Ls', (forall d, In d ds -> In d (dependencies t)) -> x ∉ V ->
    visit_each (visit fuel tests) ds (V, Ls) = Ret (V', Ls') -> x ∉ V'.
Proof.
  intros Ht ds. induction ds as [|d ds IH]; intros V V' Ls Ls' Hds Hx Hr.
  - simpl in Hr. by injection Hr as -> ->.
  - apply visit_each_ret in Hr as ([V3 L3] & Hd & Hr).
    assert (Hcd : call_chain tests (d :: [x])).
    { split; [|done]. exists t. split; [exact Ht|apply Hds; left; done]. }
    destruct (visit_no_reentry tests fuel d [x] V V3 Ls L3 Hcd) as [_ H3];
      [intros y [<-|[]]; exact Hx|exact Hd|].
    exact (IH V3 V' L3 Ls' (fun d' Hd' => Hds d' (or_intror Hd')) (H3 x (or_introl eq_refl)) Hr).
Qed.

Lemma visit_each_inv (tests : Suite) (v : string -> SortState -> PyResult SortState) :
  (forall x st st', sort_inv tests st -> v x st = Ret st' ->
     sort_inv tests st' /\ st.2 `prefix_of` st'.2 /\ In x st'.2) ->
  forall ds st st', sort_inv tests st -> visit_each v ds st = Ret st' ->
    sort_inv tests st' /\ st.2 `prefix_of` st'.2 /\ (forall d, In d ds -> In d st'.2).
Proof.
  intros Hv ds. induction ds as [|d ds IH]; intros st st' Hi Hr.
  - simpl in Hr. injection Hr as <-. split; [done|]. split; [done|]. intros d [].
  - apply visit_each_ret in Hr as (st1 & Hd & Hr).
    destruct (Hv d st st1 Hi Hd) as (Hi1 & Hp1 & Hd1).
    destruct (IH st1 st' Hi1 Hr) as (Hi' & Hp' & Hds).
    split; [done|]. split; [by transitivity st1.2|].
    intros d' [<-|Hd']; [|by apply Hds].
    destruct Hp' as [X ->]. apply in_or_app. by left.
Qed.

Lemma visit_inv (tests : Suite) (fuel : nat) :
  forall x st st', sort_inv tests st -> visit fuel tests x st = Ret st' ->
    sort_inv tests st' /\ st.2 `prefix_of` st'.2 /\ In x st'.2.
Proof.
  induction fuel as [|f IH]; intros x [V Ls] st' Hi Hv; [discriminate|].
  apply visit_ret in Hv as [[Hx ->]|(Hx & t & V1 & S1 & Ht & He & ->)].
  - split; [done|]. split; [done|]. by apply (proj1 Hi).
  - destruct (visit_each_inv tests (visit f tests) IH (dependencies t) (V, Ls) (V1, S1) Hi He)
      as ((Hs1 & Hnd1 & Hk1 & Ho1) & Hp1 & Hd1). cbn [fst snd] in *.
    assert (Hx1 : x ∉ V1) by exact (visit_each_no_reentry tests f x t Ht _ V V1 Ls S1 (fun d Hd => Hd) Hx He).
    assert (HxS1 : ~ In x S1) by (intros Hin; apply Hx1, Hs1, Hin).
    split; [|split].
    + split; [|split; [|split]]; cbn [fst snd].
      * intros y. rewrite elem_of_union, elem_of_singleton, in_app_iff, Hs1. simpl. split; [intros [->|H]; auto|intros [H|[->|[]]]; auto].
      * apply NoDup_app. split; [done|]. split; [|apply NoDup_singleton].
        intros y Hy Hy'. apply list_elem_of_singleton in Hy'. subst y.
        by apply HxS1, list_elem_of_In.
      * intros y Hy. apply in_app_iff in Hy as [Hy|[<-|[]]]; [by apply Hk1|by exists t].
      * intros y t' d Ht' Hd Hy. apply in_app_iff in Hy as [Hy|[<-|[]]].
        -- destruct (Ho1 y t' d Ht' Hd Hy) as (i & j & Hi' & Hj & Hij).
           exists i, j. split; [by apply lookup_app_l_Some|]. split; [by apply lookup_app_l_Some|done].
        -- rewrite Ht in Ht'. injection Ht' as <-.
           assert (Hd2 : In d S1) by exact (Hd1 d Hd). apply list_elem_of_In, list_elem_of_lookup in Hd2 as [i Hi'].
           exists i, (length S1). split; [by apply lookup_app_l_Some|].
           split; [by rewrite lookup_app_r, Nat.sub_diag by lia|].
           by apply lookup_lt_Some in Hi'.
    + cbn [snd]. transitivity S1; [done|]. by exists [x].
    + apply in_or_app. right. by left.
Qed.

Lemma get_some_in_keys {V} (d : Py.dict V) (k : string) (v : V) :
  Py.get d k = Some v -> In k (List.map fst d).
Proof.
  induction d as [|[k' v'] d IH]; [done|]. simpl.
  destruct (String.eqb_spec k' k) as [->|_]; [by left|]. intros H. right. by apply IH.
Qed.

Lemma in_keys_get_some {V} (d : Py.dict V) (k : string) :
  In k (List.map fst d) -> exists v, Py.get d k = Some v.
Proof.
  induction d as [|[k' v'] d IH]; [done|]. simpl.
  destruct (String.eqb_spec k' k) as [->|Hne]; [by eexists|].
  intros [->|Hin]; [done|]. by apply IH.
Qed.

Lemma sort_result (fuel : nat) (tests : Suite) (sorted_tests : list string) :
  _sort_by_dependencies fuel tests = Ret sorted_tests ->
  NoDup sorted_tests
  /\ (forall k, In k sorted_tests <-> In k (List.map fst tests))
  /\ (forall k t d, Py.get tests k = Some t -> In d (dependencies t) ->
        exists i j, sorted_tests !! i = Some d /\ sorted_tests !! j = Some k /\ i < j).
Proof.
  unfold _sort_by_dependencies.
  destruct (visit_each (visit fuel tests) (List.map fst tests) (∅, [])) as [[V L]|msg] eqn:E;
    [|discriminate].
  intros H. injection H as <-.
  assert (H0 : sort_inv tests (∅, [])).
  { split; [|split; [constructor|split]]; cbn [fst snd].
    - intros y. rewrite elem_of_empty. simpl. tauto.
    - intros y [].
    - intros y t d _ _ []. }
  destruct (visit_each_inv tests (visit fuel tests) (visit_inv tests fuel) _ _ _ H0 E)
    as ((Hs & Hnd & Hk & Ho) & _ & Hall). cbn [fst snd] in *.
  split; [done|]. split.
  - intros k. split; [|apply Hall].
    intros Hin. destruct (Hk k Hin) as [t Ht]. by apply get_some_in_keys in Ht.
  - intros k t d Ht Hd. apply (Ho k t d Ht Hd), Hall. by apply get_some_in_keys in Ht.
Qed.

(** [_sort_by_dependencies(tests)]: when it returns, the list holds
    every test id of the suite exactly once, each dependency of a test
    before the test. So it raises (never returns) when a test of the
    suite depends on an id outside the suite, or when the dependencies
    form a cycle. *)
Theorem sort_by_dependencies_topological :
  (forall fuel (tests : Suite) sorted_tests,
     _sort_by_dependencies fuel tests = Ret sorted_tests ->
     NoDup sorted_tests
     /\ (forall k, In k sorted_tests <-> In k (List.map fst tests))
     /\ (forall k t d, Py.get tests k = Some t -> In d (dependencies t) ->
           exists i j, sorted_tests !! i = Some d /\ sorted_tests !! j = Some k /\ i < j))
  /\ (forall fuel (tests : Suite) k t d,
        Py.get tests k = Some t -> In d (dependencies t) -> ~ In d (List.map fst tests) ->
        exists msg, _sort_by_dependencies fuel tests = Exc msg)
  /\ (forall fuel (tests : Suite) k,
        tc (dep_edge tests) k k ->
        exists msg, _sort_by_dependencies fuel tests = Exc msg).
Proof.
  split; [exact sort_result|]. split.
  - intros fuel tests k t d Ht Hd Hn.
    destruct (_sort_by_dependencies fuel tests) as [L|msg] eqn:E; [|by exists msg].
    destruct (sort_result fuel tests L E) as (_ & Hin & Ho).
    destruct (Ho k t d Ht Hd) as (i & _ & Hi & _ & _).
    exfalso. apply Hn, Hin. apply list_elem_of_In, list_elem_of_lookup. by exists i.
  - intros fuel tests k Hc.
    destruct (_sort_by_dependencies fuel tests) as [L|msg] eqn:E; [|by exists msg].
    destruct (sort_result fuel tests L E) as (Hnd & Hin & Ho).
    assert (Hsrc : forall a b, tc (dep_edge tests) a b -> exists t, Py.get tests a = Some t).
    { intros a b Hab. destruct Hab as [a b (t & Ht & _)|a c b (t & Ht & _) _]; by exists t. }
    assert (Hpos : forall a, (exists t, Py.get tests a = Some t) -> exists i, L !! i = Some a).
    { intros a [t Ht]. apply list_elem_of_lookup, list_elem_of_In, Hin.
      by apply get_some_in_keys in Ht. }
    assert (Hdesc : forall a b, tc (dep_edge tests) a b ->
              forall i j, L !! i = Some a -> L !! j = Some b -> j < i).
    { intros a b Hab. induction Hab as [a b (t & Ht & Hd)|a c b (t & Ht & Hd) Hcb IH];
        intros i j Hi Hj.
      - destruct (Ho a t b Ht Hd) as (j' & i' & Hj' & Hi' & Hlt).
        rewrite (NoDup_lookup L i i' a Hnd Hi Hi'), (NoDup_lookup L j j' b Hnd Hj Hj'). done.
      - destruct (Ho a t c Ht Hd) as (m & i' & Hm & Hi' & Hlt).
        rewrite (NoDup_lookup L i i' a Hnd Hi Hi'). specialize (IH m j Hm Hj). lia. }
    destruct (Hpos k (Hsrc k k Hc)) as [i Hi].
    specialize (Hdesc k k Hc i i Hi Hi). lia.
Qed.

Lemma py_get_app {V} (l l' : Py.dict V) (k : string) :
  Py.get (l ++ l') k = match Py.get l k with Some v => Some v | None => Py.get l' k end.
Proof.
  induction l as [|[k' v] l IH]; [done|]. simpl. by destruct (String.eqb k' k).
Qed.

Lemma suite_setitem_fresh {V} (d : Py.dict V) (k : string) (v : V) :
  ~ In k (List.map fst d) -> Py.setitem d k v = d ++ [(k, v)].
Proof.
  induction d as [|[k' v'] d IH]; [done|]. simpl. intros Hn.
  destruct (String.eqb_spec k k'); [subst; tauto|]. rewrite IH; [done|tauto].
Qed.

Lemma get_in_nodup {V} (l : Py.dict V) (k : string) (v : V) :
  NoDup (List.map fst l) -> Py.get l k = Some v <-> In (k, v) l.
Proof.
  induction l as [|[k' v'] l IH]; [done|]. simpl. intros Hnd.
  inversion Hnd as [|? ? Hn Hnd']; subst.
  destruct (String.eqb_spec k' k) as [->|Hne].
  - split; [intros [= ->]; by left|]. intros [[= ->]|Hin]; [done|].
    exfalso. apply Hn, list_elem_of_In, in_map_iff. by exists (k, v).
  - rewrite IH by done. split; [by right|]. intros [[= -> ->]|Hin]; [done|exact Hin].
Qed.

Lemma nodup_keys_filter {V} (P : string * V -> bool) (l : Py.dict V) :
  NoDup (List.map fst l) -> NoDup (List.map fst (List.filter P l)).
Proof.
  induction l as [|[k v] l IH]; [done|]. simpl. intros Hnd.
  inversion Hnd as [|? ? Hn Hnd']; subst.
  destruct (P (k, v)); simpl; [|by apply IH].
  constructor; [|by apply IH]. intros Hin. apply Hn.
  apply list_elem_of_In in Hin. apply list_elem_of_In.
  apply in_map_iff in Hin as ([k' v'] & Hk & Hin). apply in_map_iff. exists (k', v').
  split; [done|]. by apply filter_In in Hin as [Hin _].
Qed.

Lemma setitem_keys_in {V} (d : Py.dict V) (k x : string) (v : V) :
  In x (List.map fst (Py.setitem d k v)) -> x = k \/ In x (List.map fst d).
Proof.
  induction d as [|[k' v'] d IH]; simpl.
  - intros [E|[]]. by left.
  - destruct (String.eqb k k'); simpl; intros [E|Hin].
    + by left.
    + right; by right.
    + right; by left.
    + destruct (IH Hin) as [->|H]; [by left|right; by right].
Qed.

(** [register_test] keeps the test ids of the runner distinct. *)
Lemma register_test_keys_nodup (r : TestRunner) (test : TestCase) :
  NoDup (List.map fst (tests r)) -> NoDup (List.map fst (tests (register_test r test))).
Proof.
  cbn [tests register_test]. generalize (tests r) as d. intros d.
  induction d as [|[k' v'] d IH]; simpl; intros Hnd.
  - constructor; [apply not_elem_of_nil|constructor].
  - apply NoDup_cons in Hnd as [Hn Hnd'].
    destruct (String.eqb_spec (tc_id test) k') as [->|Hne]; simpl.
    + by apply NoDup_cons.
    + apply NoDup_cons. split; [|by apply IH].
      rewrite list_elem_of_In. intros Hin.
      destruct (setitem_keys_in d (tc_id test) k' test Hin) as [->|Hin']; [done|].
      apply Hn. by apply list_elem_of_In.
Qed.

Lemma suite_get (r : TestRunner) (category_arg : option string) (k : string) (t : TestCase) :
  NoDup (List.map fst (tests r)) ->
  Py.get (List.filter (fun p => in_suite category_arg p.2) (tests r)) k = Some t
  <-> Py.get (tests r) k = Some t /\ in_suite category_arg t = true.
Proof.
  intros Hnd. rewrite !get_in_nodup by (try apply nodup_keys_filter; exact Hnd).
  rewrite filter_In. done.
Qed.

Lemma check_dependencies_passed (res : gmap string TestResult) (deps : list string) :
  (forall d, In d deps -> exists x, res !! d = Some x /\ status x = "passed"%string) ->
  check_dependencies res deps = None.
Proof.
  induction deps as [|d deps IH]; intros H; [done|]. simpl.
  destruct (H d (or_introl eq_refl)) as (x & -> & Hx). rewrite Hx. simpl.
  apply IH. intros d' Hd'. apply H. by right.
Qed.

Lemma run_tests_passed (r : TestRunner) (stats : Py.dict string) (L : list string) :
  coverage_stats r = StatsOk stats -> NoDup L ->
  (forall k, In k L -> exists t, Py.get (tests r) k = Some t /\ function t = FnReturns
     /\ PrimFloat.leb (tc_timeout t) 0%float = false
     /\ forall d, In d (dependencies t) -> exists i j, L !! i = Some d /\ L !! j = Some k /\ i < j) ->
  forall R P r0 rs0 r' rs, L = P ++ R -> tests r0 = tests r -> coverage_stats r0 = StatsOk stats ->
    List.map fst rs0 = P ->
    (forall k res, Py.get rs0 k = Some res -> status res = "passed"%string /\ results r0 !! k = Some res) ->
    run_tests r0 R rs0 = Ret (r', rs) ->
    List.map fst rs = L
    /\ (forall k res, Py.get rs k = Some res -> status res = "passed"%string /\ results r' !! k = Some res).
Proof.
  intros Hst Hnd HL R. induction R as [|k R IH]; intros P r0 rs0 r' rs HPR Ht0 Hs0 Hk0 Hr0 Hrun.
  - simpl in Hrun. injection Hrun as <- <-. rewrite app_nil_r in HPR. subst. done.
  - assert (HkL : In k L) by (rewrite HPR; apply in_or_app; right; left; done).
    destruct (HL k HkL) as (t & Ht & Hf & Hto & Hdeps).
    assert (HkP : ~ In k P).
    { intros Hin. rewrite HPR in Hnd. apply NoDup_app in Hnd as (_ & Hd & _).
      apply (Hd k); [by apply list_elem_of_In|left]. }
    assert (Hchk : check_dependencies (results r0) (dependencies t) = None).
    { apply check_dependencies_passed. intros d Hd.
      destruct (Hdeps d Hd) as (i & j & Hi & Hj & Hij).
      assert (Hj' : j = length P).
      { apply (NoDup_lookup L j (length P) k Hnd Hj).
        rewrite HPR, lookup_app_r, Nat.sub_diag by lia. done. }
      subst j. rewrite HPR, lookup_app_l in Hi by done.
      assert (HdP : In d (List.map fst rs0))
        by (rewrite Hk0; apply list_elem_of_In, list_elem_of_lookup; by exists i).
      destruct (in_keys_get_some rs0 d HdP) as [x Hx].
      destruct (Hr0 d x Hx) as [Hp Hres]. by exists x. }
    simpl in Hrun. unfold run_test, wait_for_execute, _execute_test in Hrun.
    rewrite Ht0, Ht, Hto, Hchk, Hf in Hrun. cbn [tests results coverage_stats called] in Hrun.
    rewrite Hs0 in Hrun.
    rewrite suite_setitem_fresh in Hrun by (rewrite Hk0; exact HkP).
    refine (IH (P ++ [k]) _ _ r' rs _ _ _ _ _ Hrun).
    + by rewrite <- app_assoc.
    + done.
    + done.
    + by rewrite map_app, Hk0.
    + intros k' res Hg. cbn [results].
      rewrite py_get_app in Hg. destruct (Py.get rs0 k') as [x|] eqn:Ex.
      * injection Hg as <-. destruct (Hr0 k' x Ex) as [Hp Hres]. split; [done|].
        assert (Hne : k <> k').
        { intros <-. apply HkP. rewrite <- Hk0. by apply get_some_in_keys in Ex. }
        by rewrite lookup_insert_ne by done.
      * simpl in Hg. destruct (String.eqb_spec k k') as [<-|]; [|done].
        injection Hg as <-. split; [done|]. by rewrite lookup_insert_eq.
Qed.

(** [run_suite(category)] over a registry of distinct test ids (as
    [register_test] keeps it) when every test of the suite has a timeout
    that is not [<= 0] (e.g. positive) and a function that returns within
    it, and the coverage statistics are obtained: if it returns, its dict
    has exactly one entry per test of the category (all tests when
    [category] is [None] or empty), each [passed] and stored in the
    runner's results, whatever those held before. *)
Theorem run_suite_all_passed (fuel : nat) (r : TestRunner) (category_arg : option string)
    (stats : Py.dict string) (r' : TestRunner) (rs : Py.dict TestResult) :
  NoDup (List.map fst (tests r)) ->
  coverage_stats r = StatsOk stats ->
  (forall k t, Py.get (tests r) k = Some t -> in_suite category_arg t = true ->
     PrimFloat.leb (tc_timeout t) 0%float = false /\ function t = FnReturns) ->
  run_suite fuel r category_arg = Ret (r', rs) ->
  (forall k, In k (List.map fst rs)
             <-> exists t, Py.get (tests r) k = Some t /\ in_suite category_arg t = true)
  /\ NoDup (List.map fst rs)
  /\ (forall k res, Py.get rs k = Some res -> status res = "passed"%string /\ results r' !! k = Some res).
Proof.
  intros Hnd Hst Hf Hrun. unfold run_suite in Hrun.
  destruct (_sort_by_dependencies fuel
              (List.filter (fun p => in_suite category_arg p.2) (tests r)))
    as [L|msg] eqn:E; [|discriminate].
  destruct (sort_result _ _ L E) as (HndL & HinL & Ho).
  assert (HL : forall k, In k L -> exists t, Py.get (tests r) k = Some t /\ function t = FnReturns
     /\ PrimFloat.leb (tc_timeout t) 0%float = false
     /\ forall d, In d (dependencies t) -> exists i j, L !! i = Some d /\ L !! j = Some k /\ i < j).
  { intros k Hk. apply HinL, in_keys_get_some in Hk as [t Ht].
    pose proof Ht as Ht'. apply (suite_get r category_arg k t Hnd) in Ht' as [Ht1 Hin].
    destruct (Hf k t Ht1 Hin) as [Hto Hfn].
    exists t. split; [done|]. split; [done|]. split; [done|]. intros d Hd. by apply (Ho k t d). }
  assert (H0 : forall k res, Py.get (V:=TestResult) [] k = Some res ->
                 status res = "passed"%string /\ results r !! k = Some res)
    by (intros k res H; discriminate H).
  destruct (run_tests_passed r stats L Hst HndL HL L [] r [] r' rs eq_refl eq_refl Hst eq_refl
              H0 Hrun) as [Hkeys Hres].
  rewrite Hkeys. split; [|split; [done|exact Hres]].
  intros k. rewrite HinL. split.
  - intros Hk. apply in_keys_get_some in Hk as [t Ht]. exists t.
    by apply (suite_get r category_arg k t Hnd).
  - intros (t & Ht & Hin). apply (get_some_in_keys _ _ t).
    by apply (suite_get r category_arg k t Hnd).
Qed.

(** The statuses [run_test] records. *)
Lemma run_test_status (r r' : TestRunner) (test_id : string) (res : TestResult) :
  run_test r test_id = Ret (r', res) ->
  (status res = "passed" \/ status res = "failed" \/ status res = "timeout")%string
  /\ results r' = <[test_id := res]> (results r).
Proof.
  unfold run_test. destruct (Py.get (tests r) test_id) as [t|]; [|discriminate].
  unfold wait_for_execute, _execute_test.
  destruct (PrimFloat.leb (tc_timeout t) 0%float).
  { intros H. injection H as <- <-. simpl. split; [tauto|done]. }
  destruct (check_dependencies (results r) (dependencies t)) as [msg|].
  - intros H. injection H as <- <-. simpl. split; [tauto|done].
  - destruct (function t); cbn [coverage_stats results tests called];
      [destruct (coverage_stats r)|..]; intros H; injection H as <- <-; simpl; split;
      try tauto; done.
Qed.

Lemma count_three (l : list TestResult) :
  Forall (fun res => status res = "passed" \/ status res = "failed" \/ status res = "timeout")%string l ->
  count_status "passed" l + count_status "failed" l + count_status "timeout" l = length l.
Proof.
  induction 1 as [|x l Hx _ IH]; [done|]. unfold count_status in *. simpl.
  destruct Hx as [-> | [-> | ->]]; simpl; lia.
Qed.

(** [get_test_summary()]: the results a [TestRunner] records through
    [run_test] have status ['passed'], ['failed'] or ['timeout'], so for
    runners whose results were all recorded that way, [passed + failed +
    timeout = total], and the success rate is 0 when there is no result. *)
Theorem test_summary_partition :
  (forall (r r' : TestRunner) test_id res,
     map_Forall (fun _ res => status res = "passed" \/ status res = "failed"
                                \/ status res = "timeout")%string (results r) ->
     run_test r test_id = Ret (r', res) ->
     map_Forall (fun _ res => status res = "passed" \/ status res = "failed"
                                \/ status res = "timeout")%string (results r'))
  /\ (forall ri rp rs : TestRunner,
        Forall (fun r => map_Forall (fun _ res => status res = "passed" \/ status res = "failed"
                                      \/ status res = "timeout")%string (results r)) [ri; rp; rs] ->
        passed (get_test_summary ri rp rs) + failed (get_test_summary ri rp rs)
          + timeout (get_test_summary ri rp rs) = total (get_test_summary ri rp rs)
        /\ (total (get_test_summary ri rp rs) = 0 ->
            success_rate (get_test_summary ri rp rs) = 0%float)).
Proof.
  split.
  - intros r r' test_id res Hall Hrun. destruct (run_test_status r r' test_id res Hrun) as [Hs ->].
    by apply map_Forall_insert_2.
  - intros ri rp rs Hall. unfold get_test_summary. cbn [passed failed timeout total success_rate].
    split; [|intros ->; done].
    apply count_three. apply List.Forall_forall. intros x Hx.
    apply in_concat in Hx as (l & Hl & Hx). apply in_map_iff in Hl as (r & <- & Hr).
    apply List.Forall_forall with (x := r) in Hall; [|exact Hr].
    apply in_map_iff in Hx as ([k x'] & Hk & Hin). simpl in Hk. subst x'.
    apply (Hall k). apply elem_of_map_to_list. by apply list_elem_of_In.
Qed.

Lemma run_suite_all_passed_witness :
  let r0 := mkTestRunner
              [("c", mkTestCase "c" "C" "security" (FnRaises "boom") [] 30%float);
               ("b", mkTestCase "b" "B" "integration" FnReturns ["a"] 60%float);
               ("a", mkTestCase "a" "A" "integration" FnReturns [] 30%float)]%string
              ∅ (StatsOk []) [] in
  NoDup (List.map fst (tests r0))
  /\ coverage_stats r0 = StatsOk []
  /\ (forall k t, Py.get (tests r0) k = Some t -> in_suite (Some "integration"%string) t = true ->
        PrimFloat.leb (tc_timeout t) 0%float = false /\ function t = FnReturns)
  /\ match run_suite 10 r0 (Some "integration"%string) with
     | Ret (r', rs) => List.map fst rs = ["a"; "b"]%string
                       /\ forall k res, Py.get rs k = Some res -> status res = "passed"%string
     | Exc _ => False
     end.
Proof.
  intros r0.
  assert (H0 : NoDup (List.map fst (tests r0))).
  { apply (bool_decide_unpack _). vm_compute. exact I. }
  assert (H1 : coverage_stats r0 = StatsOk []) by reflexivity.
  assert (H2 : forall k t, Py.get (tests r0) k = Some t -> in_suite (Some "integration"%string) t = true ->
        PrimFloat.leb (tc_timeout t) 0%float = false /\ function t = FnReturns).
  { intros k t H Hin. unfold r0 in H. cbn [tests Py.get] in H.
    destruct (String.eqb "c" k); [injection H as <-; vm_compute in Hin; discriminate Hin|].
    destruct (String.eqb "b" k); [injection H as <-; split; reflexivity|].
    destruct (String.eqb "a" k); [injection H as <-; split; reflexivity|].
    discriminate H. }
  split; [exact H0|]. split; [exact H1|]. split; [exact H2|].
  destruct (run_suite 10 r0 (Some "integration"%string)) as [[r' rs]|msg] eqn:E.
  - split.
    + unfold r0 in E. vm_compute in E. injection E as _ <-. reflexivity.
    + intros k res Hg.
      exact (proj1 (proj2 (proj2 (run_suite_all_passed 10 r0 _ [] r' rs H0 H1 H2 E)) k res Hg)).
  - unfold r0 in E. vm_compute in E. discriminate E.
Defined.

End TestingSuiteFacts.

Module PatternSearchFacts.
Import Patterns PatternSearch.

(** *** The stable sort by decreasing confidence *)

Lemma insert_desc_perm (m : FoundMatch) (l : list FoundMatch) :
  insert_desc m l ≡ₚ m :: l.
Proof.
  induction l as [|x l IH]; simpl; [done|].
  destruct (Qle_bool _ _); [|done].
  etrans; [apply perm_skip, IH|apply perm_swap].
Qed.

Lemma insert_desc_sorted (m : FoundMatch) (l : list FoundMatch) :
  StronglySorted (fun a b => match_confidence (found b) <= match_confidence (found a))%Q l ->
  StronglySorted (fun a b => match_confidence (found b) <= match_confidence (found a))%Q
    (insert_desc m l).
Proof.
  induction l as [|x l IH]; simpl; intros Hs.
  - constructor; constructor.
  - inversion Hs as [|? ? Hs' Hf]; subst.
    destruct (Qle_bool _ _) eqn:E.
    + apply Qle_bool_iff in E. constructor; [by apply IH|].
      apply List.Forall_forall. intros y Hy.
      apply (Permutation_in _ (insert_desc_perm m l)) in Hy as [<-|Hy]; [done|].
      exact (proj1 (List.Forall_forall _ _) Hf y Hy).
    + assert (Hlt : (match_confidence (found x) < match_confidence (found m))%Q).
      { apply Qnot_le_lt. intros H. apply Qle_bool_iff in H. congruence. }
      constructor; [exact Hs|]. constructor; [by apply Qlt_le_weak|].
      apply List.Forall_forall. intros y Hy.
      pose proof (proj1 (List.Forall_forall _ _) Hf y Hy). simpl in *. lra.
Qed.

Lemma filter_none {A} (P : A -> bool) (l : list A) :
  (forall y, In y l -> P y = false) -> List.filter P l = [].
Proof.
  induction l as [|y l IH]; simpl; intros H; [done|].
  rewrite (H y (or_introl eq_refl)). apply IH. auto.
Qed.

Lemma insert_desc_filter (q : Q) (m : FoundMatch) (l : list FoundMatch) :
  StronglySorted (fun a b => match_confidence (found b) <= match_confidence (found a))%Q l ->
  List.filter (fun m => Qeq_bool (match_confidence (found m)) q) (insert_desc m l)
  = List.filter (fun m => Qeq_bool (match_confidence (found m)) q) l
    ++ List.filter (fun m => Qeq_bool (match_confidence (found m)) q) [m].
Proof.
  induction l as [|x l IH]; simpl; intros Hs; [done|].
  inversion Hs as [|? ? Hs' Hf]; subst.
  destruct (Qle_bool _ _) eqn:E.
  - simpl. rewrite IH by done. by destruct (Qeq_bool _ q).
  - assert (Hlt : (match_confidence (found x) < match_confidence (found m))%Q).
    { apply Qnot_le_lt. intros H. apply Qle_bool_iff in H. congruence. }
    simpl. destruct (Qeq_bool (match_confidence (found m)) q) eqn:Em.
    + apply Qeq_bool_iff in Em.
      change (if Qeq_bool (match_confidence (found x)) q
              then x :: List.filter (fun m => Qeq_bool (match_confidence (found m)) q) l
              else List.filter (fun m => Qeq_bool (match_confidence (found m)) q) l)
        with (List.filter (fun m => Qeq_bool (match_confidence (found m)) q) (x :: l)).
      rewrite filter_none; [done|].
      intros y Hy. apply not_true_iff_false. intros Hq. apply Qeq_bool_iff in Hq.
      assert (Hy' : (match_confidence (found y) < match_confidence (found m))%Q).
      { destruct Hy as [<-|Hy]; [done|].
        pose proof (proj1 (List.Forall_forall _ _) Hf y Hy). simpl in *. lra. }
      apply (Qlt_not_eq _ _ Hy'). rewrite Hq, Em. reflexivity.
    + by rewrite app_nil_r.
Qed.

Lemma sort_fold_perm (l acc : list FoundMatch) :
  fold_left (fun acc m => insert_desc m acc) l acc ≡ₚ acc ++ l.
Proof.
  revert acc. induction l as [|m l IH]; intros acc; simpl; [by rewrite app_nil_r|].
  rewrite IH, insert_desc_perm. simpl. apply Permutation_middle.
Qed.

Lemma sort_fold_sorted (l acc : list FoundMatch) :
  StronglySorted (fun a b => match_confidence (found b) <= match_confidence (found a))%Q acc ->
  StronglySorted (fun a b => match_confidence (found b) <= match_confidence (found a))%Q
    (fold_left (fun acc m => insert_desc m acc) l acc).
Proof.
  revert acc. induction l as [|m l IH]; intros acc Hs; simpl; [done|].
  apply IH, insert_desc_sorted, Hs.
Qed.

Lemma sort_fold_filter (q : Q) (l acc : list FoundMatch) :
  StronglySorted (fun a b => match_confidence (found b) <= match_confidence (found a))%Q acc ->
  List.filter (fun m => Qeq_bool (match_confidence (found m)) q)
    (fold_left (fun acc m => insert_desc m acc) l acc)
  = List.filter (fun m => Qeq_bool (match_confidence (found m)) q) acc
    ++ List.filter (fun m => Qeq_bool (match_confidence (found m)) q) l.
Proof.
  revert acc. induction l as [|m l IH]; intros acc Hs; simpl; [by rewrite app_nil_r|].
  rewrite IH by (by apply insert_desc_sorted).
  rewrite insert_desc_filter by done. rewrite <- app_assoc. simpl.
  by destruct (Qeq_bool _ q).
Qed.

(** *** The loop over the library *)

Lemma calc_none (content : string) (p : Pattern) :
  _calculate_pattern_confidence content p = None <-> indicators p = [].
Proof.
  unfold _calculate_pattern_confidence. destruct (indicators p); simpl; split; done.
Qed.

Lemma collect_none (content : string) (ps : list Pattern) :
  collect_matches content ps = None <-> List.Exists (fun p => indicators p = []) ps.
Proof.
  induction ps as [|p ps IH]; simpl.
  - split; [discriminate|]. intros H. inversion H.
  - rewrite List.Exists_cons, <- IH.
    destruct (_calculate_pattern_confidence content p) as [pc|] eqn:E.
    + assert (Hne : indicators p <> []).
      { intros H. apply (proj2 (calc_none content p)) in H. congruence. }
      destruct (negb _); [destruct (collect_matches content ps)|]; split; try tauto; try discriminate.
      intros [H|H]; [contradiction|discriminate].
    + apply calc_none in E. split; [by left|done].
Qed.

Lemma collect_filter (content : string) (P : Q -> bool) (ps : list Pattern) (cs : list FoundMatch) :
  collect_matches content ps = Some cs ->
  map (fun m => pattern (found m)) (List.filter (fun m => P (match_confidence (found m))) cs)
  = List.filter (fun p => above_threshold content p && P (pattern_confidence content p)) ps.
Proof.
  revert cs. induction ps as [|p ps IH]; intros cs H; simpl in H.
  - by injection H as <-.
  - destruct (_calculate_pattern_confidence content p) as [pc|] eqn:E; [|discriminate].
    assert (Hc : pattern_confidence content p = confidence pc)
      by (unfold pattern_confidence; by rewrite E).
    assert (Ha : above_threshold content p = negb (Qle_bool (confidence pc) (1 # 2)))
      by (unfold above_threshold; by rewrite E).
    simpl. rewrite Ha, Hc.
    destruct (negb (Qle_bool (confidence pc) (1 # 2))).
    + destruct (collect_matches content ps) as [ms|] eqn:Ec; [|discriminate].
      injection H as <-. simpl. destruct (P (confidence pc)); simpl; [f_equal|]; by apply IH.
    + by apply IH.
Qed.

Lemma collect_each (content : string) (ps : list Pattern) (cs : list FoundMatch) :
  collect_matches content ps = Some cs ->
  Forall (fun m => exists pc,
            _calculate_pattern_confidence content (pattern (found m)) = Some pc
            /\ match_confidence (found m) = confidence pc
            /\ negb (Qle_bool (confidence pc) (1 # 2)) = true
            /\ location m = _find_pattern_location content (pattern (found m))) cs.
Proof.
  revert cs. induction ps as [|p ps IH]; intros cs H; simpl in H.
  - injection H as <-. constructor.
  - destruct (_calculate_pattern_confidence content p) as [pc|] eqn:E; [|discriminate].
    destruct (negb (Qle_bool (confidence pc) (1 # 2))) eqn:En.
    + destruct (collect_matches content ps) as [ms|] eqn:Ec; [|discriminate].
      injection H as <-. constructor; [|by apply IH].
      exists pc. simpl. done.
    + by apply IH.
Qed.

Lemma py_min_le_1 (x : Q) : (py_min x 1 <= 1)%Q.
Proof.
  unfold py_min. destruct (Qle_bool x 1) eqn:E; simpl.
  - by apply Qle_bool_iff.
  - apply Qle_refl.
Qed.

Lemma calc_le_1 (content : string) (p : Pattern) (pc : PatternConfidence) :
  _calculate_pattern_confidence content p = Some pc -> (confidence pc <= 1)%Q.
Proof.
  unfold _calculate_pattern_confidence. destruct (length (indicators p)); [discriminate|].
  intros H. injection H as <-. apply py_min_le_1.
Qed.

Lemma filter_counts_zero (content : string) (ks : list string) :
  (forall k, In k ks -> count k content = 0) ->
  List.filter (fun c => 0 <? c) (map (fun k => count k content) ks) = [].
Proof.
  induction ks as [|k ks IH]; simpl; intros H; [done|].
  rewrite (H k (or_introl eq_refl)). simpl. apply IH. auto.
Qed.

Lemma calc_zero (content : string) (p : Pattern) :
  indicators p <> [] -> Forall (fun ind => count ind content = 0) (indicators p) ->
  above_threshold content p = false.
Proof.
  intros Hne Hz. unfold above_threshold, _calculate_pattern_confidence.
  rewrite PatternFacts.count_indicators_keys, map_map. simpl.
  rewrite filter_counts_zero.
  2:{ intros k Hk. apply PatternFacts.fold_key_insert_in in Hk as [[]|Hk].
      exact (proj1 (List.Forall_forall _ _) Hz k Hk). }
  destruct (length (indicators p)) eqn:El.
  { destruct (indicators p); [done|discriminate]. }
  reflexivity.
Qed.

Lemma collect_all_below (content : string) (ps : list Pattern) :
  (forall p, In p ps -> indicators p <> []
     /\ Forall (fun ind => count ind content = 0) (indicators p)) ->
  collect_matches content ps = Some [].
Proof.
  induction ps as [|p ps IH]; simpl; intros H; [done|].
  destruct (H p (or_introl eq_refl)) as [Hne Hz].
  pose proof (calc_zero content p Hne Hz) as Ha. unfold above_threshold in Ha.
  destruct (_calculate_pattern_confidence content p) as [pc|] eqn:E.
  - rewrite Ha. apply IH. auto.
  - apply calc_none in E. contradiction.
Qed.

Lemma filter_all_true {A} (l : list A) : List.filter (fun _ => true) l = l.
Proof. induction l as [|x l IH]; simpl; [done|]. by rewrite IH. Qed.

Lemma find_patterns_none (patterns : Py.dict Pattern) (content : string) :
  find_patterns patterns content = None
  <-> List.Exists (fun p => indicators p = []) (map snd patterns).
Proof.
  unfold find_patterns. rewrite <- (collect_none content).
  destruct (collect_matches content (map snd patterns)); split; intros H; first [discriminate | done].
Qed.

Lemma find_patterns_some (patterns : Py.dict Pattern) (content : string) (ms : list FoundMatch) :
  find_patterns patterns content = Some ms ->
  StronglySorted (fun a b => match_confidence (found b) <= match_confidence (found a))%Q ms
  /\ map (fun m => pattern (found m)) ms
     ≡ₚ List.filter (above_threshold content) (map snd patterns)
  /\ (forall q, map (fun m => pattern (found m))
                  (List.filter (fun m => Qeq_bool (match_confidence (found m)) q) ms)
        = List.filter (fun p => above_threshold content p
                                && Qeq_bool (pattern_confidence content p) q) (map snd patterns))
  /\ Forall (fun m => (1 # 2 < match_confidence (found m) <= 1)%Q
               /\ match_confidence (found m) = pattern_confidence content (pattern (found m))
               /\ location m = _find_pattern_location content (pattern (found m))) ms.
Proof.
  unfold find_patterns. destruct (collect_matches content (map snd patterns)) as [cs|] eqn:Ec;
    [|discriminate].
  intros H. injection H as <-. unfold sort_desc.
  pose proof (collect_each _ _ _ Ec) as Heach.
  split; [apply sort_fold_sorted; constructor|].
  split.
  { rewrite sort_fold_perm. simpl.
    pose proof (collect_filter content (fun _ => true) _ _ Ec) as Hf.
    rewrite filter_all_true in Hf.
    rewrite (List.filter_ext _ (above_threshold content)) in Hf by (intros; apply andb_true_r).
    by rewrite Hf. }
  split.
  { intros q. rewrite sort_fold_filter by constructor. simpl.
    exact (collect_filter content (fun c => Qeq_bool c q) _ _ Ec). }
  apply List.Forall_forall. intros m Hm.
  apply (Permutation_in _ (sort_fold_perm cs [])) in Hm. simpl in Hm.
  destruct (proj1 (List.Forall_forall _ _) Heach m Hm) as (pc & Hpc & Hconf & Hth & Hloc).
  rewrite Hconf. unfold pattern_confidence. rewrite Hpc.
  split; [|done]. split.
  - apply Qnot_le_lt. intros Hle. apply Qle_bool_iff in Hle. rewrite Hle in Hth. discriminate.
  - exact (calc_le_1 _ _ _ Hpc).
Qed.

(** *** Match spans *)

Lemma finditer_scan_length (ind : string) (fuel : nat) (prev : bool) (pos : nat) (s : string) :
  length (finditer_scan ind fuel prev pos s) = findall_scan ind fuel prev s.
Proof.
  revert prev pos s. induction fuel as [|fuel IH]; intros prev pos s; simpl; [done|].
  destruct s as [|c s']; [done|]. destruct (match_at ind _ prev); simpl; auto.
Qed.

Lemma finditer_length (ind content : string) :
  length (finditer ind content) = count ind content.
Proof. apply finditer_scan_length. Qed.

Lemma str_drop_drop (n m : nat) (s : string) :
  str_drop n (str_drop m s) = str_drop (m + n) s.
Proof.
  revert s. induction m as [|m IH]; intros [|c s]; simpl; auto. by destruct n.
Qed.

Lemma str_drop_len (n : nat) (s : string) :
  String.length (str_drop n s) = String.length s - n.
Proof.
  revert s. induction n as [|n IH]; intros [|c s]; simpl; try lia. apply IH.
Qed.

Lemma word_match_length (ind s : string) :
  word_match ind s = true -> String.length ind <= String.length s.
Proof.
  revert s. induction ind as [|a ind IH]; intros [|b s]; simpl; try lia; try discriminate.
  intros H. apply andb_prop in H as [_ H]. specialize (IH s H). lia.
Qed.

Lemma finditer_scan_spans (ind content : string) (fuel : nat) (prev : bool) (pos : nat) (s : string) :
  s = str_drop pos content -> pos + String.length s = String.length content ->
  Forall (fun sp => pos <= sp.1 /\ sp.2 = sp.1 + String.length ind
                    /\ sp.2 <= String.length content
                    /\ word_match ind (str_drop sp.1 content) = true)
    (finditer_scan ind fuel prev pos s)
  /\ StronglySorted (fun a b => a.2 <= b.1) (finditer_scan ind fuel prev pos s).
Proof.
  revert prev pos s. induction fuel as [|fuel IH]; intros prev pos s Hs Hl; simpl.
  { split; constructor. }
  destruct s as [|c s']; [split; constructor|].
  destruct (match_at ind (String c s') prev) eqn:Hm.
  - unfold match_at in Hm. apply andb_prop in Hm as [_ Hm].
    pose proof (word_match_length _ _ Hm) as Hle.
    destruct (IH true (pos + String.length ind) (str_drop (String.length ind) (String c s')))
      as [Hf Hss].
    { rewrite Hs, str_drop_drop. done. }
    { rewrite str_drop_len. lia. }
    split.
    + constructor.
      * simpl. rewrite <- Hs. split; [lia|split; [lia|split; [lia|done]]].
      * eapply List.Forall_impl; [|exact Hf]. simpl. intros sp (H1 & H2 & H3 & H4). split; [lia|done].
    + constructor; [exact Hss|].
      eapply List.Forall_impl; [|exact Hf]. simpl. intros sp (H1 & _). lia.
  - destruct (IH (is_word_char c) (S pos) s') as [Hf Hss].
    { replace (S pos) with (pos + 1) by lia. rewrite <- str_drop_drop, <- Hs. done. }
    { simpl in Hl. lia. }
    split; [|exact Hss].
    eapply List.Forall_impl; [|exact Hf]. simpl. intros sp (H1 & H2). split; [lia|done].
Qed.

Lemma finditer_spans (ind content : string) :
  Forall (fun sp => sp.2 = sp.1 + String.length ind /\ sp.2 <= String.length content
                    /\ word_match ind (str_drop sp.1 content) = true)
    (finditer ind content)
  /\ StronglySorted (fun a b => a.2 <= b.1) (finditer ind content).
Proof.
  destruct (finditer_scan_spans ind content (S (String.length content)) false 0 content)
    as [Hf Hs]; [done|done|].
  split; [|exact Hs]. eapply List.Forall_impl; [|exact Hf]. simpl. intros sp (_ & H). exact H.
Qed.

Lemma in_setitem_inv {V} (d : Py.dict V) (k k' : string) (v v' : V) :
  In (k, v) (Py.setitem d k' v') -> In (k, v) d \/ (k = k' /\ v = v').
Proof.
  induction d as [|[k0 v0] d IH]; simpl.
  - intros [H|[]]. injection H as -> ->. by right.
  - destruct (String.eqb k' k0); simpl.
    + intros [H|H]; [injection H as -> ->; by right|auto].
    + intros [H|H]; [auto|]. destruct (IH H); auto.
Qed.

Lemma location_fold_in (content : string) (inds : list string) (locs : Py.dict (list (nat * nat)))
    (ind : string) (spans : list (nat * nat)) :
  In (ind, spans)
    (fold_left (fun locations indicator =>
                  match finditer indicator content with
                  | [] => locations
                  | matches => Py.setitem locations indicator matches
                  end) inds locs) ->
  In (ind, spans) locs \/ (In ind inds /\ spans = finditer ind content /\ spans <> []).
Proof.
  revert locs. induction inds as [|i inds IH]; intros locs H; simpl in H; [by left|].
  destruct (IH _ H) as [H'|(Hi & Hs & Hn)]; [|right; split; [by right|done]].
  destruct (finditer i content) as [|sp sps] eqn:E; [by left|].
  apply in_setitem_inv in H' as [H'|[-> ->]]; [by left|].
  right. split; [by left|]. by rewrite E.
Qed.

Lemma location_fold_keep (content : string) (inds : list string) (locs : Py.dict (list (nat * nat)))
    (ind : string) :
  Py.get locs ind = Some (finditer ind content) ->
  Py.get (fold_left (fun locations indicator =>
                       match finditer indicator content with
                       | [] => locations
                       | matches => Py.setitem locations indicator matches
                       end) inds locs) ind = Some (finditer ind content).
Proof.
  revert locs. induction inds as [|i inds IH]; intros locs H; simpl; [done|].
  apply IH. destruct (finditer i content) as [|sp sps] eqn:E; [done|].
  destruct (String.eqb_spec ind i) as [->|Hne].
  - rewrite PerfFacts.get_setitem_eq. by rewrite E.
  - by rewrite PerfFacts.get_setitem_ne.
Qed.

Lemma location_fold_get (content : string) (inds : list string) (locs : Py.dict (list (nat * nat)))
    (ind : string) :
  In ind inds -> finditer ind content <> [] ->
  Py.get (fold_left (fun locations indicator =>
                       match finditer indicator content with
                       | [] => locations
                       | matches => Py.setitem locations indicator matches
                       end) inds locs) ind = Some (finditer ind content).
Proof.
  revert locs. induction inds as [|i inds IH]; intros locs Hi Hn; [destruct Hi|].
  destruct Hi as [->|Hi]; simpl; [|by apply IH].
  apply location_fold_keep.
  destruct (finditer ind content) as [|sp sps] eqn:E; [done|].
  apply PerfFacts.get_setitem_eq.
Qed.

Lemma location_fold_nil (content : string) (inds : list string) :
  Forall (fun ind => count ind content = 0) inds ->
  fold_left (fun locations indicator =>
               match finditer indicator content with
               | [] => locations
               | matches => Py.setitem locations indicator matches
               end) inds [] = [].
Proof.
  induction inds as [|i inds IH]; simpl; intros H; [done|].
  inversion H as [|? ? Hi Hr]; subst.
  rewrite <- finditer_length in Hi. destruct (finditer i content); [|discriminate].
  by apply IH.
Qed.

(** *** Coverage and recommendations *)

Lemma fold_qplus (xs : list Q) (acc : Q) :
  (fold_left Qplus xs acc == acc + fold_right Qplus 0 xs)%Q.
Proof.
  revert acc. induction xs as [|x xs IH]; intros acc; simpl; [ring|].
  rewrite IH. ring.
Qed.

Lemma sum_bounds (xs : list Q) :
  Forall (fun x => 1 # 2 < x <= 1)%Q xs ->
  (fold_right Qplus 0 xs <= inject_Z (Z.of_nat (length xs)))%Q
  /\ (xs <> [] -> inject_Z (Z.of_nat (length xs)) * (1 # 2) < fold_right Qplus 0 xs)%Q.
Proof.
  induction xs as [|x xs IH]; intros H.
  - simpl. split; [apply Qle_refl|done].
  - inversion H as [|? ? [Hx1 Hx2] Hr]; subst. destruct (IH Hr) as [Hle Hlt].
    simpl length. rewrite Nat2Z.inj_succ, <- Z.add_1_r, inject_Z_plus. simpl fold_right.
    change (inject_Z 1) with 1%Q. split; [lra|]. intros _. destruct xs as [|y ys].
    + simpl. change (inject_Z (Z.of_nat 0)) with 0%Q. lra.
    + specialize (Hlt ltac:(discriminate)). lra.
Qed.

Lemma coverage_bounds (pms : list PatternMatch) :
  pms <> [] -> Forall (fun m => 1 # 2 < match_confidence m <= 1)%Q pms ->
  (1 # 2 < _calculate_pattern_coverage pms <= 1)%Q.
Proof.
  intros Hne H.
  assert (Hc : _calculate_pattern_coverage pms
               = (fold_left Qplus (map match_confidence pms) 0
                  / inject_Z (Z.of_nat (length (map match_confidence pms))))%Q).
  { destruct pms; [done|]. by rewrite length_map. }
  rewrite Hc.
  assert (Hf : Forall (fun x => 1 # 2 < x <= 1)%Q (map match_confidence pms))
    by (by apply List.Forall_map).
  destruct (sum_bounds _ Hf) as [Hle Hlt].
  assert (Hne' : map match_confidence pms <> []) by (destruct pms; done).
  specialize (Hlt Hne').
  assert (Hpos : (0 < inject_Z (Z.of_nat (length (map match_confidence pms))))%Q).
  { change 0%Q with (inject_Z 0). rewrite <- Zlt_Qlt.
    destruct (map match_confidence pms); [done|]. simpl. lia. }
  rewrite fold_qplus, Qplus_0_l. split.
  - apply Qlt_shift_div_l; [done|lra].
  - apply Qle_shift_div_r; [done|lra].
Qed.

Lemma recommendations_of (ms : list FoundMatch) :
  map (fun r => (rec_pattern r, rec_confidence r)) (_generate_recommendations (map found ms))
  = map fst (List.filter (fun e => negb (Qle_bool e.1.2 (8 # 10)))
               (map (fun m => (name (pattern (found m)), match_confidence (found m), context m))
                  ms)).
Proof.
  unfold _generate_recommendations.
  induction ms as [|m ms IH]; simpl; [done|].
  destruct (negb _); simpl; [f_equal|]; done.
Qed.

Lemma keys_setitem {V} (d : Py.dict V) (k : string) (v : V) :
  map fst (Py.setitem d k v) = key_insert (map fst d) k.
Proof.
  unfold key_insert. induction d as [|[k' v'] d IH]; simpl; [done|].
  destruct (String.eqb k k') eqn:E.
  - apply String.eqb_eq in E as ->. simpl. done.
  - simpl. rewrite IH. simpl. by destruct (existsb (String.eqb k) (map fst d)).
Qed.

(** [find_patterns] raises exactly when a library pattern has no
    indicators ([ZeroDivisionError]). Otherwise it returns the library
    patterns whose confidence is above [0.5], each once, ordered by
    decreasing confidence; patterns of equal confidence keep the
    library's order (the sort is stable). Every confidence lies in
    [(0.5, 1]], and each match carries the location
    [_find_pattern_location] gives its pattern. When no indicator of any
    pattern occurs in the content, nothing is found.
    (For indicators that are nonempty words: others would be read by
    [re] as regex syntax.) *)
Theorem find_patterns_ranked (patterns : Py.dict Pattern) (content : string) :
  Forall (fun p => Forall (fun ind => ind <> EmptyString /\ all_word ind = true) (indicators p))
    (map snd patterns) ->
  (find_patterns patterns content = None
   <-> List.Exists (fun p => indicators p = []) (map snd patterns))
  /\ (forall ms, find_patterns patterns content = Some ms ->
       StronglySorted (fun a b => match_confidence (found b) <= match_confidence (found a))%Q ms
       /\ map (fun m => pattern (found m)) ms
          ≡ₚ List.filter (above_threshold content) (map snd patterns)
       /\ (forall q, map (fun m => pattern (found m))
                       (List.filter (fun m => Qeq_bool (match_confidence (found m)) q) ms)
             = List.filter (fun p => above_threshold content p
                                     && Qeq_bool (pattern_confidence content p) q)
                 (map snd patterns))
       /\ Forall (fun m => (1 # 2 < match_confidence (found m) <= 1)%Q
                    /\ match_confidence (found m) = pattern_confidence content (pattern (found m))
                    /\ location m = _find_pattern_location content (pattern (found m))) ms)
  /\ ((forall p, In p (map snd patterns) ->
         indicators p <> [] /\ Forall (fun ind => count ind content = 0) (indicators p)) ->
      find_patterns patterns content = Some []).
Proof.
  intros _. split; [apply find_patterns_none|]. split; [apply find_patterns_some|].
  intros H. unfold find_patterns. by rewrite collect_all_below.
Qed.

Lemma find_patterns_ranked_witness :
  Forall (fun p => Forall (fun ind => ind <> EmptyString /\ all_word ind = true) (indicators p))
    (map snd default_patterns)
  /\ option_map (map (fun m => (name (pattern (found m)), match_confidence (found m))))
       (find_patterns default_patterns "GET POST endpoint route class method")
     = Some [("API Endpoint", 1%Q); ("Class Definition", (18 # 28)%Q)]
  /\ (find_patterns default_patterns "GET POST endpoint route class method" = None
      <-> List.Exists (fun p => indicators p = []) (map snd default_patterns)).
Proof.
  assert (Hw : Forall (fun p => Forall (fun ind => ind <> EmptyString /\ all_word ind = true)
                                  (indicators p)) (map snd default_patterns)).
  { repeat (constructor; [repeat (constructor; [split; [discriminate|reflexivity]|]); constructor|]).
    constructor. }
  split; [exact Hw|]. split; [vm_compute; reflexivity|].
  exact (proj1 (find_patterns_ranked default_patterns _ Hw)).
Defined.

(** [_find_pattern_location] returns [None] exactly when no indicator
    occurs. Otherwise it maps each indicator that occurs to the spans of
    all its occurrences: as many as [_calculate_pattern_confidence]
    counts, each of the indicator's length, inside the content, matching
    the indicator there, in order and without overlap.
    (For indicators that are nonempty words: others would be read by
    [re] as regex syntax.) *)
Theorem pattern_location_spans (content : string) (pattern : Pattern) :
  Forall (fun ind => ind <> EmptyString /\ all_word ind = true) (indicators pattern) ->
  (_find_pattern_location content pattern = None
   <-> Forall (fun ind => count ind content = 0) (indicators pattern))
  /\ (forall locations, _find_pattern_location content pattern = Some locations ->
       (forall ind, In ind (indicators pattern) -> 0 < count ind content ->
          Py.get locations ind = Some (finditer ind content))
       /\ (forall ind spans, In (ind, spans) locations ->
             In ind (indicators pattern) /\ length spans = count ind content
             /\ 0 < count ind content
             /\ Forall (fun sp => sp.2 = sp.1 + String.length ind
                                  /\ sp.2 <= String.length content
                                  /\ word_match ind (str_drop sp.1 content) = true) spans
             /\ StronglySorted (fun a b => a.2 <= b.1) spans)).
Proof.
  intros _. unfold _find_pattern_location. split.
  - split.
    + match goal with |- context [fold_left ?f (indicators pattern) []] =>
      destruct (fold_left f (indicators pattern) []) as [|e l] eqn:E end; [|discriminate]. intros _.
      apply List.Forall_forall. intros ind Hi.
      destruct (count ind content) as [|n] eqn:Ec; [done|]. exfalso.
      assert (Hn : finditer ind content <> []).
      { intros H. rewrite <- finditer_length, H in Ec. discriminate. }
      pose proof (location_fold_get content _ [] ind Hi Hn) as Hg. rewrite E in Hg. discriminate.
    + intros H. by rewrite location_fold_nil.
  - intros locations.
    match goal with |- context [fold_left ?f (indicators pattern) []] =>
      destruct (fold_left f (indicators pattern) []) as [|e l] eqn:E end; [discriminate|].
    intros Hs. injection Hs as <-. rewrite <- E. split.
    + intros ind Hi Hc. apply location_fold_get; [done|].
      intros H. rewrite <- finditer_length, H in Hc. simpl in Hc. lia.
    + intros ind spans Hin. apply location_fold_in in Hin as [[]|(Hi & -> & Hn)].
      destruct (finditer_spans ind content) as [Hf Hss].
      rewrite <- finditer_length.
      split; [done|]. split; [done|].
      split; [destruct (finditer ind content); [done|simpl; lia]|]. done.
Qed.

Lemma pattern_location_spans_witness :
  Forall (fun ind => ind <> EmptyString /\ all_word ind = true) (indicators api_endpoint)
  /\ _find_pattern_location "GET /users; get /items" api_endpoint
     = Some [("GET", [(0, 3); (12, 15)])]
  /\ (_find_pattern_location "GET /users; get /items" api_endpoint = None
      <-> Forall (fun ind => count ind "GET /users; get /items" = 0) (indicators api_endpoint)).
Proof.
  assert (Hw : Forall (fun ind => ind <> EmptyString /\ all_word ind = true)
                 (indicators api_endpoint)).
  { repeat (constructor; [split; [discriminate|reflexivity]|]). constructor. }
  split; [exact Hw|]. split; [vm_compute; reflexivity|].
  exact (proj1 (pattern_location_spans _ _ Hw)).
Defined.

(** [analyze_content] raises exactly when [find_patterns] does. Its
    coverage is [0.0] when no pattern is found and lies in [(0.5, 1]]
    otherwise (a mean of confidences above the threshold), and its
    recommendations are, in order, the reported patterns whose
    confidence is above [0.8], with that confidence.
    (For indicators that are nonempty words: others would be read by
    [re] as regex syntax.) *)
Theorem analyze_content_summary (patterns : Py.dict Pattern) (content : string) :
  Forall (fun p => Forall (fun ind => ind <> EmptyString /\ all_word ind = true) (indicators p))
    (map snd patterns) ->
  (analyze_content patterns content = None
   <-> List.Exists (fun p => indicators p = []) (map snd patterns))
  /\ (forall a, analyze_content patterns content = Some a ->
        ((analysis_patterns a = [] /\ coverage a = 0%Q)
         \/ (analysis_patterns a <> [] /\ (1 # 2 < coverage a <= 1)%Q))
        /\ map (fun r => (rec_pattern r, rec_confidence r)) (recommendations a)
           = map fst (List.filter (fun e => negb (Qle_bool e.1.2 (8 # 10)))
                        (analysis_patterns a))).
Proof.
  intros _. split.
  { unfold analyze_content. rewrite <- (find_patterns_none patterns content).
    destruct (find_patterns patterns content); split; intros H; first [discriminate|done]. }
  intros a. unfold analyze_content.
  destruct (find_patterns patterns content) as [ms|] eqn:Ef; [|discriminate].
  intros H. injection H as <-. simpl.
  destruct (find_patterns_some _ _ _ Ef) as (_ & _ & _ & Hb).
  split; [|apply recommendations_of].
  destruct ms as [|m ms'].
  - by left.
  - right. split; [discriminate|]. apply coverage_bounds; [discriminate|].
    apply List.Forall_map. eapply List.Forall_impl; [|exact Hb]. simpl. intros x [Hx _]. exact Hx.
Qed.

Lemma analyze_content_summary_witness :
  Forall (fun p => Forall (fun ind => ind <> EmptyString /\ all_word ind = true) (indicators p))
    (map snd default_patterns)
  /\ option_map coverage (analyze_content default_patterns "GET POST endpoint route class method")
     = Some (46 # 56)%Q
  /\ (analyze_content default_patterns "GET POST endpoint route class method" = None
      <-> List.Exists (fun p => indicators p = []) (map snd default_patterns)).
Proof.
  assert (Hw : Forall (fun p => Forall (fun ind => ind <> EmptyString /\ all_word ind = true)
                                  (indicators p)) (map snd default_patterns)).
  { repeat (constructor; [repeat (constructor; [split; [discriminate|reflexivity]|]); constructor|]).
    constructor. }
  split; [exact Hw|]. split; [vm_compute; reflexivity|].
  exact (proj1 (analyze_content_summary default_patterns _ Hw)).
Defined.

(** [PatternLibrary] keys patterns by [pattern.name]: [get_pattern]
    returns a pattern just added under its name and other names are
    unaffected; [list_patterns] gains the name unless it is already a
    key. The initial library is keyed differently ([api_endpoint] for
    [API Endpoint], ...), so [get_pattern] raises [KeyError] for the
    name of each of its patterns, and adding one of them again adds a
    second entry instead of replacing it. *)
Theorem pattern_library_by_name (patterns : Py.dict Pattern) (p : Pattern) (k : string) :
  get_pattern (add_pattern patterns p) (name p) = Some p
  /\ (k <> name p -> get_pattern (add_pattern patterns p) k = get_pattern patterns k)
  /\ list_patterns (add_pattern patterns p) = key_insert (list_patterns patterns) (name p)
  /\ (forall q, In q (map snd default_patterns) ->
        get_pattern default_patterns (name q) = None
        /\ list_patterns (add_pattern default_patterns q)
           = list_patterns default_patterns ++ [name q]).
Proof.
  split; [apply PerfFacts.get_setitem_eq|].
  split; [intros Hk; by apply PerfFacts.get_setitem_ne|].
  split; [apply keys_setitem|].
  intros q Hq. simpl in Hq.
  repeat (destruct Hq as [<-|Hq]; [split; reflexivity|]). destruct Hq.
Qed.

End PatternSearchFacts.

Module InfraRouteFacts.
Import Infra InfraRoute.

(** *** Float [<] is a strict order on the loads *)

Ltac sf_cmp :=
  repeat match goal with
  | |- context [Z.compare ?a ?b] => destruct (Z.compare_spec a b)
  | H : context [Z.compare ?a ?b] |- _ => destruct (Z.compare_spec a b)
  | |- context [Pos.compare_cont Eq ?a ?b] =>
      change (Pos.compare_cont Eq a b) with (Pos.compare a b); destruct (Pos.compare_spec a b)
  | H : context [Pos.compare_cont Eq ?a ?b] |- _ =>
      change (Pos.compare_cont Eq a b) with (Pos.compare a b) in H;
      destruct (Pos.compare_spec a b)
  end; simpl in *; subst; try discriminate; try reflexivity; try lia.

Lemma SFltb_trans (x y z : spec_float) :
  SFltb x y = true -> SFltb y z = true -> SFltb x z = true.
Proof.
  unfold SFltb, SFcompare.
  destruct x as [[]|[]| |[] mx ex], y as [[]|[]| |[] my ey], z as [[]|[]| |[] mz ez];
    intros H1 H2; sf_cmp.
Qed.

Lemma SFltb_asym (x y : spec_float) : SFltb x y = true -> SFltb y x = false.
Proof.
  unfold SFltb, SFcompare.
  destruct x as [[]|[]| |[] mx ex], y as [[]|[]| |[] my ey]; intros H1; sf_cmp.
Qed.

Lemma SFltb_irrefl (x : spec_float) : SFltb x x = false.
Proof. unfold SFltb, SFcompare. destruct x as [[]|[]| |[] mx ex]; sf_cmp. Qed.

Lemma ltb_trans (x y z : float) :
  PrimFloat.ltb x y = true -> PrimFloat.ltb y z = true -> PrimFloat.ltb x z = true.
Proof. rewrite !FloatAxioms.ltb_spec. apply SFltb_trans. Qed.

Lemma ltb_asym (x y : float) : PrimFloat.ltb x y = true -> PrimFloat.ltb y x = false.
Proof. rewrite !FloatAxioms.ltb_spec. apply SFltb_asym. Qed.

Lemma ltb_irrefl (x : float) : PrimFloat.ltb x x = false.
Proof. rewrite FloatAxioms.ltb_spec. apply SFltb_irrefl. Qed.

(** *** [min] by load *)

Lemma min_load_in (b : ServerProfile) (l : list ServerProfile) : In (min_load b l) (b :: l).
Proof.
  revert b. induction l as [|s l IH]; intros b; simpl; [by left|].
  destruct (PrimFloat.ltb (load s) (load b)).
  - destruct (IH s) as [E|E]; auto.
  - destruct (IH b) as [E|E]; auto.
Qed.

Lemma min_load_min_gen (b : ServerProfile) (l P : list ServerProfile) :
  (forall x, In x P -> PrimFloat.ltb (load x) (load b) = false) ->
  forall x, In x (P ++ b :: l) -> PrimFloat.ltb (load x) (load (min_load b l)) = false.
Proof.
  revert b P. induction l as [|s l IH]; intros b P HP x Hx; simpl.
  - apply in_app_or in Hx as [Hx|[<-|[]]]; [by apply HP|apply ltb_irrefl].
  - destruct (PrimFloat.ltb (load s) (load b)) eqn:E.
    + apply (IH s (P ++ [b])).
      * intros y Hy. apply in_app_or in Hy as [Hy|[<-|[]]]; [|by apply ltb_asym].
        destruct (PrimFloat.ltb (load y) (load s)) eqn:E'; [|done].
        pose proof (HP y Hy) as Hy'. rewrite (ltb_trans _ _ _ E' E) in Hy'. discriminate.
      * rewrite <- app_assoc. exact Hx.
    + apply (IH b (P ++ [s])).
      * intros y Hy. apply in_app_or in Hy as [Hy|[<-|[]]]; [by apply HP|done].
      * rewrite <- app_assoc. simpl. apply in_app_or in Hx as [Hx|Hx]; apply in_or_app; [by left|right].
        simpl in *. tauto.
Qed.

Lemma min_load_min (b : ServerProfile) (l : list ServerProfile) :
  Forall (fun x => PrimFloat.ltb (load x) (load (min_load b l)) = false) (b :: l).
Proof.
  apply List.Forall_forall. intros x Hx.
  apply (min_load_min_gen b l []); [intros ? []|exact Hx].
Qed.

(** *** Routing *)

Lemma find_fallback (st : string) (L : list ServerProfile) :
  (match List.find (serves st) L with Some s => Routed s | None => NoServer end = NoServer
   <-> Forall (fun s => serves st s = false) L)
  /\ (forall r, match List.find (serves st) L with Some s => Routed s | None => NoServer end
                = Routed r -> In r L /\ serves st r = true).
Proof.
  split.
  - destruct (List.find (serves st) L) eqn:E; split; intros H.
    + discriminate.
    + apply List.find_some in E as [Hin Hs].
      rewrite (proj1 (List.Forall_forall _ _) H _ Hin) in Hs. discriminate.
    + apply List.Forall_forall. intros x Hx. exact (List.find_none _ _ E x Hx).
    + done.
  - intros r. destruct (List.find (serves st) L) eqn:E; [|discriminate].
    intros H. injection H as <-. by apply List.find_some in E.
Qed.

Lemma candidates_min (p : ServerProfile -> bool) (st : string) (L : list ServerProfile)
    (c : ServerProfile) (cs : list ServerProfile) :
  List.filter (fun s => p s && serves st s) L = c :: cs ->
  In (min_load c cs) L /\ serves st (min_load c cs) = true
  /\ In (min_load c cs) (c :: cs)
  /\ Forall (fun x => PrimFloat.ltb (load x) (load (min_load c cs)) = false) (c :: cs).
Proof.
  intros E. pose proof (min_load_in c cs) as Hin. rewrite <- E in Hin.
  apply List.filter_In in Hin as [HL Hp]. apply andb_prop in Hp as [_ Hs].
  split; [done|]. split; [done|]. split; [apply min_load_in|apply min_load_min].
Qed.

Lemma filter_serves_nil (p : ServerProfile -> bool) (st : string) (L : list ServerProfile) :
  Forall (fun s => serves st s = false) L -> List.filter (fun s => p s && serves st s) L = [].
Proof.
  induction L as [|x L IH]; simpl; intros H; [done|].
  inversion H as [|? ? Hx Hr]; subst. rewrite Hx, andb_false_r. by apply IH.
Qed.

Lemma route_cases (servers : Py.dict ServerProfile) (lat lon : Q) (st : string) :
  route_request servers (Some (lat, lon)) st
  = match List.filter (fun s => region_eqb (region s) (_get_region_for_location lat lon)
                                && serves st s) (map snd servers) with
    | c :: cs => Routed (min_load c cs)
    | [] =>
        match List.filter (fun s => region_eqb (region s) GLOBAL && serves st s)
                (map snd servers) with
        | c :: cs => Routed (min_load c cs)
        | [] => route_request servers None st
        end
    end.
Proof.
  unfold route_request. cbv zeta.
  destruct (List.filter (fun s => region_eqb (region s) (_get_region_for_location lat lon)
                                  && serves st s) (map snd servers)); [|done].
  by destruct (List.filter (fun s => region_eqb (region s) GLOBAL && serves st s)
                 (map snd servers)).
Qed.

(** [route_request] fails only when no server is active and offers the
    service. Otherwise it returns such a server: one of least load among
    the client region's candidates when there are any, else among the
    [global] ones, else (its own [ValueError("No available servers")]
    being caught) the first candidate of any region, which is also the
    answer when the geoip lookup fails. *)
Theorem route_request_choice (servers : Py.dict ServerProfile) (geo : option (Q * Q))
    (service_type : string) :
  (route_request servers geo service_type = NoServer
   <-> Forall (fun s => serves service_type s = false) (map snd servers))
  /\ (forall server, route_request servers geo service_type = Routed server ->
        In server (map snd servers) /\ serves service_type server = true)
  /\ route_request servers None service_type
     = match List.find (serves service_type) (map snd servers) with
       | Some s => Routed s
       | None => NoServer
       end
  /\ (forall latitude longitude,
        let regional :=
          List.filter (fun s => region_eqb (region s) (_get_region_for_location latitude longitude)
                                && serves service_type s) (map snd servers) in
        let global :=
          List.filter (fun s => region_eqb (region s) GLOBAL && serves service_type s)
            (map snd servers) in
        let chosen := route_request servers (Some (latitude, longitude)) service_type in
        (regional <> [] ->
           exists r, chosen = Routed r /\ In r regional
                     /\ Forall (fun s => PrimFloat.ltb (load s) (load r) = false) regional)
        /\ (regional = [] -> global <> [] ->
              exists r, chosen = Routed r /\ In r global
                        /\ Forall (fun s => PrimFloat.ltb (load s) (load r) = false) global)
        /\ (regional = [] -> global = [] -> chosen = route_request servers None service_type)).
Proof.
  destruct (find_fallback service_type (map snd servers)) as [Hfn Hfr].
  assert (HN : route_request servers None service_type
               = match List.find (serves service_type) (map snd servers) with
                 | Some s => Routed s
                 | None => NoServer
                 end) by reflexivity.
  split; [|split; [|split; [exact HN|]]].
  - destruct geo as [[lat lon]|]; [|exact Hfn].
    rewrite route_cases. split.
    + destruct (List.filter (fun s => region_eqb (region s) (_get_region_for_location lat lon)
                                      && serves service_type s) (map snd servers));
        [|discriminate].
      destruct (List.filter (fun s => region_eqb (region s) GLOBAL && serves service_type s)
                  (map snd servers)); [|discriminate].
      rewrite HN. apply Hfn.
    + intros H. rewrite !filter_serves_nil by exact H. rewrite HN. by apply Hfn.
  - intros server. destruct geo as [[lat lon]|]; [|rewrite HN; apply Hfr].
    rewrite route_cases.
    destruct (List.filter (fun s => region_eqb (region s) (_get_region_for_location lat lon)
                                    && serves service_type s) (map snd servers))
      as [|c cs] eqn:ER.
    + destruct (List.filter (fun s => region_eqb (region s) GLOBAL && serves service_type s)
                  (map snd servers)) as [|g gs] eqn:EG.
      * rewrite HN. apply Hfr.
      * intros H. injection H as <-. by destruct (candidates_min _ _ _ _ _ EG) as (? & ? & _).
    + intros H. injection H as <-. by destruct (candidates_min _ _ _ _ _ ER) as (? & ? & _).
  - intros lat lon. cbv zeta. rewrite route_cases. split; [|split].
    + destruct (List.filter (fun s => region_eqb (region s) (_get_region_for_location lat lon)
                                      && serves service_type s) (map snd servers))
        as [|c cs] eqn:ER; [done|]. intros _.
      destruct (candidates_min _ _ _ _ _ ER) as (_ & _ & Hin & Hmin).
      by exists (min_load c cs).
    + intros ->.
      destruct (List.filter (fun s => region_eqb (region s) GLOBAL && serves service_type s)
                  (map snd servers)) as [|g gs] eqn:EG; [done|].
      intros _. destruct (candidates_min _ _ _ _ _ EG) as (_ & _ & Hin & Hmin).
      by exists (min_load g gs).
    + intros -> ->. done.
Qed.

Lemma route_request_choice_witness :
  let a := mkServerProfile "a" PRIMARY EMEA ["cdn"] [("load", 0.7%float)] "active" in
  let b := mkServerProfile "b" EDGE EMEA ["cdn"; "dns"] [("load", 0.2%float)] "active" in
  let c := mkServerProfile "c" EDGE APAC ["cdn"] [] "active" in
  let servers := [("a", a); ("b", b); ("c", c)] in
  route_request servers (Some (0%Q, 10%Q)) "cdn" = Routed b
  /\ route_request servers (Some (0%Q, -100%Q)) "cdn" = Routed a
  /\ route_request servers None "dns" = Routed b
  /\ (route_request servers None "edge_compute" = NoServer
      <-> Forall (fun s => serves "edge_compute" s = false) (map snd servers)).
Proof.
  cbv zeta. split; [vm_compute; reflexivity|]. split; [vm_compute; reflexivity|].
  split; [vm_compute; reflexivity|].
  exact (proj1 (route_request_choice _ None "edge_compute")).
Defined.

(** *** Server statistics *)

Lemma list_to_map_const_lookup (F : string -> nat) (ks : list string) (k : string) (n : nat) :
  (list_to_map (map (fun k => (k, F k)) ks) : gmap string nat) !! k = Some n
  <-> In k ks /\ n = F k.
Proof.
  induction ks as [|k' ks IH]; cbn [map].
  - rewrite list_to_map_nil, lookup_empty. split; [discriminate|]. intros [[] _].
  - rewrite list_to_map_cons, lookup_insert_Some, IH. split.
    + intros [[-> <-]|[Hne [Hin ->]]]; split; auto. by left. by right.
    + intros [[->|Hin] ->]; [by left|].
      destruct (decide (k' = k)) as [->|Hne]; [by left|right; auto].
Qed.

Lemma count_pos (key : ServerProfile -> string) (L : list ServerProfile) (k : string) :
  0 < length (List.filter (fun s => String.eqb (key s) k) L) <-> In k (map key L).
Proof.
  induction L as [|x L IH]; simpl; [split; [lia|done]|].
  destruct (String.eqb_spec (key x) k) as [<-|Hne]; simpl.
  - split; [by left|lia].
  - rewrite IH. split; [by right|]. intros [E|H]; [congruence|done].
Qed.

Lemma sum_list_map_add {A} (f g : A -> nat) (l : list A) :
  sum_list (map (fun x => f x + g x) l) = sum_list (map f l) + sum_list (map g l).
Proof. induction l as [|x l IH]; simpl; [done|]. rewrite IH. unfold id. lia. Qed.

Lemma sum_list_map_zero {A} (f : A -> nat) (l : list A) :
  (forall x, In x l -> f x = 0) -> sum_list (map f l) = 0.
Proof.
  induction l as [|x l IH]; simpl; intros H; [done|].
  rewrite IH by auto. specialize (H x (or_introl eq_refl)). unfold id. lia.
Qed.

Lemma sum_indicator (a : string) (ks : list string) :
  NoDup ks -> In a ks -> sum_list (map (fun k => if String.eqb a k then 1 else 0) ks) = 1.
Proof.
  induction ks as [|k ks IH]; intros Hnd Hin; [destruct Hin|].
  apply NoDup_cons in Hnd as [Hk Hnd]. rewrite list_elem_of_In in Hk. simpl.
  destruct (String.eqb_spec a k) as [->|Hne].
  - rewrite sum_list_map_zero; [done|].
    intros k' Hk'. destruct (String.eqb_spec k k') as [->|]; [contradiction|done].
  - destruct Hin as [->|Hin]; [congruence|]. rewrite IH by done. done.
Qed.

Lemma sum_counts (key : ServerProfile -> string) (L : list ServerProfile) (ks : list string) :
  NoDup ks -> (forall s, In s L -> In (key s) ks) ->
  sum_list (map (fun k => length (List.filter (fun s => String.eqb (key s) k) L)) ks)
  = length L.
Proof.
  intros Hnd. induction L as [|x L IH]; intros Hk.
  - simpl. clear. induction ks as [|k ks IH]; simpl; [done|]. exact IH.
  - transitivity (sum_list (map (fun k => if String.eqb (key x) k then 1 else 0) ks)
                  + sum_list (map (fun k => length (List.filter (fun s => String.eqb (key s) k) L))
                                ks)).
    { rewrite <- sum_list_map_add. f_equal. apply map_ext. intros k. simpl.
      by destruct (String.eqb (key x) k). }
    rewrite sum_indicator, IH; [simpl; lia| |done|]; auto.
    + intros s Hs. apply Hk. by right.
    + apply Hk. by left.
Qed.

Lemma fmap_snd_pairs (F : string -> nat) (ks : list string) :
  (map (fun k => (k, F k)) ks).*2 = map F ks.
Proof. induction ks as [|k ks IH]; [done|]. cbn [map]. rewrite fmap_cons. simpl. by f_equal. Qed.

Lemma fmap_fst_pairs (F : string -> nat) (ks : list string) :
  (map (fun k => (k, F k)) ks).*1 = ks.
Proof. induction ks as [|k ks IH]; [done|]. cbn [map]. rewrite fmap_cons. simpl. by f_equal. Qed.

Lemma counts_of_count_by (key : ServerProfile -> string) (L : list ServerProfile) :
  counts_of key L (count_by key L).
Proof.
  set (F := fun k => length (List.filter (fun s => String.eqb (key s) k) L)).
  assert (Hlk : forall k n, count_by key L !! k = Some n <-> In k (map key L) /\ n = F k)
    by (intros; apply list_to_map_const_lookup).
  split.
  { intros k n. rewrite Hlk. split.
    - intros [Hin ->]. split; [by apply count_pos|done].
    - intros [Hpos ->]. split; [by apply count_pos|done]. }
  set (ks := remove_dups (map key L)).
  assert (Hks : forall k, In k ks <-> In k (map key L)).
  { intros k. rewrite <- !list_elem_of_In. apply elem_of_remove_dups. }
  assert (Heq : count_by key L = list_to_map (map (fun k => (k, F k)) ks)).
  { apply map_eq. intros k.
    destruct (count_by key L !! k) as [n|] eqn:E1;
      destruct ((list_to_map (map (fun k => (k, F k)) ks) : gmap string nat) !! k) as [n'|] eqn:E2.
    - apply Hlk in E1 as [_ ->]. apply list_to_map_const_lookup in E2 as [_ ->]. done.
    - apply Hlk in E1 as [Hin ->].
      assert (Hc : (list_to_map (map (fun k => (k, F k)) ks) : gmap string nat) !! k = Some (F k))
        by (apply list_to_map_const_lookup; split; [by apply Hks|done]).
      congruence.
    - apply list_to_map_const_lookup in E2 as [Hin ->].
      assert (Hc : count_by key L !! k = Some (F k)) by (apply Hlk; split; [by apply Hks|done]).
      congruence.
    - done. }
  rewrite Heq, map_to_list_to_map.
  2:{ rewrite fmap_fst_pairs. apply NoDup_remove_dups. }
  rewrite fmap_snd_pairs. apply sum_counts; [apply NoDup_remove_dups|].
  intros s Hs. apply Hks. by apply in_map.
Qed.

Lemma counts_of_nil (key : ServerProfile -> string) : counts_of key [] ∅.
Proof.
  split.
  - intros k n. rewrite lookup_empty. simpl. split; [discriminate|lia].
  - by rewrite map_to_list_empty.
Qed.

Lemma filter_filter {A} (p q : A -> bool) (l : list A) :
  List.filter p (List.filter q l) = List.filter (fun x => q x && p x) l.
Proof.
  induction l as [|x l IH]; simpl; [done|].
  destruct (q x); simpl; [destruct (p x); simpl; [f_equal|]|]; done.
Qed.

Lemma stats_servers (servers : Py.dict ServerProfile) (type_arg : option ServerType)
    (region_arg : option RegionType) :
  match region_arg with
  | Some r =>
      List.filter (fun s => region_eqb (region s) r)
        (match type_arg with
         | Some t => List.filter (fun s => server_type_eqb (type s) t) (map snd servers)
         | None => map snd servers
         end)
  | None =>
      match type_arg with
      | Some t => List.filter (fun s => server_type_eqb (type s) t) (map snd servers)
      | None => map snd servers
      end
  end
  = List.filter (fun s => match type_arg with Some t => server_type_eqb (type s) t | None => true end
                          && match region_arg with Some r => region_eqb (region s) r | None => true end)
      (map snd servers).
Proof.
  destruct type_arg as [t|], region_arg as [r|]; rewrite ?filter_filter.
  - done.
  - rewrite <- (PatternSearchFacts.filter_all_true (List.filter _ _)), filter_filter.
    apply List.filter_ext. intros; by rewrite !andb_true_r.
  - apply List.filter_ext. done.
  - symmetry. rewrite <- (PatternSearchFacts.filter_all_true (map snd servers)) at 2. done.
Qed.

(** [get_server_stats] counts the servers of the requested type and
    region: [total] is their number, and each of [by_type], [by_region]
    and [by_status] maps exactly the values that occur among them to how
    many of them have it, so each dict's counts add up to [total]. The
    separate branch for no server gives the same as the general one. *)
Theorem server_stats_partition (servers : Py.dict ServerProfile) (type_arg : option ServerType)
    (region_arg : option RegionType) :
  let matching :=
    List.filter (fun s => match type_arg with Some t => server_type_eqb (type s) t | None => true end
                          && match region_arg with Some r => region_eqb (region s) r | None => true end)
      (map snd servers) in
  let stats := get_server_stats servers type_arg region_arg in
  total stats = length matching
  /\ counts_of (fun s => server_type_value (type s)) matching (by_type stats)
  /\ counts_of (fun s => region_value (region s)) matching (by_region stats)
  /\ counts_of status matching (by_status stats).
Proof.
  cbv zeta. unfold get_server_stats. cbv zeta. rewrite stats_servers.
  destruct (List.filter
              (fun s => match type_arg with Some t => server_type_eqb (type s) t | None => true end
                        && match region_arg with Some r => region_eqb (region s) r | None => true end)
              (map snd servers)) as [|x l]; simpl.
  - split; [done|]. split; [|split]; apply counts_of_nil.
  - split; [done|]. split; [|split]; apply counts_of_count_by.
Qed.

End InfraRouteFacts.
